(** * pyret: spike-train and stimulus tools

    A shallow embedding of [spiketools.py] and [stimulustools.py] and the
    properties of the event-detection pipeline, the [spikingevent] class and
    the stimulus resampling functions.

    Conventions of the embedding.
    - A finite float is modelled by the rational it denotes ([Q]).  Order and
      equality tests ([<], [<=], [==]) are exact on finite floats, so they are
      modelled exactly; arithmetic is the exact rational operation (no
      rounding), its result kept in lowest terms.  Where numpy would leave
      the finite floats (nan, inf) the model raises [NonFinite].
    - A 1-d numpy array is a [list]; the n-by-2 spike array is a list of rows
      [(time, trial index)], the trial index being an integer label.
    - Python exceptions are the constructors of [exn]; a call either returns
      a value or raises ([result]).
    - numpy arrays mutated in place live in an array store ([heap]). *)

From Stdlib Require Import List ZArith QArith Qround Lia Lqa Bool String.
From Stdlib Require Import Permutation Sorted.
From stdpp Require Import base option list gmap.
Import ListNotations.

Local Open Scope Q_scope.

(* ================================================================== *)
(** * Exceptions and results *)
(* ================================================================== *)

Inductive exn : Type :=
| ValueError (msg : string)
| IndexError (msg : string)
| AttributeError (attr : string)
| TypeError (msg : string)
| ZeroDivisionError
| NonFinite
| OtherError (cls : string).

Inductive result (A : Type) : Type :=
| Ok (a : A)
| Raise (e : exn).

Arguments Ok {A} a.
Arguments Raise {A} e.

Definition bind {A B : Type} (c : result A) (k : A -> result B) : result B :=
  match c with
  | Ok a => k a
  | Raise e => Raise e
  end.

Notation "'let*' x ':=' c 'in' k" := (bind c (fun x => k))
  (at level 10, x pattern, c at level 100, k at level 200).

Fixpoint mapM {A B : Type} (f : A -> result B) (l : list A) : result (list B) :=
  match l with
  | [] => Ok []
  | x :: r =>
      let* y := f x in
      let* ys := mapM f r in
      Ok (y :: ys)
  end.

(** The exception class the specification names for a malformed threshold.
    No function of the repository raises it. *)
Definition ConfigurationError : exn := OtherError "ConfigurationError".

(* ================================================================== *)
(** * The numpy operations the two modules call *)
(* ================================================================== *)

Module Np.

(** [a[i]] for a non-negative index. *)
Definition getitem {A : Type} (a : list A) (i : nat) : result A :=
  match nth_error a i with
  | Some x => Ok x
  | None => Raise (IndexError "index out of bounds")
  end.

(** [a[-1]]. *)
Definition getitem_last {A : Type} (a : list A) : result A :=
  match a with
  | [] => Raise (IndexError "index out of bounds")
  | x :: r => Ok (List.last r x)
  end.

(** [a[-2]]. *)
Definition getitem_last2 {A : Type} (a : list A) : result A :=
  getitem_last (removelast a).

(** [a[idx]] for an integer index array. *)
Definition take {A : Type} (a : list A) (idx : list nat) : result (list A) :=
  mapM (getitem a) idx.

(** Reductions [np.max], [np.min]: they raise on a zero-size array. *)
Definition reduce {A : Type} (f : A -> A -> A) (name : string) (a : list A)
  : result A :=
  match a with
  | [] => Raise (ValueError
            ("zero-size array to reduction operation " ++ name
             ++ " which has no identity"))
  | x :: r => Ok (fold_left f r x)
  end.

(** Float arithmetic: the exact operation, in lowest terms. *)
Definition add (x y : Q) : Q := Qred (x + y).
Definition sub (x y : Q) : Q := Qred (x - y).
Definition mul (x y : Q) : Q := Qred (x * y).
Definition div (x y : Q) : Q := Qred (x / y).

Definition Qmaxb (x y : Q) : Q := if Qle_bool x y then y else x.
Definition Qltb (x y : Q) : bool := negb (Qle_bool y x).

Definition max (a : list Q) : result Q := reduce Qmaxb "maximum" a.
Definition maxZ (a : list Z) : result Z := reduce Z.max "maximum" a.
Definition minZ (a : list Z) : result Z := reduce Z.min "minimum" a.
Definition maxN (a : list nat) : result nat := reduce Nat.max "maximum" a.
Definition minN (a : list nat) : result nat := reduce Nat.min "minimum" a.

Definition sum (a : list Q) : Q := fold_left add a 0.

(** [np.arange(start, stop, step)]: [ceil((stop - start) / step)] values
    [start + i * step].  The number of values is taken here from the exact
    quotient; numpy takes it from the rounded one, which for a fractional
    step can differ by one.  With integer bounds and step the two agree;
    the statements below are those that hold for either count. *)
Definition arange (start stop step : Q) : result (list Q) :=
  if Qeq_bool step 0 then Raise ZeroDivisionError
  else
    let n := Z.to_nat (Qceiling ((stop - start) / step)) in
    Ok (map (fun i : nat => add start (mul (inject_Z (Z.of_nat i)) step))
            (seq 0 n)).

(** [np.arange(start, stop)] on integers (unit step). *)
Definition arangeZ (start stop : Z) : list Z :=
  map (fun i : nat => (start + Z.of_nat i)%Z) (seq 0 (Z.to_nat (stop - start))).

(** [np.arange(0, stop, step)] on array positions. *)
Definition arangeN (stop : nat) (step : Z) : result (list nat) :=
  if (step =? 0)%Z then Raise ZeroDivisionError
  else if (step <? 0)%Z then Ok []
  else
    let k := Z.to_nat step in
    Ok (map (fun i : nat => (i * k)%nat) (seq 0 ((stop + k - 1) / k)%nat)).

(** [np.diff]. *)
Fixpoint diff (a : list Q) : list Q :=
  match a with
  | x :: ((y :: _) as r) => sub y x :: diff r
  | _ => []
  end.

(** [a / d] elementwise, for a float scalar [d]. *)
Definition div_each (a : list Q) (d : Q) : result (list Q) :=
  match a with
  | [] => Ok []
  | _ => if Qeq_bool d 0 then Raise NonFinite
         else Ok (map (fun x => div x d) a)
  end.

(** [np.mean]: nan on a zero-size array. *)
Definition mean (a : list Q) : result Q :=
  match a with
  | [] => Raise NonFinite
  | _ => Ok (div (sum a) (inject_Z (Z.of_nat (length a))))
  end.

(** Elementwise binary operation on two 1-d arrays, with broadcasting of a
    length-1 operand. *)
Definition broadcast2 {A B C : Type} (f : A -> B -> C) (a : list A) (b : list B)
  : result (list C) :=
  if (length a =? length b)%nat then Ok (zip_with f a b)
  else match a, b with
       | [x], _ => Ok (map (f x) b)
       | _, [y] => Ok (map (fun x => f x y) a)
       | _, _ => Raise (ValueError "operands could not be broadcast together")
       end.

(** [np.where(mask)]: the positions at which a boolean array holds. *)
Fixpoint where_from (i : nat) (mask : list bool) : list nat :=
  match mask with
  | [] => []
  | b :: r => if b then i :: where_from (S i) r else where_from (S i) r
  end.

Definition where_ (mask : list bool) : list nat := where_from 0 mask.

(** [a[mask]]: boolean-mask selection of rows (a new array). *)
Definition select {A : Type} (mask : list bool) (a : list A) : result (list A) :=
  if (length mask =? length a)%nat
  then Ok (map snd (List.filter fst (combine mask a)))
  else Raise (IndexError "boolean index did not match indexed array").

Section Histogram.
Context {A : Type} (leb : A -> A -> bool).

(** Membership of [x] in the bin [lo, hi), or [lo, hi] for the last bin. *)
Definition in_bin (lo hi : A) (closed : bool) (x : A) : bool :=
  leb lo x && (if closed then leb x hi else negb (leb hi x)).

Fixpoint bin_counts (a : list A) (edges : list A) : list Z :=
  match edges with
  | lo :: ((hi :: rest) as r) =>
      let closed := match rest with [] => true | _ => false end in
      Z.of_nat (length (List.filter (in_bin lo hi closed) a))
        :: bin_counts a r
  | _ => []
  end.

Fixpoint nondecreasing (edges : list A) : bool :=
  match edges with
  | x :: ((y :: _) as r) => leb x y && nondecreasing r
  | _ => true
  end.

(** [np.histogram(a, bins=edges)[0]] for an explicit array of edges:
    one count per pair of consecutive edges, every bin half-open except
    the last, which is closed. *)
Definition histogram (a : list A) (edges : list A) : result (list Z) :=
  if negb (nondecreasing edges)
  then Raise (ValueError "bins must increase monotonically.")
  else match edges, a with
       | [], _ :: _ => Raise (IndexError "index out of bounds")
       | _, _ => Ok (bin_counts a edges)
       end.
End Histogram.

(** [np.convolve(a, v, mode='full')]. *)
Fixpoint add_padded (a b : list Q) : list Q :=
  match a, b with
  | [], _ => b
  | _, [] => a
  | x :: a', y :: b' => add x y :: add_padded a' b'
  end.

Fixpoint conv_full (a v : list Q) : list Q :=
  match a with
  | [] => []
  | x :: a' => add_padded (map (mul x) v) (0 :: conv_full a' v)
  end.

Definition convolve (a v : list Q) : result (list Q) :=
  match a, v with
  | [], _ => Raise (ValueError "a cannot be empty")
  | _, [] => Raise (ValueError "v cannot be empty")
  | _, _ => Ok (conv_full a v)
  end.

(** [np.unique(ar, return_index=True)]: the sorted distinct values and, for
    each, the position of its first occurrence in [ar]. *)
Fixpoint insert_uniq (x : Z) (l : list Z) : list Z :=
  match l with
  | [] => [x]
  | y :: r =>
      if (x <? y)%Z then x :: l
      else if (x =? y)%Z then l
      else y :: insert_uniq x r
  end.

Definition unique (ar : list Z) : list Z := fold_right insert_uniq [] ar.

Fixpoint first_index (x : Z) (ar : list Z) : nat :=
  match ar with
  | [] => 0
  | y :: r => if (y =? x)%Z then 0 else S (first_index x r)
  end.

Definition unique_index (ar : list Z) : list Z * list nat :=
  let u := unique ar in (u, map (fun x => first_index x ar) u).

(** What numpy promises of [np.argsort] (its default sort is not stable):
    a permutation of the positions along which the values do not decrease. *)
Definition argsort_spec (argsort : list Q -> list nat) : Prop :=
  forall a : list Q,
    Permutation (argsort a) (seq 0 (length a)) /\
    forall i j x y,
      (i < j)%nat ->
      (argsort a !! i) ≫= (fun p => a !! p) = Some x ->
      (argsort a !! j) ≫= (fun p => a !! p) = Some y ->
      x <= y.

(** One such argsort: insertion of the positions, ties by position. *)
Fixpoint insert_pos (a : list Q) (p : nat) (l : list nat) : list nat :=
  match l with
  | [] => [p]
  | q :: r =>
      if Qle_bool (nth p a 0) (nth q a 0) then p :: l
      else q :: insert_pos a p r
  end.

Definition argsort_stable (a : list Q) : list nat :=
  fold_right (insert_pos a) [] (seq 0 (length a)).

End Np.

(* ================================================================== *)
(** * spiketools.py *)
(* ================================================================== *)

Module SpikeTools.

(** A row of the n-by-2 spike array: spike time and trial index. *)
Abbreviation spike := (Q * Z)%type.

(** A Python number passed for [numTrials]: the default [1] is an int, the
    value [detectevents] passes is a float. *)
Inductive pynum : Type :=
| PyInt (z : Z)
| PyFloat (q : Q).

(** [not tmax] for [tmax] either [None] or a float. *)
Definition py_not (tmax : option Q) : bool :=
  match tmax with
  | None => true
  | Some t => Qeq_bool t 0
  end.

(** [bspk / numTrials] for the integer array of counts (Python 2: an int
    divisor floors, and numpy yields 0 on an int division by zero). *)
Definition divide_counts (bspk : list Z) (numTrials : pynum) : result (list Q) :=
  match numTrials with
  | PyInt k => Ok (map (fun c => inject_Z (c / k)) bspk)
  | PyFloat q => Np.div_each (map inject_Z bspk) q
  end.

Definition binspikes (spk : list Q) (tmax : option Q) (binsize : Q)
    (time : option (list Q)) (numTrials : pynum)
  : result (list Q * list Q) :=
  let* time :=
    match time with
    | Some time => Ok time
    | None =>
        let* tmax :=
          if py_not tmax
          then (let* m := Np.max spk in Ok (inject_Z (Qceiling m)))
          else Ok (default 0 tmax) in
        Np.arange 0 (Np.add tmax binsize) binsize
    end in
  let* bspk := Np.histogram Qle_bool spk time in
  let* d := Np.mean (Np.diff time) in
  let tax := map (fun t => Np.add t (Np.mul (1 # 2) d)) (removelast time) in
  let* bspk := divide_counts bspk numTrials in
  Ok (bspk, tax).

Section Estfr.
(** [np.exp], a collaborator of numpy not representable on rationals. *)
Variable np_exp : Q -> Q.

Definition estfr (tax bspk : list Q) (sigma : Q) : result (list Q) :=
  let* dt := Np.mean (Np.diff tax) in
  let* tau := Np.arange (Np.mul (- (5)) sigma) (Np.mul 5 sigma) dt in
  let* z := Np.div_each tau sigma in
  let filt := map (fun u => np_exp (Np.mul (- (1 # 2)) (Np.mul u u))) z in
  let* filt := Np.div_each filt (Np.sum filt) in
  let size := (length filt / 2)%nat in
  let* full := Np.convolve filt bspk in
  Np.div_each (firstn (length tax) (skipn size full)) dt.
End Estfr.

(** ** class spikingevent *)

Record spikingevent : Type := {
  start : Q;
  stop : Q;
  spikes : list spike
}.

(** [__init__]. *)
Definition __init__ (startTime stopTime : Q) (spikes : list spike) : spikingevent :=
  {| start := startTime; stop := stopTime; spikes := spikes |}.

(** [__eq__]. *)
Definition __eq__ (self other : spikingevent) : bool :=
  Qeq_bool (start self) (start other) && Qeq_bool (stop self) (stop other).

Definition trialCounts (self : spikingevent) : result (list Z) :=
  let trials := map snd (spikes self) in
  let* lo := Np.minZ trials in
  let* hi := Np.maxZ trials in
  Np.histogram Z.leb trials (Np.arangeZ lo hi).

(** The names bound on a [spikingevent] instance: the methods of the class
    body and the three attributes [__init__] sets. *)
Definition attributes : list string :=
  ["__init__"; "__repr__"; "__eq__"; "trialCounts"; "eventStats"; "ttfs";
   "jitter"; "sort"; "plot"; "start"; "stop"; "spikes"]%string.

(** [self.<name>] used as a method returning an array of counts. *)
Definition getattr_counts (self : spikingevent) (name : string)
  : result (unit -> result (list Z)) :=
  if String.eqb name "trialCounts" then Ok (fun _ => trialCounts self)
  else if existsb (String.eqb name) attributes
       then Raise (TypeError "attribute is not a method returning counts")
       else Raise (AttributeError name).

Section Stats.
(** [np.sqrt], used by [np.std]. *)
Variable np_sqrt : Q -> Q.

(** [np.std]: the population standard deviation, the mean and the
    deviations in exact arithmetic (numpy rounds them: the two agree where
    every operation is exact, as on an array of one value).  On a zero-size
    array numpy returns nan, here [NonFinite]. *)
Definition np_std (a : list Q) : result Q :=
  let* mu := Np.mean a in
  let* var := Np.mean (map (fun x => Np.mul (Np.sub x mu) (Np.sub x mu)) a) in
  Ok (np_sqrt var).

Definition eventStats (self : spikingevent) : result (Q * Q) :=
  let* eventCounts := getattr_counts self "eventCounts" in
  let* counts := eventCounts tt in
  let counts := map inject_Z counts in
  let* mu := Np.mean counts in
  let* sd := np_std counts in
  Ok (mu, sd).

Definition ttfs (self : spikingevent) : result (list Q) :=
  let '(trials, indices) := Np.unique_index (map snd (spikes self)) in
  let* rows := Np.take (spikes self) indices in
  Ok (map fst rows).

Definition jitter (self : spikingevent) : result Q :=
  let* times := ttfs self in
  np_std times.
End Stats.

(** ** The array store, for [sort], which copies and then writes in place *)

Abbreviation loc := positive.
Abbreviation heap := (gmap loc (list spike)).

Definition load (h : heap) (l : loc) : result (list spike) :=
  match h !! l with
  | Some a => Ok a
  | None => Raise (OtherError "dangling array reference")
  end.

(** [a.copy()]: a new array with the contents of [a]. *)
Definition copy (h : heap) (l : loc) : result (loc * heap) :=
  let* a := load h l in
  let l' := fresh (dom h) in
  Ok (l', <[l' := a]> h).

(** [a[mask, 1] = v], in place. *)
Definition setitem_mask_trial (h : heap) (l : loc) (mask : list bool) (v : Z)
  : result heap :=
  let* a := load h l in
  if (length mask =? length a)%nat
  then Ok (<[l := zip_with (fun (m : bool) (s : spike) =>
                              if m then (fst s, v) else s) mask a]> h)
  else Raise (IndexError "boolean index did not match indexed array").

Section Sort.
(** [np.argsort]. *)
Variable argsort : list Q -> list nat.

(** The body of the loop of [sort], for one value of [idx]. *)
Definition sort_step (self sortedspikes : loc) (sortedtrials : list Z)
    (h : heap) (idx : nat) : result heap :=
  let* a := load h self in
  let* t := Np.getitem sortedtrials idx in
  let mask := map (fun s : spike => (snd s =? t)%Z) a in
  setitem_mask_trial h sortedspikes mask (Z.of_nat idx + 1).

Fixpoint sort_loop (self sortedspikes : loc) (sortedtrials : list Z)
    (h : heap) (idxs : list nat) : result heap :=
  match idxs with
  | [] => Ok h
  | idx :: r =>
      let* h' := sort_step self sortedspikes sortedtrials h idx in
      sort_loop self sortedspikes sortedtrials h' r
  end.

(** [sort], on the event whose [spikes] array is stored at [self]; it
    returns the reference of the new array. *)
Definition sort (self : loc) (h : heap) : result (loc * heap) :=
  let* a := load h self in
  let '(_, trialIndices) := Np.unique_index (map snd a) in
  let* firsts := Np.take a trialIndices in
  let sortedIndices := argsort (map fst firsts) in
  let* rows := Np.take trialIndices sortedIndices in
  let* sorted := Np.take a rows in
  let sortedtrials := map snd sorted in
  let* (sortedspikes, h) := copy h self in
  let* h := sort_loop self sortedspikes sortedtrials h
              (seq 0 (length sortedtrials)) in
  Ok (sortedspikes, h).
End Sort.

(** ** detectevents *)

Section DetectEvents.
Variable np_exp : Q -> Q.
(** [peakdet(v, delta, x)] of the external module [peakdetect]: the tables
    of maxima and of minima, one row [(x, v)] per extremum. *)
Variable peakdet :
  list Q -> Q -> list Q -> result (list (Q * Q) * list (Q * Q)).

(** [np.where((psth <= threshold[1]) & cmp(tax, peak))]. *)
Definition boundary_indices (cmp : Q -> Q -> bool) (tax psth threshold : list Q)
    (peak : Q) : result (list nat) :=
  let* th1 := Np.getitem threshold 1 in
  let* mask := Np.broadcast2 andb
                 (map (fun r => Qle_bool r th1) psth)
                 (map (fun t => cmp t peak) tax) in
  Ok (Np.where_ mask).

(** The body of the loop up to the construction of [myEvent]. *)
Definition make_event (tax psth threshold : list Q) (spk : list spike)
    (peak : Q * Q) : result spikingevent :=
  let* startIndices := boundary_indices Np.Qltb tax psth threshold (fst peak) in
  let* stopIndices :=
    boundary_indices (fun t p => Np.Qltb p t) tax psth threshold (fst peak) in
  let* starttime :=
    match startIndices with
    | [] => Np.getitem tax 0
    | _ => let* i := Np.maxN startIndices in Np.getitem tax i
    end in
  let* stoptime :=
    match stopIndices with
    | [] => Np.getitem_last tax
    | _ => let* i := Np.minN stopIndices in Np.getitem tax i
    end in
  let eventSpikes :=
    List.filter (fun s : spike =>
                   Qle_bool starttime (fst s) && Np.Qltb (fst s) stoptime) spk in
  Ok (__init__ starttime stoptime eventSpikes).

(** [if not events or not (events[-1] == myEvent): events.append(myEvent)]. *)
Definition append_unique (events : list spikingevent) (myEvent : spikingevent)
  : list spikingevent :=
  match events with
  | [] => events ++ [myEvent]
  | e :: r =>
      if negb (__eq__ (List.last r e) myEvent) then events ++ [myEvent]
      else events
  end.

Fixpoint event_loop (tax psth threshold : list Q) (spk : list spike)
    (maxtab : list (Q * Q)) (events : list spikingevent)
  : result (list spikingevent) :=
  match maxtab with
  | [] => Ok events
  | peak :: rest =>
      let* myEvent := make_event tax psth threshold spk peak in
      event_loop tax psth threshold spk rest (append_unique events myEvent)
  end.

Definition detectevents (spk : list spike) (threshold : list Q)
  : result (list Q * list Q * list Q * list spikingevent) :=
  let* numTrials := Np.maxZ (map snd spk) in
  let* (bspk, tax) :=
    binspikes (map fst spk) None (1 # 100) None
      (PyFloat (inject_Z numTrials)) in
  let* psth := estfr np_exp tax bspk (5 # 1000) in
  let* delta := Np.getitem threshold 0 in
  let* (maxtab, _) := peakdet psth delta tax in
  let* events := event_loop tax psth threshold spk maxtab [] in
  Ok (tax, psth, bspk, events).
End DetectEvents.

End SpikeTools.

(* ================================================================== *)
(** * stimulustools.py *)
(* ================================================================== *)

Module StimulusTools.

(** An n-dimensional array: its shape and its elements in row-major order. *)
Record ndarray : Type := {
  shape : list nat;
  data : list Q
}.

Definition prod (sz : list nat) : nat := fold_right Nat.mul 1%nat sz.

(** The arrays numpy can build: as many elements as the shape says, each a
    float (a rational in lowest terms). *)
Definition wf (a : ndarray) : Prop :=
  length (data a) = prod (shape a) /\ Forall (fun x => Qred x = x) (data a).

(** [a.reshape(newshape)] for a shape without [-1]. *)
Definition reshape (a : ndarray) (newshape : list nat) : result ndarray :=
  if (prod newshape =? length (data a))%nat
  then Ok {| shape := newshape; data := data a |}
  else Raise (ValueError "total size of new array must be unchanged").

(** [a.reshape((-1, 1))]: one column. *)
Definition reshape_column (a : ndarray) : ndarray :=
  {| shape := [length (data a); 1%nat]; data := data a |}.

(** [np.ones((1, n))]. *)
Definition ones_row (n : Z) : result ndarray :=
  if (n <? 0)%Z then Raise (ValueError "negative dimensions are not allowed")
  else Ok {| shape := [1%nat; Z.to_nat n];
             data := repeat 1 (Z.to_nat n) |}.

(** [col * row] for a column of shape (N, 1) and a row of shape (1, k):
    broadcasting gives shape (N, k). *)
Definition mul_column_row (col row : ndarray) : ndarray :=
  {| shape := [length (data col); length (data row)];
     data := flat_map (fun x => map (Np.mul x) (data row)) (data col) |}.

(** [np.take(a, idx, axis=-1)]. *)
Definition take_last_axis (a : ndarray) (idx : list nat) : result ndarray :=
  let* n := Np.getitem_last (shape a) in
  let rows := prod (removelast (shape a)) in
  let* taken :=
    mapM (fun r : nat => Np.take (firstn n (skipn (r * n) (data a))) idx)
         (seq 0 rows) in
  Ok {| shape := removelast (shape a) ++ [length idx]; data := concat taken |}.

(** [np.interp(x, xp, fp)] for increasing sample points [xp]. *)
Fixpoint interp_at (xp fp : list Q) (x : Q) : Q :=
  match xp, fp with
  | x0 :: ((x1 :: _) as xr), f0 :: ((f1 :: _) as fr) =>
      if Np.Qltb x x1
      then Np.add (Np.mul (Np.div (Np.sub f1 f0) (Np.sub x1 x0)) (Np.sub x x0)) f0
      else interp_at xr fr x
  | _, f0 :: _ => f0
  | _, [] => 0
  end.

Definition interp (x xp fp : list Q) : result (list Q) :=
  match xp, fp with
  | [], _ => Raise (ValueError "array of sample points is empty")
  | x0 :: _, f0 :: _ =>
      if (length xp =? length fp)%nat
      then Ok (map (fun v => if Qle_bool v x0 then f0 else interp_at xp fp v) x)
      else Raise (ValueError "fp and xp are not of the same length")
  | _, [] => Raise (ValueError "fp and xp are not of the same length")
  end.

(** [time[::step]]. *)
Fixpoint every (k : nat) (i : nat) (l : list Q) : list Q :=
  match l with
  | [] => []
  | x :: r =>
      match i with
      | O => x :: every k (k - 1) r
      | S i' => every k i' r
      end
  end.

Definition slice_step (l : list Q) (step : Z) : result (list Q) :=
  if (step =? 0)%Z then Raise (ValueError "slice step cannot be zero")
  else if (0 <? step)%Z then Ok (every (Z.to_nat step) 0 l)
  else Ok (every (Z.to_nat (- step)) 0 (rev l)).

(** [np.squeeze] of a 1-d array: an array of one element becomes a 0-d
    array, any other 1-d array is returned as it is. *)
Inductive squeezed : Type :=
| ZeroDim (x : Q)
| OneDim (a : list Q).

Definition squeeze (a : list Q) : squeezed :=
  match a with
  | [x] => ZeroDim x
  | _ => OneDim a
  end.

(** [np.interp(x, xp, np.squeeze(time))]: a 0-d array of values is refused. *)
Definition interp_squeezed (x xp : list Q) (fp : squeezed) : result (list Q) :=
  match fp with
  | ZeroDim _ => Raise (ValueError "object of too small depth for desired array")
  | OneDim fp => interp x xp fp
  end.

Definition upsamplestim (stim : ndarray) (upfact : Z) (time : option (list Q))
  : result (ndarray * option (list Q)) :=
  let oldsz := shape stim in
  let* last := Np.getitem_last oldsz in
  let newsz := removelast oldsz ++ [Z.to_nat (upfact * Z.of_nat last)] in
  let* ones := ones_row upfact in
  let* stim_us := reshape (mul_column_row (reshape_column stim) ones) newsz in
  let* time_us :=
    match time with
    | Some time =>
        let n := inject_Z (upfact * Z.of_nat (length time)) in
        let* x := Np.arange 0 n 1 in
        let* xp := Np.arange 0 n (inject_Z upfact) in
        let* time_us := interp_squeezed x xp (squeeze time) in
        let* a := Np.getitem_last2 time_us in
        let* b := Np.getitem_last time_us in
        if Qeq_bool a b
        then (let* m := Np.mean (Np.diff time_us) in
              Ok (Some (removelast time_us ++ [Np.add b m])))
        else Ok (Some time_us)
    | None => Ok None
    end in
  Ok (stim_us, time_us).

Definition downsamplestim (stim : ndarray) (downfact : Z) (time : option (list Q))
  : result (ndarray * option (list Q)) :=
  let* last := Np.getitem_last (shape stim) in
  let* idx := Np.arangeN last downfact in
  let* stim_ds := take_last_axis stim idx in
  let* time_ds :=
    match time with
    | Some time => let* t := slice_step time downfact in Ok (Some t)
    | None => Ok None
    end in
  Ok (stim_ds, time_ds).

(** ** slicestim *)

(** Python's normalisation of a slice bound on a sequence of [len]
    elements: a negative bound counts from the end, and bounds are clipped. *)
Definition slice_bound (len : nat) (i : Z) : nat :=
  if (i <? 0)%Z then (len - Z.to_nat (- i))%nat else Nat.min (Z.to_nat i) len.

(** [l[a:b]]. *)
Definition py_slice {A : Type} (l : list A) (a b : Z) : list A :=
  firstn (slice_bound (length l) b - slice_bound (length l) a)
         (skipn (slice_bound (length l) a) l).

(** [int(history)]: truncation towards zero. *)
Definition py_int (q : Q) : Z := Z.quot (Qnum q) (Zpos (Qden q)).

(** Row [r] of an array seen as rows of [t] elements. *)
Definition row (t : nat) (a : ndarray) (r : nat) : list Q :=
  firstn t (skipn (r * t) (data a)).

(** [block.dot(tproj)] for a block of rows and a 2-d array [tproj]. *)
Definition dot (block : list (list Q)) (tproj : ndarray)
  : result (list (list Q)) :=
  match shape tproj with
  | [h; p] =>
      if forallb (fun b => (length b =? h)%nat) block
      then Ok (map (fun b =>
                 map (fun c =>
                   Np.sum (zip_with Np.mul b
                             (map (fun t => nth (t * p + c) (data tproj) 0)
                                  (seq 0 h))))
                     (seq 0 p)) block)
      else Raise (ValueError "shapes not aligned")
  | _ => Raise (ValueError "shapes not aligned")
  end.

(** The array [np.empty] allocates: its columns hold nothing one may rely on
    until they are written. *)
Definition empty_columns (ncols : nat) : list (option (list Q)) :=
  repeat None ncols.

(** [slices[:, c] = v], in place, for an array of [nrows] rows. *)
Definition set_column (nrows : nat) (slices : list (option (list Q)))
    (c : Z) (v : list Q) : result (list (option (list Q))) :=
  let ncols := Z.of_nat (length slices) in
  let c := if (c <? 0)%Z then (c + ncols)%Z else c in
  if ((c <? 0) || (ncols <=? c))%Z
  then Raise (IndexError "index out of bounds")
  else if (length v =? nrows)%nat
       then Ok (<[Z.to_nat c := Some v]> slices)
       else match v with
            | [x] => Ok (<[Z.to_nat c := Some (repeat x nrows)]> slices)
            | _ => Raise (ValueError "could not broadcast input array")
            end.

(** The body of either loop of [slicestim], for one time point [idx]. *)
Definition slicestim_step (cstim : ndarray) (t nrows_cstim : nat) (history : Z)
    (tproj : option ndarray) (nrows : nat)
    (slices : list (option (list Q))) (idx : nat)
  : result (list (option (list Q))) :=
  let block :=
    map (fun r => py_slice (row t cstim r)
                    (Z.of_nat idx - history) (Z.of_nat idx))
        (seq 0 nrows_cstim) in
  let* block :=
    match tproj with
    | None => Ok block
    | Some tproj => dot block tproj
    end in
  set_column nrows slices (Z.of_nat idx - history) (concat block).

Fixpoint slicestim_loop (cstim : ndarray) (t nrows_cstim : nat) (history : Z)
    (tproj : option ndarray) (nrows : nat)
    (slices : list (option (list Q))) (idxs : list nat)
  : result (list (option (list Q))) :=
  match idxs with
  | [] => Ok slices
  | idx :: rest =>
      let* slices :=
        slicestim_step cstim t nrows_cstim history tproj nrows slices idx in
      slicestim_loop cstim t nrows_cstim history tproj nrows slices rest
  end.

(** [slicestim].  The result is the array of slices, column by column, and
    the contents the caller's [locations] array has after the call (the
    function writes into it). *)
Definition slicestim (stim : ndarray) (history : Q)
    (locations : option (list bool)) (tproj : option ndarray)
  : result (list (option (list Q)) * option (list bool)) :=
  let* t := Np.getitem_last (shape stim) in
  if (t =? 0)%nat
  then Raise (ValueError "cannot reshape array")
  else
    let nrows_cstim := (length (data stim) / t)%nat in
    let cstim := {| shape := [nrows_cstim; t]; data := data stim |} in
    if negb (Qeq_bool history (inject_Z (py_int history)))
    then Raise (ValueError "history must be an integer")
    else
      let history := py_int history in
      let locs := match locations with
                  | Some l => l
                  | None => repeat true t
                  end in
      let p := slice_bound (length locs) history in
      let locs := repeat false (Nat.min p (length locs)) ++ skipn p locs in
      let ncols := length (List.filter (fun b : bool => b) (skipn p locs)) in
      let* width :=
        match tproj with
        | None => Ok history
        | Some tproj =>
            let* p := Np.getitem (shape tproj) 1 in Ok (Z.of_nat p)
        end in
      let nrows := (width * Z.of_nat nrows_cstim)%Z in
      if (nrows <? 0)%Z
      then Raise (ValueError "negative dimensions are not allowed")
      else
        let* slices :=
          slicestim_loop cstim t nrows_cstim history tproj (Z.to_nat nrows)
            (empty_columns ncols) (Np.where_ locs) in
        Ok (slices, match locations with
                    | Some _ => Some locs
                    | None => None
                    end).

End StimulusTools.

(* ================================================================== *)
(** * Vocabulary of the statements *)
(* ================================================================== *)

Module Props.

(** The time of the spike of trial [t] that comes first in the spike array. *)
Definition first_listed (spikes : list SpikeTools.spike) (t : Z) : option Q :=
  fst <$> List.find (fun s : SpikeTools.spike => (snd s =? t)%Z) spikes.

(** [tm] is the time of a spike of trial [t], and no spike of that trial is
    earlier. *)
Definition earliest (spikes : list SpikeTools.spike) (t : Z) (tm : Q) : Prop :=
  In (tm, t) spikes /\
  forall tm' : Q, In (tm', t) spikes -> tm <= tm'.

(** No spike is earlier than the first listed spike of its trial. *)
Definition first_listed_is_earliest (spikes : list SpikeTools.spike) : bool :=
  forallb (fun s : SpikeTools.spike =>
             match first_listed spikes (snd s) with
             | Some tm => Qle_bool tm (fst s)
             | None => true
             end) spikes.

(** The label [sort] gives to trial [t]: one more than the position of [t]
    in the array of trials ordered by first spike. *)
Definition latency_label (sortedtrials : list Z) (t : Z) : Z :=
  (Z.of_nat (Np.first_index t sortedtrials) + 1)%Z.

(** The spike array after the first [k] rounds of the loop of [sort]. *)
Definition relabel_upto (sortedtrials : list Z) (k : nat) (s : SpikeTools.spike)
  : SpikeTools.spike :=
  if (Np.first_index (snd s) sortedtrials <? k)%nat
  then (fst s, latency_label sortedtrials (snd s))
  else s.

(** [t] is a point of the time axis before the peak at which the rate is at
    most the floor [th1]. *)
Definition low_before (tax psth : list Q) (th1 peak t : Q) : Prop :=
  exists (i : nat) (r : Q),
    tax !! i = Some t /\ psth !! i = Some r /\ r <= th1 /\ t < peak.

(** The same after the peak. *)
Definition low_after (tax psth : list Q) (th1 peak t : Q) : Prop :=
  exists (i : nat) (r : Q),
    tax !! i = Some t /\ psth !! i = Some r /\ r <= th1 /\ peak < t.

(** The start time the segmentation asks for: the latest low point before the
    peak, or the first point of the axis when there is none. *)
Definition latest_low_before (tax psth : list Q) (th1 peak t : Q) : Prop :=
  (low_before tax psth th1 peak t /\
   forall t', low_before tax psth th1 peak t' -> t' <= t)
  \/
  ((forall t', ~ low_before tax psth th1 peak t') /\ tax !! 0%nat = Some t).

(** The stop time: the earliest low point after the peak, or the last point
    of the axis when there is none. *)
Definition earliest_low_after (tax psth : list Q) (th1 peak t : Q) : Prop :=
  (low_after tax psth th1 peak t /\
   forall t', low_after tax psth th1 peak t' -> t <= t')
  \/
  ((forall t', ~ low_after tax psth th1 peak t') /\
   tax !! (length tax - 1)%nat = Some t).


(** The thresholds the specification calls well formed: exactly two
    positive values. *)
Definition well_formed_threshold (threshold : list Q) : bool :=
  (length threshold =? 2)%nat && forallb (Np.Qltb 0) threshold.

(** The column [slicestim] is to write for the frames [j, ..., j + h - 1]:
    for each row of the collapsed stimulus in turn, its [h] elements from
    position [j] on. *)
Definition frames (t nrows h : nat) (stim : StimulusTools.ndarray) (j : nat)
  : list Q :=
  concat (map (fun r => firstn h (skipn j (StimulusTools.row t stim r)))
              (seq 0 nrows)).

End Props.

(* ================================================================== *)
(** * Instances of the collaborators, to run the code on examples *)
(* ================================================================== *)

Module Examples.

(** A rational stand-in for [np.exp] on non-positive arguments: 1 at 0,
    positive and decreasing as the argument decreases. *)
Definition exp_standin (u : Q) : Q := Np.div 1 (Np.sub 1 u).

(** A delta-threshold peak detector: a maximum is reported once the signal
    has fallen more than [delta] below it, a minimum once the signal has risen
    more than [delta] above it.  The theorems on [detectevents] hold for every
    peak detector; this one only serves to run the pipeline. *)
Fixpoint peakdet_scan (delta : Q) (xv : list (Q * Q)) (mx mn : option (Q * Q))
    (lookformax : bool) (maxtab mintab : list (Q * Q))
  : list (Q * Q) * list (Q * Q) :=
  match xv with
  | [] => (rev maxtab, rev mintab)
  | (x, this) :: r =>
      let mx := match mx with
                | Some (_, m) => if Np.Qltb m this then Some (x, this) else mx
                | None => Some (x, this)
                end in
      let mn := match mn with
                | Some (_, m) => if Np.Qltb this m then Some (x, this) else mn
                | None => Some (x, this)
                end in
      match lookformax, mx, mn with
      | true, Some (mp, m), _ =>
          if Np.Qltb this (m - delta)
          then peakdet_scan delta r mx (Some (x, this)) false
                 ((mp, m) :: maxtab) mintab
          else peakdet_scan delta r mx mn true maxtab mintab
      | false, _, Some (np, n) =>
          if Np.Qltb (n + delta) this
          then peakdet_scan delta r (Some (x, this)) mn true
                 maxtab ((np, n) :: mintab)
          else peakdet_scan delta r mx mn false maxtab mintab
      | _, _, _ => peakdet_scan delta r mx mn lookformax maxtab mintab
      end
  end.

Definition peakdet (v : list Q) (delta : Q) (x : list Q)
  : result (list (Q * Q) * list (Q * Q)) :=
  if negb (length v =? length x)%nat then Raise (OtherError "SystemExit")
  else if Qle_bool delta 0 then Raise (OtherError "SystemExit")
  else Ok (peakdet_scan delta (combine x v) None None true [] []).

(** Two bursts of spikes over two trials. *)
Definition two_bursts : list SpikeTools.spike :=
  [(10 # 100, 1%Z); (11 # 100, 1%Z); (12 # 100, 1%Z);
   (10 # 100, 2%Z); (105 # 1000, 2%Z);
   (50 # 100, 1%Z); (51 # 100, 1%Z); (50 # 100, 2%Z)].

End Examples.

(* ================================================================== *)
(** * Properties *)
(* ================================================================== *)

(** ** The result monad *)

Lemma bind_Ok_inv {A B : Type} (c : result A) (k : A -> result B) (b : B) :
  bind c k = Ok b -> exists a, c = Ok a /\ k a = Ok b.
Proof. destruct c as [a|e]; simpl; [eauto | discriminate]. Qed.

Lemma bind_Raise_inv {A B : Type} (c : result A) (k : A -> result B) (e : exn) :
  bind c k = Raise e -> c = Raise e \/ exists a, c = Ok a /\ k a = Raise e.
Proof. destruct c as [a|e']; simpl; [eauto | intros [= ->]; auto]. Qed.

Lemma mapM_length {A B : Type} (f : A -> result B) (l : list A) (r : list B) :
  mapM f l = Ok r -> length r = length l.
Proof.
  revert r; induction l as [|x l IH]; simpl; intros r H.
  - injection H as <-; reflexivity.
  - destruct (f x) as [y|]; simpl in H; [|discriminate].
    destruct (mapM f l) as [ys|]; simpl in H; [|discriminate].
    injection H as <-; simpl; f_equal; auto.
Qed.

Lemma mapM_Ok_map {A B : Type} (f : A -> result B) (g : A -> B) (l : list A) :
  (forall x, In x l -> f x = Ok (g x)) -> mapM f l = Ok (map g l).
Proof.
  induction l as [|x l IH]; simpl; intros H; [reflexivity|].
  rewrite (H x) by auto; simpl. rewrite IH by auto. reflexivity.
Qed.

(** ** Comparisons on floats *)

Lemma Qltb_lt (x y : Q) : Np.Qltb x y = true <-> x < y.
Proof.
  unfold Np.Qltb. rewrite negb_true_iff, <- not_true_iff_false, Qle_bool_iff.
  split; [apply Qnot_le_lt | apply Qlt_not_le].
Qed.

Lemma Qltb_ge (x y : Q) : Np.Qltb x y = false <-> y <= x.
Proof.
  unfold Np.Qltb. rewrite negb_false_iff. apply Qle_bool_iff.
Qed.

(** ** spikingevent.__eq__ *)

(** C4.  Two events compare equal exactly when their start times are equal
    and their stop times are equal; the spikes are not looked at, so two
    events built with the same start and stop and different spikes compare
    equal. *)
Theorem spikingevent_eq_start_stop :
  (forall a b : SpikeTools.spikingevent,
      SpikeTools.__eq__ a b = true <->
      SpikeTools.start a == SpikeTools.start b /\
      SpikeTools.stop a == SpikeTools.stop b) /\
  (forall (t0 t1 : Q) (spikes1 spikes2 : list SpikeTools.spike),
      SpikeTools.__eq__ (SpikeTools.__init__ t0 t1 spikes1)
                        (SpikeTools.__init__ t0 t1 spikes2) = true).
Proof.
  split.
  - intros a b. unfold SpikeTools.__eq__.
    rewrite andb_true_iff, !Qeq_bool_iff. reflexivity.
  - intros t0 t1 s1 s2. unfold SpikeTools.__eq__, SpikeTools.__init__; simpl.
    rewrite andb_true_iff, !Qeq_bool_iff. split; reflexivity.
Qed.

(** ** spikingevent.eventStats *)

(** C3.  [eventStats] never reaches the mean and the standard deviation of
    the trial counts: the method it calls, [eventCounts], is not an attribute
    of a [spikingevent], and the call raises [AttributeError] for every
    event. *)
Theorem eventStats_raises_AttributeError :
  forall (np_sqrt : Q -> Q) (self : SpikeTools.spikingevent),
    SpikeTools.eventStats np_sqrt self = Raise (AttributeError "eventCounts").
Proof. intros np_sqrt self. reflexivity. Qed.

(** ** binspikes *)

(** C9.  With no spike time, no [tmax] and no time axis, [binspikes] fails at
    the maximum of the empty array and returns nothing. *)
Theorem binspikes_empty_raises :
  forall (binsize : Q) (numTrials : SpikeTools.pynum),
    Np.max [] =
      Raise (ValueError
        "zero-size array to reduction operation maximum which has no identity")
    /\
    SpikeTools.binspikes [] None binsize None numTrials =
      Raise (ValueError
        "zero-size array to reduction operation maximum which has no identity").
Proof. intros binsize numTrials. split; reflexivity. Qed.

(** ** Histograms and trialCounts *)

Lemma arangeZ_step (lo hi : Z) :
  (lo < hi)%Z -> Np.arangeZ lo hi = lo :: Np.arangeZ (lo + 1) hi.
Proof.
  intros H. unfold Np.arangeZ.
  replace (Z.to_nat (hi - lo)) with (S (Z.to_nat (hi - (lo + 1)))) by lia.
  simpl. f_equal; [lia|].
  rewrite <- seq_shift, map_map. apply map_ext; intros i; lia.
Qed.

Lemma arangeZ_nil (lo hi : Z) : (hi <= lo)%Z -> Np.arangeZ lo hi = [].
Proof.
  intros H. unfold Np.arangeZ. replace (Z.to_nat (hi - lo)) with 0%nat by lia.
  reflexivity.
Qed.

Lemma arangeZ_length (lo hi : Z) : length (Np.arangeZ lo hi) = Z.to_nat (hi - lo).
Proof. unfold Np.arangeZ. rewrite length_map, length_seq. reflexivity. Qed.

Lemma arangeZ_lookup (lo hi : Z) (i : nat) :
  (i < Z.to_nat (hi - lo))%nat ->
  Np.arangeZ lo hi !! i = Some (lo + Z.of_nat i)%Z.
Proof.
  intros H. unfold Np.arangeZ. rewrite list_lookup_fmap, lookup_seq_lt by lia.
  reflexivity.
Qed.

Lemma arangeZ_bounds (lo hi e : Z) :
  In e (Np.arangeZ lo hi) -> (lo <= e < hi)%Z.
Proof.
  unfold Np.arangeZ. rewrite in_map_iff. intros (i & <- & Hi).
  apply in_seq in Hi. lia.
Qed.

Lemma arangeZ_nondecreasing (lo hi : Z) :
  Np.nondecreasing Z.leb (Np.arangeZ lo hi) = true.
Proof.
  remember (Z.to_nat (hi - lo)) as n eqn:Hn. revert lo Hn.
  induction n as [|n IH]; intros lo Hn.
  - rewrite arangeZ_nil by lia. reflexivity.
  - rewrite arangeZ_step by lia.
    destruct n as [|n].
    + rewrite (arangeZ_nil (lo + 1)) by lia. reflexivity.
    + specialize (IH (lo + 1)%Z ltac:(lia)).
      rewrite arangeZ_step in IH |- * by lia.
      simpl in IH |- *. rewrite IH, andb_true_r. apply Z.leb_le. lia.
Qed.

Lemma bin_counts_length {A : Type} (leb : A -> A -> bool) (a edges : list A) :
  length (Np.bin_counts leb a edges) = Nat.pred (length edges).
Proof.
  induction edges as [|lo [|hi rest] IH]; simpl in *; auto.
Qed.

Lemma bin_counts_lookup {A : Type} (leb : A -> A -> bool) (a edges : list A)
    (i : nat) (lo hi : A) :
  edges !! i = Some lo -> edges !! S i = Some hi ->
  Np.bin_counts leb a edges !! i =
    Some (Z.of_nat (length (List.filter
            (Np.in_bin leb lo hi (S (S i) =? length edges)%nat) a))).
Proof.
  revert i. induction edges as [|e0 [|e1 rest] IH]; intros i Hlo Hhi.
  - discriminate.
  - destruct i; discriminate.
  - destruct i as [|i].
    + simpl in Hlo, Hhi. injection Hlo as ->. injection Hhi as ->.
      simpl. destruct rest; reflexivity.
    + change ((e0 :: e1 :: rest) !! S i) with ((e1 :: rest) !! i) in Hlo.
      change ((e0 :: e1 :: rest) !! S (S i)) with ((e1 :: rest) !! S i) in Hhi.
      specialize (IH i Hlo Hhi).
      change (Np.bin_counts leb a (e0 :: e1 :: rest) !! S i)
        with (Np.bin_counts leb a (e1 :: rest) !! i).
      rewrite IH. reflexivity.
Qed.

Lemma filter_filter_length {A : Type} (p q : A -> bool) (a : list A) :
  (forall x, p x = true -> q x = true) ->
  length (List.filter p (List.filter q a)) = length (List.filter p a).
Proof.
  intros H. induction a as [|x a IH]; simpl; [reflexivity|].
  destruct (q x) eqn:Hq; simpl.
  - destruct (p x); simpl; auto.
  - destruct (p x) eqn:Hp; [apply H in Hp; congruence | auto].
Qed.

(** A value above every edge falls in no bin. *)
Lemma bin_counts_drop_above (a edges : list Z) (m : Z) :
  Forall (fun e => (e < m)%Z) edges ->
  Np.bin_counts Z.leb (List.filter (fun x => negb (x =? m)%Z) a) edges =
  Np.bin_counts Z.leb a edges.
Proof.
  induction edges as [|lo [|hi rest] IH]; intros HF; try reflexivity.
  inversion HF as [|? ? Hlo HF']; subst.
  change (Np.bin_counts Z.leb ?x (lo :: hi :: rest))
    with (Z.of_nat (length (List.filter
            (Np.in_bin Z.leb lo hi match rest with [] => true | _ => false end) x))
          :: Np.bin_counts Z.leb x (hi :: rest)).
  rewrite IH by assumption. f_equal. f_equal.
  apply filter_filter_length. intros x Hx.
  inversion HF' as [|? ? Hhi _]; subst.
  unfold Np.in_bin in Hx. apply andb_true_iff in Hx as [_ Hx].
  apply negb_true_iff, Z.eqb_neq. intros ->.
  destruct rest; [apply Z.leb_le in Hx | apply negb_true_iff, Z.leb_gt in Hx]; lia.
Qed.

(** C6.  [trialCounts] histograms the trial indices over the unit-spaced
    edges [min, min+1, ..., max-1].  When min < max there are max - min - 1
    bins, bin [i] counts the trial indices from [min + i] to [min + i + 1]
    (the upper edge included only in the last bin), and the spikes of the
    trial of maximum index are counted in no bin: removing them from the
    data leaves every count unchanged. *)
Theorem trialCounts_omits_max_trial :
  forall (self : SpikeTools.spikingevent) (trials : list Z) (lo hi : Z),
    trials = map snd (SpikeTools.spikes self) ->
    Np.minZ trials = Ok lo ->
    Np.maxZ trials = Ok hi ->
    (lo < hi)%Z ->
    exists counts : list Z,
      SpikeTools.trialCounts self = Ok counts /\
      counts = Np.bin_counts Z.leb trials (Np.arangeZ lo hi) /\
      Z.of_nat (length (Np.arangeZ lo hi)) = (hi - lo)%Z /\
      Z.of_nat (length counts) = (hi - lo - 1)%Z /\
      (forall i : nat,
          (Z.of_nat i < hi - lo - 1)%Z ->
          counts !! i =
            Some (Z.of_nat (length (List.filter
                    (Np.in_bin Z.leb (lo + Z.of_nat i)%Z (lo + Z.of_nat i + 1)%Z
                               (Z.of_nat i + 2 =? hi - lo)%Z) trials)))) /\
      Np.histogram Z.leb (List.filter (fun t => negb (t =? hi)%Z) trials)
                   (Np.arangeZ lo hi) = Ok counts.
Proof.
  intros self trials lo hi Htr Hlo Hhi Hlt.
  exists (Np.bin_counts Z.leb trials (Np.arangeZ lo hi)).
  assert (Hhist : forall a, Np.histogram Z.leb a (Np.arangeZ lo hi) =
                            Ok (Np.bin_counts Z.leb a (Np.arangeZ lo hi))).
  { intros a. unfold Np.histogram. rewrite arangeZ_nondecreasing. simpl.
    rewrite arangeZ_step by lia. reflexivity. }
  repeat split.
  - unfold SpikeTools.trialCounts. rewrite <- Htr, Hlo, Hhi. simpl.
    apply Hhist.
  - rewrite arangeZ_length. lia.
  - rewrite bin_counts_length, arangeZ_length. lia.
  - intros i Hi.
    rewrite (bin_counts_lookup Z.leb trials _ i (lo + Z.of_nat i)%Z
               (lo + Z.of_nat i + 1)%Z).
    + rewrite arangeZ_length. do 4 f_equal.
      destruct (Nat.eqb_spec (S (S i)) (Z.to_nat (hi - lo)));
        destruct (Z.eqb_spec (Z.of_nat i + 2) (hi - lo)); try reflexivity; lia.
    + apply arangeZ_lookup. lia.
    + rewrite arangeZ_lookup by lia. f_equal. lia.
  - rewrite Hhist. f_equal. apply bin_counts_drop_above.
    apply List.Forall_forall. intros e He. apply arangeZ_bounds in He. lia.
Qed.

Lemma trialCounts_omits_max_trial_witness :
  exists counts : list Z,
    SpikeTools.trialCounts
      (SpikeTools.__init__ 0 1 [(1 # 10, 1%Z); (2 # 10, 3%Z); (3 # 10, 4%Z)])
      = Ok counts /\ Z.of_nat (length counts) = 2%Z.
Proof.
  destruct (trialCounts_omits_max_trial
              (SpikeTools.__init__ 0 1
                 [(1 # 10, 1%Z); (2 # 10, 3%Z); (3 # 10, 4%Z)])
              [1; 3; 4]%Z 1 4)
    as (counts & H1 & _ & _ & H2 & _).
  - reflexivity.
  - reflexivity.
  - reflexivity.
  - lia.
  - exists counts. split; [exact H1 | exact H2].
Defined.

(** ** np.unique with the positions of the first occurrences *)

Lemma insert_uniq_In (x y : Z) (l : list Z) :
  In x (Np.insert_uniq y l) <-> x = y \/ In x l.
Proof.
  induction l as [|z l IH]; simpl.
  - intuition.
  - destruct (Z.ltb_spec y z); [simpl; intuition|].
    destruct (Z.eqb_spec y z); [subst; simpl; intuition|].
    simpl. rewrite IH. intuition.
Qed.

Lemma unique_In (x : Z) (ar : list Z) : In x (Np.unique ar) <-> In x ar.
Proof.
  induction ar as [|y ar IH]; simpl; [reflexivity|].
  rewrite insert_uniq_In, IH. intuition.
Qed.

Lemma insert_uniq_sorted (y : Z) (l : list Z) :
  StronglySorted Z.lt l -> StronglySorted Z.lt (Np.insert_uniq y l).
Proof.
  induction l as [|z l IH]; intros Hs; simpl.
  - repeat constructor.
  - inversion Hs as [|? ? Hs' Hz]; subst.
    destruct (Z.ltb_spec y z).
    + constructor; [assumption|]. constructor; [assumption|].
      eapply List.Forall_impl; [|exact Hz]. simpl; intros; lia.
    + destruct (Z.eqb_spec y z); [assumption|].
      constructor; [auto|].
      apply List.Forall_forall. intros x Hx. apply insert_uniq_In in Hx as [->|Hx].
      * lia.
      * rewrite List.Forall_forall in Hz. auto.
Qed.

Lemma unique_sorted (ar : list Z) : StronglySorted Z.lt (Np.unique ar).
Proof.
  induction ar as [|y ar IH]; simpl; [constructor|].
  apply insert_uniq_sorted, IH.
Qed.

Lemma unique_NoDup (ar : list Z) : List.NoDup (Np.unique ar).
Proof.
  pose proof (unique_sorted ar) as H.
  induction H as [|x l Hs IH Hx]; constructor; [|assumption].
  intros Hin. rewrite List.Forall_forall in Hx. specialize (Hx x Hin). lia.
Qed.

(** The row at the first position of trial [t] is the first row of trial
    [t]. *)
Lemma first_index_find (spikes : list SpikeTools.spike) (t : Z) :
  In t (map snd spikes) ->
  exists s : SpikeTools.spike,
    nth_error spikes (Np.first_index t (map snd spikes)) = Some s /\
    List.find (fun s : SpikeTools.spike => (snd s =? t)%Z) spikes = Some s.
Proof.
  induction spikes as [|s0 spikes IH]; simpl; [tauto|].
  intros H. destruct (Z.eqb_spec (snd s0) t) as [E|E].
  - exists s0. split; reflexivity.
  - destruct H as [H|H]; [contradiction|]. apply IH, H.
Qed.

Lemma take_first_rows (spikes : list SpikeTools.spike) (u : list Z) :
  List.Forall (fun t => In t (map snd spikes)) u ->
  exists rows : list SpikeTools.spike,
    Np.take spikes (map (fun x => Np.first_index x (map snd spikes)) u) = Ok rows /\
    List.Forall2
      (fun t s => List.find (fun s : SpikeTools.spike => (snd s =? t)%Z) spikes
                  = Some s) u rows.
Proof.
  induction u as [|t u IH]; intros HF.
  - exists []. split; [reflexivity | constructor].
  - inversion HF as [|? ? Ht HF']; subst.
    destruct (IH HF') as (rows & Hrows & H2).
    destruct (first_index_find spikes t Ht) as (s & Hs & Hfind).
    exists (s :: rows). split.
    + unfold Np.take in *. simpl. unfold Np.getitem at 1. rewrite Hs. simpl.
      rewrite Hrows. reflexivity.
    + constructor; assumption.
Qed.

Lemma unique_present (spikes : list SpikeTools.spike) :
  List.Forall (fun t => In t (map snd spikes)) (Np.unique (map snd spikes)).
Proof. apply List.Forall_forall. intros t Ht. apply unique_In, Ht. Qed.

Lemma find_trial_Some (spikes : list SpikeTools.spike) (t : Z) (s : SpikeTools.spike) :
  List.find (fun s : SpikeTools.spike => (snd s =? t)%Z) spikes = Some s ->
  In s spikes /\ snd s = t.
Proof.
  intros H. apply find_some in H as [H1 H2]. split; [assumption|].
  apply Z.eqb_eq, H2.
Qed.

(** ** spikingevent.ttfs *)

(** C5, as the code has it.  [ttfs] returns one time for each distinct trial
    index present in the event, in ascending order of the trial index and none
    for a trial without spikes: the time of the spike of that trial that is
    listed first in the spike array.  When no spike is earlier than the first
    listed spike of its trial, that time is the earliest spike time of the
    trial. *)
Theorem ttfs_first_listed :
  forall self : SpikeTools.spikingevent,
    exists times : list Q,
      SpikeTools.ttfs self = Ok times /\
      List.Forall2
        (fun t tm => Props.first_listed (SpikeTools.spikes self) t = Some tm)
        (Np.unique (map snd (SpikeTools.spikes self))) times /\
      List.NoDup (Np.unique (map snd (SpikeTools.spikes self))) /\
      (forall t : Z,
          In t (Np.unique (map snd (SpikeTools.spikes self))) <->
          exists tm : Q, In (tm, t) (SpikeTools.spikes self)) /\
      (Props.first_listed_is_earliest (SpikeTools.spikes self) = true ->
       List.Forall2 (Props.earliest (SpikeTools.spikes self))
         (Np.unique (map snd (SpikeTools.spikes self))) times).
Proof.
  intros [t0 t1 spikes]; simpl.
  destruct (take_first_rows spikes _ (unique_present spikes))
    as (rows & Hrows & H2).
  exists (map fst rows).
  assert (HF : List.Forall2
                 (fun t tm => Props.first_listed spikes t = Some tm)
                 (Np.unique (map snd spikes)) (map fst rows)).
  { clear Hrows. induction H2 as [|t s u rows Hs H2 IH]; simpl; constructor.
    - unfold Props.first_listed. rewrite Hs. reflexivity.
    - exact IH. }
  split; [|split; [exact HF|split; [apply unique_NoDup|split]]].
  - unfold SpikeTools.ttfs, Np.unique_index; simpl. rewrite Hrows. reflexivity.
  - intros t. rewrite unique_In, in_map_iff. split.
    + intros ([tm t'] & <- & Hin). exists tm. exact Hin.
    + intros (tm & Hin). exists (tm, t). split; [reflexivity | exact Hin].
  - intros Hord. unfold Props.first_listed_is_earliest in Hord.
    rewrite forallb_forall in Hord.
    clear Hrows H2. induction HF as [|t tm u times Ht HF IH]; constructor;
      [|exact IH].
    unfold Props.first_listed in Ht.
    destruct (List.find _ spikes) as [s|] eqn:Hfind; [|discriminate].
    injection Ht as <-.
    destruct (find_trial_Some _ _ _ Hfind) as [Hin Hsnd].
    split.
    + destruct s as [a b]; simpl in *; subst b. exact Hin.
    + intros tm' Hin'. specialize (Hord (tm', t) Hin'). simpl in Hord.
      unfold Props.first_listed in Hord. rewrite Hfind in Hord. simpl in Hord.
      apply Qle_bool_iff, Hord.
Qed.

Lemma ttfs_first_listed_witness :
  exists times : list Q,
    SpikeTools.ttfs
      (SpikeTools.__init__ 0 1 [(1 # 5, 2%Z); (1 # 10, 1%Z); (3 # 10, 2%Z)])
      = Ok times /\
    List.Forall2
      (Props.earliest [(1 # 5, 2%Z); (1 # 10, 1%Z); (3 # 10, 2%Z)])
      [1%Z; 2%Z] times.
Proof.
  destruct (ttfs_first_listed
              (SpikeTools.__init__ 0 1
                 [(1 # 5, 2%Z); (1 # 10, 1%Z); (3 # 10, 2%Z)]))
    as (times & H1 & _ & _ & _ & H2).
  exists times. split; [exact H1|]. apply H2. reflexivity.
Defined.

(** The statement of C5 fails when a trial's spikes are not listed in time
    order: here trial 1 has spikes at 1/2 and then at 1/5, and [ttfs]
    returns 1/2. *)
Lemma ttfs_not_earliest_counterexample :
  SpikeTools.ttfs (SpikeTools.__init__ 0 1 [(1 # 2, 1%Z); (1 # 5, 1%Z)])
    = Ok [1 # 2] /\
  ~ (forall self : SpikeTools.spikingevent,
        SpikeTools.spikes self <> [] ->
        exists times : list Q,
          SpikeTools.ttfs self = Ok times /\
          List.Forall2 (Props.earliest (SpikeTools.spikes self))
            (Np.unique (map snd (SpikeTools.spikes self))) times).
Proof.
  split; [reflexivity|].
  intros H.
  destruct (H (SpikeTools.__init__ 0 1 [(1 # 2, 1%Z); (1 # 5, 1%Z)]))
    as (times & Ht & HF); [discriminate|].
  injection Ht as <-. simpl in HF.
  inversion HF as [|? ? ? ? [_ Hmin] _]; subst.
  specialize (Hmin (1 # 5)). simpl in Hmin.
  assert (Hle : 1 # 2 <= 1 # 5) by (apply Hmin; right; left; reflexivity).
  revert Hle. unfold Qle; simpl. lia.
Qed.

(** ** Indexing with integer arrays *)

Lemma nth_error_lookup' {A : Type} (l : list A) (i : nat) : nth_error l i = l !! i.
Proof. revert i; induction l as [|x l IH]; intros [|i]; simpl; auto. Qed.

Lemma getitem_Ok {A : Type} (a : list A) (i : nat) (x : A) :
  Np.getitem a i = Ok x <-> a !! i = Some x.
Proof.
  unfold Np.getitem. rewrite nth_error_lookup'.
  destruct (a !! i); split; intros H; try discriminate; congruence.
Qed.

Lemma take_Forall2 {A : Type} (a : list A) (idx : list nat) (b : list A) :
  Np.take a idx = Ok b <-> List.Forall2 (fun i x => a !! i = Some x) idx b.
Proof.
  unfold Np.take. revert b. induction idx as [|i idx IH]; intros b; simpl.
  - split; [intros [= <-]; constructor | intros H; inversion H; reflexivity].
  - split.
    + intros H. apply bind_Ok_inv in H as (x & Hx & H).
      apply bind_Ok_inv in H as (ys & Hys & H). injection H as <-.
      constructor; [apply getitem_Ok, Hx | apply IH, Hys].
    + intros H. inversion H as [|? x ? ys Hx Hys]; subst.
      apply getitem_Ok in Hx. apply IH in Hys. rewrite Hx; simpl.
      rewrite Hys; reflexivity.
Qed.

Lemma take_total {A : Type} (a : list A) (idx : list nat) :
  List.Forall (fun i => (i < length a)%nat) idx -> exists b, Np.take a idx = Ok b.
Proof.
  induction idx as [|i idx IH]; intros HF.
  - exists []; reflexivity.
  - inversion HF as [|? ? Hi HF']; subst. destruct (IH HF') as (b & Hb).
    destruct (lookup_lt_is_Some_2 a i Hi) as (x & Hx).
    exists (x :: b). apply take_Forall2. constructor; [exact Hx|].
    apply take_Forall2, Hb.
Qed.

Lemma take_lookup {A : Type} (a : list A) (idx : list nat) (b : list A) :
  Np.take a idx = Ok b ->
  length b = length idx /\
  forall i p, idx !! i = Some p -> exists x, b !! i = Some x /\ a !! p = Some x.
Proof.
  intros H. apply take_Forall2 in H. induction H as [|p x idx b Hx H IH].
  - split; [reflexivity | intros i p Hi; discriminate].
  - destruct IH as [IH1 IH2]. split; [simpl; congruence|].
    intros [|i] q Hq; simpl in *.
    + injection Hq as <-. eauto.
    + apply IH2, Hq.
Qed.

Lemma Permutation_seq_bound (ps : list nat) (n : nat) :
  Permutation ps (seq 0 n) -> List.Forall (fun p => (p < n)%nat) ps.
Proof.
  intros H. apply List.Forall_forall. intros p Hp.
  eapply Permutation_in in Hp; [|exact H]. apply in_seq in Hp. lia.
Qed.

Lemma map_nth_seq {A : Type} (u : list A) (d : A) :
  map (fun p => nth p u d) (seq 0 (length u)) = u.
Proof.
  induction u as [|x u IH]; simpl; [reflexivity|].
  f_equal. rewrite <- seq_shift, map_map. exact IH.
Qed.

(** Reading [u] along a permutation of its positions permutes [u]. *)
Lemma lookup_along_Permutation {A : Type} (u v : list A) (ps : list nat) :
  Permutation ps (seq 0 (length u)) ->
  length v = length ps ->
  (forall i p, ps !! i = Some p -> v !! i = u !! p) ->
  Permutation v u.
Proof.
  intros Hperm Hlen Hv.
  destruct u as [|d u'] eqn:Eu.
  - simpl in Hperm. apply Permutation_sym, Permutation_nil in Hperm. subst ps.
    destruct v; [constructor | discriminate].
  - rewrite <- Eu in *.
    assert (Hveq : v = map (fun p => nth p u d) ps).
    { apply list_eq. intros i. rewrite list_lookup_fmap.
      destruct (ps !! i) as [p|] eqn:Hp; simpl.
      - rewrite (Hv i p Hp).
        assert (Hlt : (p < length u)%nat).
        { pose proof (Permutation_seq_bound _ _ Hperm) as HF.
          rewrite List.Forall_forall in HF. apply HF.
          apply list_elem_of_In. eapply list_elem_of_lookup_2, Hp. }
        apply lookup_lt_is_Some_2 in Hlt as (x & Hx). rewrite Hx.
        f_equal. symmetry. apply nth_lookup_Some with (d := d) in Hx. exact Hx.
      - apply lookup_ge_None. apply lookup_ge_None in Hp. lia. }
    rewrite Hveq.
    transitivity (map (fun p => nth p u d) (seq 0 (length u))).
    + apply Permutation_map, Hperm.
    + rewrite map_nth_seq. reflexivity.
Qed.

(** In a list without repetition the first position of an element is its
    position. *)
Lemma first_index_lookup (l : list Z) (k : nat) (t : Z) :
  List.NoDup l -> l !! k = Some t -> Np.first_index t l = k.
Proof.
  intros Hnd. revert k. induction Hnd as [|x l Hx Hnd IH]; intros k Hk.
  - discriminate.
  - destruct k as [|k]; simpl in *.
    + injection Hk as ->. rewrite Z.eqb_refl. reflexivity.
    + destruct (Z.eqb_spec x t) as [->|Hne].
      * exfalso. apply Hx. apply list_elem_of_In. eapply list_elem_of_lookup_2, Hk.
      * f_equal. apply IH, Hk.
Qed.

Lemma first_index_In (l : list Z) (t : Z) :
  In t l -> l !! Np.first_index t l = Some t.
Proof.
  induction l as [|x l IH]; simpl; [tauto|].
  intros H. destruct (Z.eqb_spec x t) as [->|Hne]; [reflexivity|].
  destruct H as [H|H]; [contradiction|]. simpl. apply IH, H.
Qed.

Lemma first_index_bound (l : list Z) (t : Z) :
  (Np.first_index t l <= length l)%nat.
Proof. induction l as [|x l IH]; simpl; [lia|]. destruct (x =? t)%Z; lia. Qed.

Lemma first_index_lt (l : list Z) (t : Z) :
  (Np.first_index t l < length l)%nat -> l !! Np.first_index t l = Some t.
Proof.
  induction l as [|x l IH]; simpl; [lia|].
  destruct (Z.eqb_spec x t) as [->|Hne]; [reflexivity|].
  intros H. simpl. apply IH. lia.
Qed.

Lemma zip_with_map_map {A B C D : Type} (f : B -> C -> D) (g : A -> B)
    (k : A -> C) (l : list A) :
  zip_with f (map g l) (map k l) = map (fun x => f (g x) (k x)) l.
Proof. induction l as [|x l IH]; simpl; [reflexivity | f_equal; exact IH]. Qed.

(** ** spikingevent.sort *)

Lemma relabel_step (st : list Z) (k : nat) (t : Z) (s : SpikeTools.spike) :
  List.NoDup st -> st !! k = Some t ->
  (if (snd s =? t)%Z
   then (fst (Props.relabel_upto st k s), (Z.of_nat k + 1)%Z)
   else Props.relabel_upto st k s)
  = Props.relabel_upto st (S k) s.
Proof.
  intros Hnd Hk. unfold Props.relabel_upto, Props.latency_label.
  destruct (Z.eqb_spec (snd s) t) as [E|E].
  - rewrite E, (first_index_lookup st k t Hnd Hk).
    rewrite Nat.ltb_irrefl. destruct (Nat.ltb_spec k (S k)); [|lia].
    simpl. reflexivity.
  - assert (Hne : Np.first_index (snd s) st <> k).
    { intros Hk'. apply E.
      assert (Hlt : (Np.first_index (snd s) st < length st)%nat).
      { rewrite Hk'. eapply lookup_lt_Some, Hk. }
      apply first_index_lt in Hlt. rewrite Hk' in Hlt. congruence. }
    destruct (Nat.ltb_spec (Np.first_index (snd s) st) k);
      destruct (Nat.ltb_spec (Np.first_index (snd s) st) (S k));
      try reflexivity; lia.
Qed.

(** The loop writes only to the copy: after the rounds [k, ..., k+m-1] the
    store differs from the initial one at [sortedspikes] alone. *)
Lemma sort_loop_relabels (m k : nat) (h0 : SpikeTools.heap)
    (self sortedspikes : SpikeTools.loc) (spikes : list SpikeTools.spike)
    (st : list Z) :
  sortedspikes <> self ->
  h0 !! self = Some spikes ->
  List.NoDup st ->
  (k + m <= length st)%nat ->
  SpikeTools.sort_loop self sortedspikes st
    (<[sortedspikes := map (Props.relabel_upto st k) spikes]> h0) (seq k m)
  = Ok (<[sortedspikes := map (Props.relabel_upto st (k + m)) spikes]> h0).
Proof.
  intros Hne Hself Hnd. revert k.
  induction m as [|m IH]; intros k Hlen; simpl.
  - rewrite Nat.add_0_r. reflexivity.
  - assert (Hk : (k < length st)%nat) by lia.
    destruct (lookup_lt_is_Some_2 st k Hk) as (t & Ht).
    unfold SpikeTools.sort_step, SpikeTools.load at 1.
    rewrite lookup_insert_ne, Hself by exact Hne. simpl.
    apply getitem_Ok in Ht as Hget. rewrite Hget. simpl.
    unfold SpikeTools.setitem_mask_trial, SpikeTools.load.
    rewrite lookup_insert_eq. simpl.
    rewrite !length_map, Nat.eqb_refl. simpl.
    rewrite insert_insert_eq, zip_with_map_map.
    rewrite (map_ext _ (Props.relabel_upto st (S k)))
      by (intros s; apply relabel_step; assumption).
    rewrite IH by lia.
    replace (S k + m)%nat with (k + S m)%nat by lia. reflexivity.
Qed.

Lemma relabel_upto_0 (st : list Z) (spikes : list SpikeTools.spike) :
  map (Props.relabel_upto st 0) spikes = spikes.
Proof.
  rewrite <- (map_id spikes) at 2. apply map_ext. intros s.
  unfold Props.relabel_upto. reflexivity.
Qed.

Lemma relabel_upto_all (st : list Z) (spikes : list SpikeTools.spike) :
  (forall s, In s spikes -> In (snd s) st) ->
  map (Props.relabel_upto st (length st)) spikes =
  map (fun s => (fst s, Props.latency_label st (snd s))) spikes.
Proof.
  intros H. apply map_ext_in. intros s Hs. unfold Props.relabel_upto.
  destruct (Nat.ltb_spec (Np.first_index (snd s) st) (length st)) as [|Hge];
    [reflexivity|].
  exfalso. pose proof (first_index_In st (snd s) (H s Hs)) as Hl.
  apply lookup_lt_Some in Hl. lia.
Qed.

(** What [sort] computes before it copies the array: the trials in the order
    of their first listed spikes. *)
Lemma sort_sortedtrials (argsort : list Q -> list nat)
    (spikes : list SpikeTools.spike) :
  Np.argsort_spec argsort ->
  exists (firsts : list SpikeTools.spike) (rows : list nat)
         (sorted : list SpikeTools.spike),
    Np.take spikes
      (map (fun x => Np.first_index x (map snd spikes))
           (Np.unique (map snd spikes))) = Ok firsts /\
    Np.take (map (fun x => Np.first_index x (map snd spikes))
                 (Np.unique (map snd spikes)))
            (argsort (map fst firsts)) = Ok rows /\
    Np.take spikes rows = Ok sorted /\
    Permutation (map snd sorted) (Np.unique (map snd spikes)) /\
    (forall i j t t' tm tm',
        (i < j)%nat ->
        map snd sorted !! i = Some t -> map snd sorted !! j = Some t' ->
        Props.first_listed spikes t = Some tm ->
        Props.first_listed spikes t' = Some tm' ->
        tm <= tm').
Proof.
  intros Hspec.
  set (u := Np.unique (map snd spikes)).
  set (tI := map (fun x => Np.first_index x (map snd spikes)) u).
  destruct (take_first_rows spikes u (unique_present spikes))
    as (firsts & Hfirsts & F2).
  fold tI in Hfirsts.
  destruct (Hspec (map fst firsts)) as [Hperm Hsorted].
  set (sI := argsort (map fst firsts)) in *.
  destruct (take_lookup _ _ _ Hfirsts) as [Hlenf Hlookf].
  assert (HlentI : length tI = length u) by (unfold tI; apply length_map).
  assert (Hlenfu : length firsts = length u) by congruence.
  rewrite length_map, Hlenfu in Hperm.
  pose proof (Permutation_seq_bound _ _ Hperm) as HsI.
  destruct (take_total tI sI) as (rows & Hrows).
  { rewrite HlentI. exact HsI. }
  destruct (take_lookup _ _ _ Hrows) as [Hlenr Hlookr].
  destruct (take_total spikes rows) as (sorted & Hsorted').
  { apply List.Forall_forall. intros r Hr.
    apply list_elem_of_In, list_elem_of_lookup in Hr as (i & Hi).
    assert (Hi' : is_Some (sI !! i)).
    { apply lookup_lt_is_Some. rewrite <- Hlenr. eapply lookup_lt_Some, Hi. }
    destruct Hi' as (p & Hp).
    destruct (Hlookr i p Hp) as (r' & Hr' & HtI).
    assert (r' = r) by congruence; subst r'.
    destruct (Hlookf p r HtI) as (x & _ & Hx).
    eapply lookup_lt_Some, Hx. }
  destruct (take_lookup _ _ _ Hsorted') as [Hlens Hlooks].
  (* the row of [sorted] at [i] is the row of [firsts] at [sI[i]] *)
  assert (Hrow : forall i p, sI !! i = Some p ->
            exists s t, sorted !! i = Some s /\ firsts !! p = Some s /\
                        u !! p = Some t /\ snd s = t /\
                        Props.first_listed spikes t = Some (fst s)).
  { intros i p Hp.
    destruct (Hlookr i p Hp) as (r & Hr & HtI).
    destruct (Hlooks i r Hr) as (s & Hs & Hsp).
    destruct (Hlookf p r HtI) as (x & Hx & Hxsp).
    assert (x = s) by congruence; subst x.
    destruct (Forall2_lookup_r _ _ _ _ _ F2 Hx) as (t & Ht & Hfind).
    exists s, t. repeat split; try assumption.
    - apply find_trial_Some in Hfind. apply Hfind.
    - unfold Props.first_listed. rewrite Hfind. reflexivity. }
  exists firsts, rows, sorted.
  split; [exact Hfirsts|]. split; [exact Hrows|]. split; [exact Hsorted'|].
  assert (HlensI : length sI = length u).
  { apply Permutation_length in Hperm. rewrite length_seq in Hperm. exact Hperm. }
  split.
  - apply lookup_along_Permutation with (ps := sI).
    + exact Hperm.
    + rewrite length_map. congruence.
    + intros i p Hp. destruct (Hrow i p Hp) as (s & t & Hs & _ & Hu & Hst & _).
      rewrite list_lookup_fmap, Hs, Hu. simpl. congruence.
  - intros i j t t' tm tm' Hij Hi Hj Htm Htm'.
    rewrite list_lookup_fmap in Hi, Hj.
    destruct (sorted !! i) as [s|] eqn:Hsi; [|discriminate].
    destruct (sorted !! j) as [s'|] eqn:Hsj; [|discriminate].
    simpl in Hi, Hj. injection Hi as Hi. injection Hj as Hj.
    assert (Hpi : is_Some (sI !! i)).
    { apply lookup_lt_is_Some. rewrite <- Hlenr, <- Hlens.
      eapply lookup_lt_Some, Hsi. }
    assert (Hpj : is_Some (sI !! j)).
    { apply lookup_lt_is_Some. rewrite <- Hlenr, <- Hlens.
      eapply lookup_lt_Some, Hsj. }
    destruct Hpi as (p & Hp). destruct Hpj as (q & Hq).
    destruct (Hrow i p Hp) as (x & tx & Hx & Hfx & _ & Hxt & Hflx).
    destruct (Hrow j q Hq) as (y & ty & Hy & Hfy & _ & Hyt & Hfly).
    assert (Ex : x = s) by congruence. assert (Ey : y = s') by congruence.
    assert (Etx : tx = t) by congruence. assert (Ety : ty = t') by congruence.
    assert (Etm : tm = fst x) by congruence.
    assert (Etm' : tm' = fst y) by congruence.
    apply (Hsorted i j tm tm' Hij).
    + rewrite Hp. simpl. rewrite list_lookup_fmap, Hfx. simpl. congruence.
    + rewrite Hq. simpl. rewrite list_lookup_fmap, Hfy. simpl. congruence.
Qed.

Lemma first_listed_earliest (spikes : list SpikeTools.spike) (t : Z) (tm : Q) :
  Props.first_listed_is_earliest spikes = true ->
  Props.earliest spikes t tm ->
  exists f : Q, Props.first_listed spikes t = Some f /\ f == tm.
Proof.
  intros Hfl [Hin Hmin]. unfold Props.first_listed_is_earliest in Hfl.
  rewrite forallb_forall in Hfl. specialize (Hfl (tm, t) Hin). simpl in Hfl.
  unfold Props.first_listed in Hfl |- *.
  destruct (List.find (fun s : SpikeTools.spike => (snd s =? t)%Z) spikes)
    as [[f t']|] eqn:Hfind.
  - destruct (find_trial_Some _ _ _ Hfind) as [Hf Ht]. simpl in Ht. subst t'.
    simpl in Hfl |- *. exists f. split; [reflexivity|].
    apply Qle_bool_iff in Hfl. apply Qle_antisym; [exact Hfl | apply Hmin, Hf].
  - exfalso. pose proof (find_none _ _ Hfind (tm, t) Hin) as Hn. simpl in Hn.
    rewrite Z.eqb_refl in Hn. discriminate.
Qed.

(** C7, as the code has it.  [sort] returns a new array and leaves every
    array of the store, the event's own spikes among them, as it was.  The
    new array has the spike times of the event unchanged, and each trial
    index replaced by a label: the labels are 1, 2, ..., one for each
    distinct trial, given in the order of the times of the first listed
    spikes of the trials (what [ttfs] returns), so that a trial whose first
    listed spike is earlier gets a smaller label.  When no spike is earlier
    than the first listed spike of its trial, this is the order of the
    trials' earliest spikes. *)
Theorem sort_relabels_by_latency :
  forall (argsort : list Q -> list nat) (h : SpikeTools.heap)
         (self : SpikeTools.loc) (spikes : list SpikeTools.spike),
    Np.argsort_spec argsort ->
    h !! self = Some spikes ->
    exists (sortedspikes : SpikeTools.loc) (sortedtrials : list Z)
           (h' : SpikeTools.heap) (out : list SpikeTools.spike),
      SpikeTools.sort argsort self h = Ok (sortedspikes, h') /\
      h !! sortedspikes = None /\
      h' = <[sortedspikes := out]> h /\
      h' !! self = Some spikes /\
      map fst out = map fst spikes /\
      map snd out = map (Props.latency_label sortedtrials) (map snd spikes) /\
      Permutation sortedtrials (Np.unique (map snd spikes)) /\
      (forall t : Z,
          In t (map snd spikes) ->
          (1 <= Props.latency_label sortedtrials t
             <= Z.of_nat (length (Np.unique (map snd spikes))))%Z /\
          sortedtrials !! Z.to_nat (Props.latency_label sortedtrials t - 1)
            = Some t) /\
      (forall (t t' : Z) (tm tm' : Q),
          In t (map snd spikes) -> In t' (map snd spikes) ->
          Props.first_listed spikes t = Some tm ->
          Props.first_listed spikes t' = Some tm' ->
          tm < tm' ->
          (Props.latency_label sortedtrials t
             < Props.latency_label sortedtrials t')%Z) /\
      (Props.first_listed_is_earliest spikes = true ->
       forall (t t' : Z) (tm tm' : Q),
         Props.earliest spikes t tm ->
         Props.earliest spikes t' tm' ->
         tm < tm' ->
         (Props.latency_label sortedtrials t
            < Props.latency_label sortedtrials t')%Z).
Proof.
  intros argsort h self spikes Hspec Hself.
  destruct (sort_sortedtrials argsort spikes Hspec)
    as (firsts & rows & sorted & Hfirsts & Hrows & Hsorted & Hperm & Hord).
  set (st := map snd sorted) in *.
  set (l' := fresh (dom h)).
  assert (Hfresh : h !! l' = None).
  { apply not_elem_of_dom. apply is_fresh. }
  assert (Hne : l' <> self) by congruence.
  assert (Hnd : List.NoDup st).
  { eapply Permutation_NoDup; [apply Permutation_sym, Hperm | apply unique_NoDup]. }
  assert (Hin : forall t, In t (map snd spikes) -> In t st).
  { intros t Ht. eapply Permutation_in; [apply Permutation_sym, Hperm|].
    apply unique_In, Ht. }
  assert (Hlab : forall (t t' : Z) (tm tm' : Q),
             In t (map snd spikes) -> In t' (map snd spikes) ->
             Props.first_listed spikes t = Some tm ->
             Props.first_listed spikes t' = Some tm' ->
             tm < tm' ->
             (Props.latency_label st t < Props.latency_label st t')%Z).
  { intros t t' tm tm' Ht Ht' Htm Htm' Hlt.
    pose proof (first_index_In st t (Hin t Ht)) as Hl.
    pose proof (first_index_In st t' (Hin t' Ht')) as Hl'.
    unfold Props.latency_label.
    destruct (Nat.lt_trichotomy (Np.first_index t st) (Np.first_index t' st))
      as [H|[H|H]]; [lia| |].
    + exfalso. rewrite H in Hl. assert (t = t') by congruence. subst t'.
      assert (tm = tm') by congruence. subst tm'.
      revert Hlt. apply Qlt_irrefl.
    + exfalso. pose proof (Hord _ _ _ _ _ _ H Hl' Hl Htm' Htm) as Hle.
      apply (Qlt_not_le _ _ Hlt Hle). }
  exists l', st,
    (<[l' := map (fun s => (fst s, Props.latency_label st (snd s))) spikes]> h),
    (map (fun s => (fst s, Props.latency_label st (snd s))) spikes).
  split; [|split; [exact Hfresh|split; [reflexivity|split; [|split; [|split;
    [|split; [exact Hperm|split; [|split; [exact Hlab|]]]]]]]]].
  - unfold SpikeTools.sort, SpikeTools.load. rewrite Hself. simpl.
    unfold Np.unique_index. rewrite Hfirsts. simpl. rewrite Hrows. simpl.
    rewrite Hsorted. simpl.
    unfold SpikeTools.copy, SpikeTools.load. rewrite Hself. simpl.
    fold l' st.
    rewrite <- (relabel_upto_0 st spikes) at 1.
    rewrite (sort_loop_relabels (length st) 0 h self l' spikes st)
      by (try assumption; simpl; lia).
    simpl. rewrite relabel_upto_all; [reflexivity|].
    intros s Hs. apply Hin, in_map, Hs.
  - rewrite lookup_insert_ne by exact Hne. exact Hself.
  - rewrite map_map. reflexivity.
  - rewrite !map_map. reflexivity.
  - intros t Ht. pose proof (first_index_In st t (Hin t Ht)) as Hl.
    pose proof (lookup_lt_Some _ _ _ Hl) as Hlt.
    apply Permutation_length in Hperm. unfold Props.latency_label.
    split; [lia|].
    replace (Z.to_nat (Z.of_nat (Np.first_index t st) + 1 - 1))
      with (Np.first_index t st) by lia.
    exact Hl.
  - intros Hfl t t' tm tm' He He' Hlt.
    destruct (first_listed_earliest spikes t tm Hfl He) as (f & Hf & Hfe).
    destruct (first_listed_earliest spikes t' tm' Hfl He') as (f' & Hf' & Hfe').
    apply (Hlab t t' f f').
    + destruct He as [He _]. apply (in_map snd) in He. exact He.
    + destruct He' as [He' _]. apply (in_map snd) in He'. exact He'.
    + exact Hf.
    + exact Hf'.
    + rewrite Hfe, Hfe'. exact Hlt.
Qed.

(** ** A stable argsort meets the specification of [np.argsort] *)

Lemma insert_pos_Permutation (a : list Q) (p : nat) (l : list nat) :
  Permutation (Np.insert_pos a p l) (p :: l).
Proof.
  induction l as [|q l IH]; simpl; [reflexivity|].
  destruct (Qle_bool (nth p a 0) (nth q a 0)); [reflexivity|].
  rewrite IH. apply perm_swap.
Qed.

Lemma insert_pos_sorted (a : list Q) (p : nat) (l : list nat) :
  StronglySorted (fun p q => nth p a 0 <= nth q a 0) l ->
  StronglySorted (fun p q => nth p a 0 <= nth q a 0) (Np.insert_pos a p l).
Proof.
  induction l as [|q l IH]; intros Hs; simpl.
  - repeat constructor.
  - inversion Hs as [|? ? Hs' Hq]; subst.
    destruct (Qle_bool (nth p a 0) (nth q a 0)) eqn:E.
    + apply Qle_bool_iff in E. constructor; [assumption|].
      constructor; [assumption|].
      eapply List.Forall_impl; [|exact Hq]. simpl. intros r Hr.
      eapply Qle_trans; eassumption.
    + assert (Hqp : nth q a 0 <= nth p a 0).
      { apply Qlt_le_weak, Qltb_lt. unfold Np.Qltb. rewrite E. reflexivity. }
      constructor; [auto|].
      apply List.Forall_forall. intros r Hr.
      eapply Permutation_in in Hr; [|apply insert_pos_Permutation].
      destruct Hr as [<-|Hr]; [assumption|].
      rewrite List.Forall_forall in Hq. auto.
Qed.

Lemma StronglySorted_lookup {A : Type} (R : A -> A -> Prop) (l : list A)
    (i j : nat) (x y : A) :
  StronglySorted R l -> (i < j)%nat -> l !! i = Some x -> l !! j = Some y ->
  R x y.
Proof.
  intros Hs. revert i j. induction Hs as [|z l Hs IH Hz]; intros i j Hij Hi Hj.
  - discriminate.
  - destruct j as [|j]; [lia|]. simpl in Hj. destruct i as [|i]; simpl in Hi.
    + injection Hi as <-. rewrite List.Forall_forall in Hz. apply Hz.
      apply list_elem_of_In. eapply list_elem_of_lookup_2, Hj.
    + apply (IH i j); [lia|assumption|assumption].
Qed.

Lemma argsort_stable_spec : Np.argsort_spec Np.argsort_stable.
Proof.
  intros a. unfold Np.argsort_stable.
  assert (H : forall ps,
             Permutation (fold_right (Np.insert_pos a) [] ps) ps /\
             StronglySorted (fun p q => nth p a 0 <= nth q a 0)
               (fold_right (Np.insert_pos a) [] ps)).
  { induction ps as [|p ps [IH1 IH2]]; simpl.
    - split; constructor.
    - split.
      + rewrite insert_pos_Permutation. constructor. exact IH1.
      + apply insert_pos_sorted, IH2. }
  destruct (H (seq 0 (length a))) as [H1 H2]. split; [exact H1|].
  intros i j x y Hij Hx Hy.
  destruct (fold_right (Np.insert_pos a) [] (seq 0 (length a)) !! i)
    as [p|] eqn:Hp; [|discriminate].
  destruct (fold_right (Np.insert_pos a) [] (seq 0 (length a)) !! j)
    as [q|] eqn:Hq; [|discriminate].
  simpl in Hx, Hy.
  pose proof (StronglySorted_lookup _ _ i j p q H2 Hij Hp Hq) as Hle.
  simpl in Hle.
  rewrite (nth_lookup_Some _ _ 0 _ Hx), (nth_lookup_Some _ _ 0 _ Hy) in Hle.
  exact Hle.
Qed.

Lemma sort_relabels_by_latency_witness :
  exists (sortedspikes : SpikeTools.loc) (h' : SpikeTools.heap),
    SpikeTools.sort Np.argsort_stable 1%positive
      (<[1%positive := [(1 # 2, 7%Z); (1 # 5, 3%Z); (3 # 5, 7%Z)]]> ∅)
      = Ok (sortedspikes, h') /\
    h' !! 1%positive = Some [(1 # 2, 7%Z); (1 # 5, 3%Z); (3 # 5, 7%Z)].
Proof.
  destruct (sort_relabels_by_latency Np.argsort_stable
              (<[1%positive := [(1 # 2, 7%Z); (1 # 5, 3%Z); (3 # 5, 7%Z)]]> ∅)
              1%positive [(1 # 2, 7%Z); (1 # 5, 3%Z); (3 # 5, 7%Z)]
              argsort_stable_spec)
    as (l & st & h' & out & H1 & _ & _ & H2 & _).
  - reflexivity.
  - exists l, h'. split; [exact H1 | exact H2].
Defined.

(** The statement of C7 fails when a trial's spikes are not listed in time
    order: here trial 1 has spikes at 1/2 and then at 1/10, trial 2 one
    spike at 3/10.  Trial 1 has the earliest spike, and [sort] gives it the
    label 2, since its first listed spike (1/2) is later than that of
    trial 2. *)
Lemma sort_not_by_earliest_counterexample :
  (exists (sortedspikes : SpikeTools.loc) (h' : SpikeTools.heap),
      SpikeTools.sort Np.argsort_stable 1%positive
        (<[1%positive := [(1 # 2, 1%Z); (1 # 10, 1%Z); (3 # 10, 2%Z)]]> ∅)
        = Ok (sortedspikes, h') /\
      h' !! sortedspikes
        = Some [(1 # 2, 2%Z); (1 # 10, 2%Z); (3 # 10, 1%Z)]) /\
  ~ (forall (argsort : list Q -> list nat) (h : SpikeTools.heap)
            (self : SpikeTools.loc) (spikes : list SpikeTools.spike),
        Np.argsort_spec argsort ->
        h !! self = Some spikes ->
        spikes <> [] ->
        exists (sortedspikes : SpikeTools.loc) (h' : SpikeTools.heap)
               (out : list SpikeTools.spike),
          SpikeTools.sort argsort self h = Ok (sortedspikes, h') /\
          h' !! sortedspikes = Some out /\
          h' !! self = Some spikes /\
          map fst out = map fst spikes /\
          forall (i j : nat) (s s' o o' : SpikeTools.spike) (tm tm' : Q),
            spikes !! i = Some s -> spikes !! j = Some s' ->
            out !! i = Some o -> out !! j = Some o' ->
            Props.earliest spikes (snd s) tm ->
            Props.earliest spikes (snd s') tm' ->
            tm < tm' ->
            (snd o < snd o')%Z).
Proof.
  split.
  - eexists _, _. split; vm_compute; reflexivity.
  - intros H.
    destruct (H Np.argsort_stable
                (<[1%positive := [(1 # 2, 1%Z); (1 # 10, 1%Z); (3 # 10, 2%Z)]]> ∅)
                1%positive [(1 # 2, 1%Z); (1 # 10, 1%Z); (3 # 10, 2%Z)]
                argsort_stable_spec)
      as (l & h' & out & Hsort & Hout & _ & _ & Hord).
    + reflexivity.
    + discriminate.
    + vm_compute in Hsort. injection Hsort as <- <-.
      vm_compute in Hout. injection Hout as <-.
      assert (Hlt : (2 < 1)%Z).
      { apply (Hord 0%nat 2%nat (1 # 2, 1%Z) (3 # 10, 2%Z)
                 (1 # 2, 2%Z) (3 # 10, 1%Z) (1 # 10) (3 # 10));
          try reflexivity.
        - split; [right; left; reflexivity|].
          intros tm' [E|[E|[E|[]]]]; injection E as <-;
            unfold Qle; simpl; lia.
        - split; [right; right; left; reflexivity|].
          intros tm' [E|[E|[E|[]]]]; try (injection E as <-);
            try discriminate; unfold Qle; simpl; lia. }
      lia.
Qed.

(** ** np.where, and the reductions over positions *)

Lemma where_from_In (k : nat) (mask : list bool) (j : nat) :
  In j (Np.where_from k mask) <->
  exists i, j = (k + i)%nat /\ mask !! i = Some true.
Proof.
  revert k. induction mask as [|b mask IH]; intros k; simpl.
  - split; [tauto | intros (i & _ & H); discriminate].
  - assert (Hrec : In j (Np.where_from (S k) mask) <->
                   exists i, j = (k + S i)%nat /\ mask !! i = Some true).
    { rewrite IH. split; intros (i & -> & H); exists i; split; auto; lia. }
    destruct b; simpl; rewrite Hrec; split.
    + intros [<-|(i & -> & H)]; [exists 0%nat; split; [lia|reflexivity]|].
      exists (S i). split; [reflexivity | exact H].
    + intros ([|i] & -> & H); [left; lia | right; exists i; auto].
    + intros (i & -> & H). exists (S i). split; [reflexivity | exact H].
    + intros ([|i] & -> & H); [discriminate | exists i; auto].
Qed.

Lemma where_In (mask : list bool) (j : nat) :
  In j (Np.where_ mask) <-> mask !! j = Some true.
Proof.
  unfold Np.where_. rewrite where_from_In. split.
  - intros (i & -> & H). exact H.
  - intros H. exists j. auto.
Qed.

Lemma fold_left_max_spec (l : list nat) (x : nat) :
  In (fold_left Nat.max l x) (x :: l) /\
  forall y, In y (x :: l) -> (y <= fold_left Nat.max l x)%nat.
Proof.
  revert x. induction l as [|z l IH]; intros x; simpl.
  - split; [auto | intros y [<-|[]]; lia].
  - destruct (IH (Nat.max x z)) as [H1 H2]. split.
    + destruct H1 as [H1|H1]; [|simpl; tauto].
      destruct (Nat.max_spec x z) as [[_ E]|[_ E]]; rewrite E in *; simpl; tauto.
    + intros y [<-|[<-|Hy]].
      * specialize (H2 (Nat.max x z) (or_introl eq_refl)). lia.
      * specialize (H2 (Nat.max x z) (or_introl eq_refl)). lia.
      * apply H2. right. exact Hy.
Qed.

Lemma fold_left_min_spec (l : list nat) (x : nat) :
  In (fold_left Nat.min l x) (x :: l) /\
  forall y, In y (x :: l) -> (fold_left Nat.min l x <= y)%nat.
Proof.
  revert x. induction l as [|z l IH]; intros x; simpl.
  - split; [auto | intros y [<-|[]]; lia].
  - destruct (IH (Nat.min x z)) as [H1 H2]. split.
    + destruct H1 as [H1|H1]; [|simpl; tauto].
      destruct (Nat.min_spec x z) as [[_ E]|[_ E]]; rewrite E in *; simpl; tauto.
    + intros y [<-|[<-|Hy]].
      * specialize (H2 (Nat.min x z) (or_introl eq_refl)). lia.
      * specialize (H2 (Nat.min x z) (or_introl eq_refl)). lia.
      * apply H2. right. exact Hy.
Qed.

Lemma maxN_spec (l : list nat) :
  l <> [] ->
  exists m, Np.maxN l = Ok m /\ In m l /\ forall y, In y l -> (y <= m)%nat.
Proof.
  destruct l as [|x l]; [congruence|]. intros _.
  exists (fold_left Nat.max l x). split; [reflexivity|].
  apply fold_left_max_spec.
Qed.

Lemma minN_spec (l : list nat) :
  l <> [] ->
  exists m, Np.minN l = Ok m /\ In m l /\ forall y, In y l -> (m <= y)%nat.
Proof.
  destruct l as [|x l]; [congruence|]. intros _.
  exists (fold_left Nat.min l x). split; [reflexivity|].
  apply fold_left_min_spec.
Qed.

Lemma last_cons_default {A : Type} (l : list A) (y x : A) :
  List.last (y :: l) x = List.last l y.
Proof.
  revert y x. induction l as [|z l IH]; intros y x; [reflexivity|].
  change (List.last (y :: z :: l) x) with (List.last (z :: l) x).
  rewrite (IH z x), (IH z y). reflexivity.
Qed.

Lemma lookup_last_default {A : Type} (l : list A) (x : A) :
  (x :: l) !! length l = Some (List.last l x).
Proof.
  revert x. induction l as [|y l IH]; intros x; [reflexivity|].
  rewrite last_cons_default. exact (IH y).
Qed.

(** ** The boundaries of an event *)

Lemma boundary_indices_spec (cmp : Q -> Q -> bool) (tax psth threshold : list Q)
    (th1 peak : Q) :
  length psth = length tax ->
  threshold !! 1%nat = Some th1 ->
  exists idx : list nat,
    SpikeTools.boundary_indices cmp tax psth threshold peak = Ok idx /\
    forall i, In i idx <->
              exists t r, tax !! i = Some t /\ psth !! i = Some r /\
                          r <= th1 /\ cmp t peak = true.
Proof.
  intros Hlen Hth.
  unfold SpikeTools.boundary_indices.
  apply getitem_Ok in Hth. rewrite Hth. simpl.
  unfold Np.broadcast2. rewrite !length_map, Hlen, Nat.eqb_refl. simpl.
  eexists. split; [reflexivity|].
  intros i. rewrite where_In, lookup_zip_with, !list_lookup_fmap.
  destruct (psth !! i) as [r|] eqn:Hr; destruct (tax !! i) as [t|] eqn:Ht; simpl.
  - split.
    + intros [= H]. apply andb_true_iff in H as [H1 H2].
      exists t, r. repeat split; auto. apply Qle_bool_iff, H1.
    + intros (t' & r' & [= <-] & [= <-] & H1 & H2).
      apply Qle_bool_iff in H1. rewrite H1, H2. reflexivity.
  - split; [discriminate | intros (? & ? & ? & _); discriminate].
  - split; [discriminate | intros (? & ? & _ & ? & _); discriminate].
  - split; [discriminate | intros (? & ? & ? & _); discriminate].
Qed.

Lemma sorted_lookup_le (tax : list Q) (i j : nat) (t t' : Q) :
  StronglySorted Qle tax -> (i <= j)%nat ->
  tax !! i = Some t -> tax !! j = Some t' -> t <= t'.
Proof.
  intros Hs Hij Hi Hj. destruct (Nat.eq_dec i j) as [->|Hne].
  - assert (t = t') by congruence. subst. apply Qle_refl.
  - eapply (StronglySorted_lookup Qle tax i j); eauto. lia.
Qed.

(** C1.  On a time axis in ascending order, with one rate per axis point, the
    event built for a peak starts at the latest axis point before the peak
    time at which the rate is at most [threshold[1]], or at the first axis
    point if there is none, and stops at the earliest axis point after the
    peak time at which the rate is at most [threshold[1]], or at the last axis
    point if there is none. *)
Theorem make_event_start_stop :
  forall (tax psth threshold : list Q) (th1 : Q)
         (spk : list SpikeTools.spike) (peak : Q * Q),
    StronglySorted Qle tax ->
    length psth = length tax ->
    tax <> [] ->
    threshold !! 1%nat = Some th1 ->
    exists ev : SpikeTools.spikingevent,
      SpikeTools.make_event tax psth threshold spk peak = Ok ev /\
      Props.latest_low_before tax psth th1 (fst peak) (SpikeTools.start ev) /\
      Props.earliest_low_after tax psth th1 (fst peak) (SpikeTools.stop ev).
Proof.
  intros tax psth threshold th1 spk [pk pv] Hsorted Hlen Hne Hth. simpl.
  destruct (boundary_indices_spec Np.Qltb tax psth threshold th1 pk Hlen Hth)
    as (startIndices & Hstart & Hsi).
  destruct (boundary_indices_spec (fun t p => Np.Qltb p t) tax psth threshold
              th1 pk Hlen Hth) as (stopIndices & Hstop & Hti).
  assert (Hlb : forall t, Props.low_before tax psth th1 pk t <->
                          exists i, In i startIndices /\ tax !! i = Some t).
  { intros t. split.
    - intros (i & r & Ht & Hr & Hle & Hlt). exists i. split; [|exact Ht].
      apply Hsi. exists t, r. repeat split; auto. apply Qltb_lt, Hlt.
    - intros (i & Hi & Ht). apply Hsi in Hi as (t' & r & Ht' & Hr & Hle & Hc).
      assert (t' = t) by congruence. subst t'.
      exists i, r. repeat split; auto. apply Qltb_lt, Hc. }
  assert (Hla : forall t, Props.low_after tax psth th1 pk t <->
                          exists i, In i stopIndices /\ tax !! i = Some t).
  { intros t. split.
    - intros (i & r & Ht & Hr & Hle & Hlt). exists i. split; [|exact Ht].
      apply Hti. exists t, r. repeat split; auto. apply Qltb_lt, Hlt.
    - intros (i & Hi & Ht). apply Hti in Hi as (t' & r & Ht' & Hr & Hle & Hc).
      assert (t' = t) by congruence. subst t'.
      exists i, r. repeat split; auto. apply Qltb_lt, Hc. }
  assert (Hst : exists starttime,
             match startIndices with
             | [] => Np.getitem tax 0
             | _ => let* i := Np.maxN startIndices in Np.getitem tax i
             end = Ok starttime /\
             Props.latest_low_before tax psth th1 pk starttime).
  { destruct startIndices as [|i0 rest] eqn:E.
    - destruct tax as [|t0 tax']; [congruence|].
      exists t0. split; [reflexivity|]. right. split; [|reflexivity].
      intros t' H. apply Hlb in H as (i & [] & _).
    - destruct (maxN_spec (i0 :: rest)) as (m & Hm & Hin & Hmax);
        [discriminate|].
      pose proof Hin as Hin'. apply Hsi in Hin' as (t & r & Ht & _).
      exists t. split.
      + rewrite Hm. simpl. apply getitem_Ok, Ht.
      + left. split; [apply Hlb; eauto|].
        intros t' H. apply Hlb in H as (i & Hi & Ht').
        apply (sorted_lookup_le tax i m); auto. }
  assert (Hsp : exists stoptime,
             match stopIndices with
             | [] => Np.getitem_last tax
             | _ => let* i := Np.minN stopIndices in Np.getitem tax i
             end = Ok stoptime /\
             Props.earliest_low_after tax psth th1 pk stoptime).
  { destruct stopIndices as [|i0 rest] eqn:E.
    - destruct tax as [|t0 tax'] eqn:Etax; [congruence|].
      exists (List.last tax' t0). split; [reflexivity|]. right. split.
      + intros t' H. apply Hla in H as (i & [] & _).
      + replace (length (t0 :: tax') - 1)%nat with (length tax')
          by (simpl; lia).
        apply lookup_last_default.
    - destruct (minN_spec (i0 :: rest)) as (m & Hm & Hin & Hmin);
        [discriminate|].
      pose proof Hin as Hin'. apply Hti in Hin' as (t & r & Ht & _).
      exists t. split.
      + rewrite Hm. simpl. apply getitem_Ok, Ht.
      + left. split; [apply Hla; eauto|].
        intros t' H. apply Hla in H as (i & Hi & Ht').
        apply (sorted_lookup_le tax m i); auto. }
  destruct Hst as (starttime & Hst1 & Hst2).
  destruct Hsp as (stoptime & Hsp1 & Hsp2).
  eexists. split.
  - unfold SpikeTools.make_event. simpl. rewrite Hstart. simpl.
    rewrite Hstop. simpl. rewrite Hst1. simpl. rewrite Hsp1. simpl.
    reflexivity.
  - simpl. split; assumption.
Qed.

Lemma make_event_start_stop_witness :
  exists ev : SpikeTools.spikingevent,
    SpikeTools.make_event [0; 1; 2; 3; 4] [0; 5; 9; 5; 0] [3; 1]
      [(2, 1%Z)] (2, 9) = Ok ev /\
    Props.latest_low_before [0; 1; 2; 3; 4] [0; 5; 9; 5; 0] 1 2
      (SpikeTools.start ev) /\
    Props.earliest_low_after [0; 1; 2; 3; 4] [0; 5; 9; 5; 0] 1 2
      (SpikeTools.stop ev).
Proof.
  apply (make_event_start_stop [0; 1; 2; 3; 4] [0; 5; 9; 5; 0] [3; 1] 1
           [(2, 1%Z)] (2, 9)).
  - repeat constructor; unfold Qle; simpl; lia.
  - reflexivity.
  - discriminate.
  - reflexivity.
Defined.

(** ** The loop of detectevents *)







(** ** detectevents and its threshold *)

Lemma make_event_threshold_extra (tax psth : list Q) (d f : Q) (rest : list Q)
    (spk : list SpikeTools.spike) (peak : Q * Q) :
  SpikeTools.make_event tax psth (d :: f :: rest) spk peak =
  SpikeTools.make_event tax psth [d; f] spk peak.
Proof. reflexivity. Qed.

Lemma event_loop_threshold_extra (tax psth : list Q) (d f : Q) (rest : list Q)
    (spk : list SpikeTools.spike) (maxtab : list (Q * Q))
    (events : list SpikeTools.spikingevent) :
  SpikeTools.event_loop tax psth (d :: f :: rest) spk maxtab events =
  SpikeTools.event_loop tax psth [d; f] spk maxtab events.
Proof.
  revert events. induction maxtab as [|peak maxtab IH]; intros events;
    [reflexivity|].
  simpl. rewrite make_event_threshold_extra.
  destruct (SpikeTools.make_event tax psth [d; f] spk peak); simpl; auto.
Qed.

Lemma make_event_threshold_short (tax psth : list Q) (threshold : list Q)
    (spk : list SpikeTools.spike) (peak : Q * Q) :
  (length threshold <= 1)%nat ->
  SpikeTools.make_event tax psth threshold spk peak =
  Raise (IndexError "index out of bounds").
Proof.
  intros H. destruct threshold as [|d [|f rest]]; [reflexivity|reflexivity|].
  simpl in H. lia.
Qed.

(** C8, as the code has it.  [detectevents] does not validate its threshold.
    The maximum trial index, the binning and the rate estimation run first,
    and a failure of one of them is raised whatever the threshold is.
    [threshold[0]] is read next, for the peak detection, and [threshold[1]]
    only inside the loop over the peaks: a threshold without values raises
    [IndexError] once the rate is estimated; a threshold with one value
    raises [IndexError] at the first peak, and returns no event when there is
    no peak; values after the second are ignored. *)
Theorem detectevents_threshold_not_validated :
  forall (np_exp : Q -> Q)
         (peakdet : list Q -> Q -> list Q ->
                    result (list (Q * Q) * list (Q * Q)))
         (spk : list SpikeTools.spike) (threshold : list Q),
    (forall e, Np.maxZ (map snd spk) = Raise e ->
               SpikeTools.detectevents np_exp peakdet spk threshold = Raise e) /\
    (forall numTrials e,
        Np.maxZ (map snd spk) = Ok numTrials ->
        SpikeTools.binspikes (map fst spk) None (1 # 100) None
          (SpikeTools.PyFloat (inject_Z numTrials)) = Raise e ->
        SpikeTools.detectevents np_exp peakdet spk threshold = Raise e) /\
    (forall numTrials bspk tax e,
        Np.maxZ (map snd spk) = Ok numTrials ->
        SpikeTools.binspikes (map fst spk) None (1 # 100) None
          (SpikeTools.PyFloat (inject_Z numTrials)) = Ok (bspk, tax) ->
        SpikeTools.estfr np_exp tax bspk (5 # 1000) = Raise e ->
        SpikeTools.detectevents np_exp peakdet spk threshold = Raise e) /\
    (forall numTrials bspk tax psth,
        Np.maxZ (map snd spk) = Ok numTrials ->
        SpikeTools.binspikes (map fst spk) None (1 # 100) None
          (SpikeTools.PyFloat (inject_Z numTrials)) = Ok (bspk, tax) ->
        SpikeTools.estfr np_exp tax bspk (5 # 1000) = Ok psth ->
        (threshold = [] ->
         SpikeTools.detectevents np_exp peakdet spk threshold =
           Raise (IndexError "index out of bounds")) /\
        (forall delta maxtab mintab,
            threshold = [delta] ->
            peakdet psth delta tax = Ok (maxtab, mintab) ->
            SpikeTools.detectevents np_exp peakdet spk threshold =
              match maxtab with
              | [] => Ok (tax, psth, bspk, [])
              | _ :: _ => Raise (IndexError "index out of bounds")
              end)) /\
    (forall d f rest,
        threshold = d :: f :: rest ->
        SpikeTools.detectevents np_exp peakdet spk threshold =
        SpikeTools.detectevents np_exp peakdet spk [d; f]).
Proof.
  intros np_exp peakdet spk threshold. unfold SpikeTools.detectevents.
  split; [|split; [|split; [|split]]].
  - intros e H. rewrite H. reflexivity.
  - intros n e Hn Hb. rewrite Hn. simpl. rewrite Hb. reflexivity.
  - intros n bspk tax e Hn Hb He. rewrite Hn. simpl. rewrite Hb. simpl.
    rewrite He. reflexivity.
  - intros n bspk tax psth Hn Hb He. rewrite Hn. simpl. rewrite Hb. simpl.
    rewrite He. simpl. split.
    + intros ->. reflexivity.
    + intros delta maxtab mintab -> Hp. simpl. rewrite Hp. simpl.
      destruct maxtab as [|peak maxtab]; [reflexivity|].
      cbn [SpikeTools.event_loop].
      rewrite make_event_threshold_short by (simpl; lia). reflexivity.
  - intros d f rest ->.
    destruct (Np.maxZ (map snd spk)) as [n|]; [simpl|reflexivity].
    destruct (SpikeTools.binspikes _ _ _ _ _) as [[bspk tax]|];
      [simpl|reflexivity].
    destruct (SpikeTools.estfr np_exp tax bspk (5 # 1000)) as [psth|];
      [simpl|reflexivity].
    destruct (peakdet psth d tax) as [[maxtab mintab]|]; [simpl|reflexivity].
    rewrite event_loop_threshold_extra. reflexivity.
Qed.

Lemma detectevents_threshold_not_validated_witness :
  SpikeTools.detectevents Examples.exp_standin Examples.peakdet
    Examples.two_bursts [] = Raise (IndexError "index out of bounds").
Proof.
  destruct (detectevents_threshold_not_validated Examples.exp_standin
              Examples.peakdet Examples.two_bursts [])
    as (_ & _ & _ & H & _).
  eapply H.
  - vm_compute. reflexivity.
  - vm_compute. reflexivity.
  - vm_compute. reflexivity.
  - reflexivity.
Defined.

(** The statement of C8 fails: with a threshold of no value and no spike the
    call fails in the pipeline, at the maximum of the empty array of trial
    indices; a threshold of three values is accepted; and no malformed
    threshold of these raises [ConfigurationError]. *)
Lemma detectevents_no_ConfigurationError_counterexample :
  SpikeTools.detectevents Examples.exp_standin Examples.peakdet [] [] =
    Raise (ValueError
      "zero-size array to reduction operation maximum which has no identity")
  /\
  SpikeTools.detectevents Examples.exp_standin Examples.peakdet
    Examples.two_bursts [3 # 10; 1 # 20; 7] =
  SpikeTools.detectevents Examples.exp_standin Examples.peakdet
    Examples.two_bursts [3 # 10; 1 # 20]
  /\
  ~ (forall (np_exp : Q -> Q)
            (peakdet : list Q -> Q -> list Q ->
                       result (list (Q * Q) * list (Q * Q)))
            (spk : list SpikeTools.spike) (threshold : list Q),
        Props.well_formed_threshold threshold = false ->
        SpikeTools.detectevents np_exp peakdet spk threshold =
          Raise ConfigurationError).
Proof.
  split; [reflexivity|]. split; [reflexivity|].
  intros H.
  specialize (H Examples.exp_standin Examples.peakdet [] [] eq_refl).
  discriminate H.
Qed.

(** ** Upsampling and downsampling a stimulus *)

Lemma mul_one_float (x : Q) : Qred x = x -> Np.mul x 1 = x.
Proof.
  intros H. unfold Np.mul.
  replace (x * 1) with x; [exact H|].
  destruct x as [n d]. unfold Qmult. simpl. f_equal; lia.
Qed.

Lemma prod_snoc (sz : list nat) (n : nat) :
  StimulusTools.prod (sz ++ [n]) = (StimulusTools.prod sz * n)%nat.
Proof.
  unfold StimulusTools.prod. induction sz as [|m sz IH]; simpl; [lia|].
  rewrite IH. lia.
Qed.

Lemma getitem_last_snoc {A : Type} (l : list A) (x : A) :
  Np.getitem_last (l ++ [x]) = Ok x.
Proof.
  destruct l as [|y l]; [reflexivity|]. simpl. rewrite last_last. reflexivity.
Qed.

Lemma firstn_add {A : Type} (a b : nat) (l : list A) :
  firstn (a + b) l = firstn a l ++ firstn b (skipn a l).
Proof.
  revert l. induction a as [|a IH]; intros l; [reflexivity|].
  destruct l as [|x l]; simpl.
  - rewrite firstn_nil. reflexivity.
  - rewrite IH. reflexivity.
Qed.

(** Cutting an array into [rows] rows of [n] elements and joining the rows
    gives back its first [rows * n] elements. *)
Lemma concat_rows {A : Type} (n rows : nat) (l : list A) :
  concat (map (fun r => firstn n (skipn (r * n) l)) (seq 0 rows)) =
  firstn (rows * n) l.
Proof.
  induction rows as [|rows IH]; [reflexivity|].
  rewrite seq_S, map_app, concat_app, IH. simpl.
  rewrite app_nil_r, (Nat.add_comm n), firstn_add. reflexivity.
Qed.

(** Every element repeated [k] times, as the product with a row of ones
    lays it out. *)
Lemma expand_cons (k : nat) (x : Q) (l : list Q) :
  flat_map (fun y => repeat y k) (x :: l) =
  repeat x k ++ flat_map (fun y => repeat y k) l.
Proof. reflexivity. Qed.

Lemma expand_length (k : nat) (l : list Q) :
  length (flat_map (fun y => repeat y k) l) = (length l * k)%nat.
Proof.
  induction l as [|x l IH]; [reflexivity|].
  rewrite expand_cons, length_app, repeat_length, IH. simpl. lia.
Qed.

Lemma expand_skipn (k m : nat) (l : list Q) :
  skipn (m * k) (flat_map (fun y => repeat y k) l) =
  flat_map (fun y => repeat y k) (skipn m l).
Proof.
  revert l. induction m as [|m IH]; intros l; [reflexivity|].
  destruct l as [|x l]; [simpl; apply skipn_nil|].
  rewrite expand_cons. simpl skipn at 2.
  rewrite <- IH. replace (S m * k)%nat with (length (repeat x k) + m * k)%nat
    by (rewrite repeat_length; lia).
  rewrite skipn_app, skipn_all2 by lia.
  replace (length (repeat x k) + m * k - length (repeat x k))%nat
    with (m * k)%nat by lia.
  reflexivity.
Qed.

Lemma expand_firstn (k m : nat) (l : list Q) :
  firstn (m * k) (flat_map (fun y => repeat y k) l) =
  flat_map (fun y => repeat y k) (firstn m l).
Proof.
  revert l. induction m as [|m IH]; intros l; [reflexivity|].
  destruct l as [|x l]; [simpl; apply firstn_nil|].
  rewrite expand_cons. simpl firstn at 2. rewrite expand_cons.
  rewrite <- IH. replace (S m * k)%nat with (length (repeat x k) + m * k)%nat
    by (rewrite repeat_length; lia).
  rewrite firstn_app_2. reflexivity.
Qed.

Lemma expand_lookup (k : nat) (l : list Q) (j : nat) :
  (0 < k)%nat ->
  flat_map (fun y => repeat y k) l !! (j * k)%nat = l !! j.
Proof.
  intros Hk. revert j. induction l as [|x l IH]; intros j.
  - simpl. rewrite !lookup_nil. reflexivity.
  - rewrite expand_cons. destruct j as [|j].
    + simpl. rewrite lookup_app_l by (rewrite repeat_length; lia).
      destruct k; [lia|]. reflexivity.
    + rewrite lookup_app_r by (rewrite repeat_length; simpl; lia).
      rewrite repeat_length.
      replace (S j * k - k)%nat with (j * k)%nat by (simpl; lia).
      simpl. apply IH.
Qed.

(** Reading every [k]-th element of the expansion gives the array back. *)
Lemma take_expand (k : nat) (l : list Q) :
  (0 < k)%nat ->
  Np.take (flat_map (fun y => repeat y k) l)
          (map (fun i => (i * k)%nat) (seq 0 (length l))) = Ok l.
Proof.
  intros Hk. apply take_Forall2.
  apply Forall2_same_length_lookup_2.
  - rewrite length_map, length_seq. reflexivity.
  - intros i p x Hp Hx.
    rewrite list_lookup_fmap in Hp.
    destruct (seq 0 (length l) !! i) as [i'|] eqn:Hi; [|discriminate].
    apply lookup_seq in Hi as [-> _]. simpl in Hp. injection Hp as <-.
    rewrite expand_lookup by exact Hk. exact Hx.
Qed.

Lemma arangeN_positions (n : nat) (k : Z) :
  (0 < k)%Z ->
  Np.arangeN (Z.to_nat k * n) k =
    Ok (map (fun i => (i * Z.to_nat k)%nat) (seq 0 n)).
Proof.
  intros Hk. unfold Np.arangeN.
  destruct (Z.eqb_spec k 0); [lia|]. destruct (Z.ltb_spec k 0); [lia|].
  do 3 f_equal.
  assert (HK : (0 < Z.to_nat k)%nat) by lia.
  set (K := Z.to_nat k) in *.
  replace (K * n + K - 1)%nat with (n * K + (K - 1))%nat by lia.
  rewrite Nat.div_add_l by lia. rewrite Nat.div_small by lia. lia.
Qed.

(** C10.  For a stimulus array of at least one dimension and a positive
    factor, downsampling the upsampled stimulus by the same factor gives the
    original array back, shape and elements. *)
Theorem downsample_upsample_roundtrip :
  forall (stim : StimulusTools.ndarray) (k : Z),
    StimulusTools.wf stim ->
    StimulusTools.shape stim <> [] ->
    (0 < k)%Z ->
    exists stim_us : StimulusTools.ndarray,
      StimulusTools.upsamplestim stim k None = Ok (stim_us, None) /\
      StimulusTools.downsamplestim stim_us k None = Ok (stim, None).
Proof.
  intros [sh dat] k [Hlen Hcan] Hsh Hk. simpl in *.
  destruct (exists_last Hsh) as (init & n & ->).
  rewrite prod_snoc in Hlen.
  set (K := Z.to_nat k).
  assert (HK : (0 < K)%nat) by (unfold K; lia).
  assert (Hdat : flat_map (fun x => map (Np.mul x) (repeat 1 K)) dat =
                 flat_map (fun y => repeat y K) dat).
  { clear Hlen. induction dat as [|x dat IH]; [reflexivity|].
    inversion Hcan as [|? ? Hx Hcan']; subst. simpl. rewrite (IH Hcan').
    f_equal. clear -Hx. induction K as [|K IH]; [reflexivity|].
    simpl. rewrite mul_one_float by exact Hx. f_equal. exact IH. }
  exists {| StimulusTools.shape := init ++ [(K * n)%nat];
            StimulusTools.data := flat_map (fun y => repeat y K) dat |}.
  split.
  - unfold StimulusTools.upsamplestim. simpl.
    rewrite getitem_last_snoc. simpl.
    unfold StimulusTools.ones_row. destruct (Z.ltb_spec k 0); [lia|]. simpl.
    unfold StimulusTools.reshape, StimulusTools.mul_column_row. simpl.
    fold K. rewrite removelast_last, Hdat.
    replace (Z.to_nat (k * Z.of_nat n)) with (K * n)%nat by (unfold K; lia).
    rewrite prod_snoc, expand_length, Hlen.
    replace (StimulusTools.prod init * (K * n))%nat
      with (StimulusTools.prod init * n * K)%nat by lia.
    rewrite Nat.eqb_refl. reflexivity.
  - unfold StimulusTools.downsamplestim. simpl.
    rewrite getitem_last_snoc. simpl.
    unfold K. rewrite arangeN_positions by exact Hk. fold K. simpl.
    unfold StimulusTools.take_last_axis. simpl.
    rewrite getitem_last_snoc. simpl. rewrite removelast_last.
    rewrite (mapM_Ok_map _ (fun r => firstn n (skipn (r * n) dat))).
    + simpl. rewrite concat_rows, length_map, length_seq.
      rewrite <- Hlen, firstn_all. reflexivity.
    + intros r Hr. apply in_seq in Hr.
      replace (r * (K * n))%nat with ((r * n) * K)%nat by lia.
      rewrite expand_skipn. rewrite (Nat.mul_comm K n), expand_firstn.
      assert (Hc : length (firstn n (skipn (r * n) dat)) = n).
      { rewrite length_firstn, length_skipn. nia. }
      pose proof (take_expand K (firstn n (skipn (r * n) dat)) HK) as Ht.
      rewrite Hc in Ht. exact Ht.
Qed.

Lemma downsample_upsample_roundtrip_witness :
  exists stim_us : StimulusTools.ndarray,
    StimulusTools.upsamplestim
      {| StimulusTools.shape := [2; 3]%nat;
         StimulusTools.data := [1; 1 # 2; 3; 4; 0; - (7 # 3)] |} 2 None
      = Ok (stim_us, None) /\
    StimulusTools.downsamplestim stim_us 2 None =
      Ok ({| StimulusTools.shape := [2; 3]%nat;
             StimulusTools.data := [1; 1 # 2; 3; 4; 0; - (7 # 3)] |}, None).
Proof.
  apply (downsample_upsample_roundtrip
           {| StimulusTools.shape := [2; 3]%nat;
              StimulusTools.data := [1; 1 # 2; 3; 4; 0; - (7 # 3)] |} 2).
  - split; [reflexivity|]. repeat constructor.
  - discriminate.
  - lia.
Defined.

(** ** estfr: the rate signal is aligned with the time axis *)

Lemma add_padded_length (a b : list Q) :
  length (Np.add_padded a b) = Nat.max (length a) (length b).
Proof.
  revert b. induction a as [|x a IH]; intros [|y b]; simpl; auto.
Qed.

Lemma conv_full_length (a v : list Q) :
  a <> [] -> v <> [] ->
  length (Np.conv_full a v) = (length a + length v - 1)%nat.
Proof.
  intros Ha Hv. induction a as [|x a IH]; [congruence|].
  simpl. rewrite add_padded_length, length_map. simpl.
  destruct a as [|y a].
  - simpl. destruct v; [congruence|]. simpl. lia.
  - rewrite IH by discriminate. simpl. destruct v; [congruence|]. simpl. lia.
Qed.

Lemma div_each_length (a : list Q) (d : Q) (r : list Q) :
  Np.div_each a d = Ok r -> length r = length a.
Proof.
  unfold Np.div_each. destruct a as [|x a].
  - intros [= <-]. reflexivity.
  - destruct (Qeq_bool d 0); [discriminate|]. intros [= <-].
    simpl. f_equal. apply length_map.
Qed.

Lemma convolve_Ok (a v r : list Q) :
  Np.convolve a v = Ok r ->
  a <> [] /\ v <> [] /\ length r = (length a + length v - 1)%nat.
Proof.
  unfold Np.convolve. destruct a as [|x a]; [discriminate|].
  destruct v as [|y v]; [discriminate|]. intros H.
  assert (E : r = Np.conv_full (x :: a) (y :: v)) by congruence.
  rewrite E. split; [discriminate|]. split; [discriminate|].
  apply conv_full_length; discriminate.
Qed.

Lemma diff_nonempty (a : list Q) : Np.diff a <> [] -> (2 <= length a)%nat.
Proof.
  destruct a as [|x [|y a]]; simpl; [congruence|congruence|lia].
Qed.

(** What a successful call of [estfr] tells of its arguments and result. *)
Lemma estfr_Ok_inv (np_exp : Q -> Q) (tax bspk : list Q) (sigma : Q)
    (rates : list Q) :
  SpikeTools.estfr np_exp tax bspk sigma = Ok rates ->
  (2 <= length tax)%nat /\
  exists filt : list Q,
    filt <> [] /\ bspk <> [] /\
    length rates =
      Nat.min (length tax) (length filt + length bspk - 1 - length filt / 2).
Proof.
  intros H. unfold SpikeTools.estfr in H.
  apply bind_Ok_inv in H as (dt & Hdt & H).
  apply bind_Ok_inv in H as (tau & _ & H).
  apply bind_Ok_inv in H as (z & _ & H).
  apply bind_Ok_inv in H as (filt & _ & H).
  apply bind_Ok_inv in H as (full & Hconv & H).
  apply convolve_Ok in Hconv as (Hf & Hb & Hfull).
  apply div_each_length in H.
  split.
  - unfold Np.mean in Hdt. apply diff_nonempty.
    destruct (Np.diff tax); [discriminate | discriminate].
  - exists filt. split; [exact Hf|]. split; [exact Hb|].
    rewrite H, length_firstn, length_skipn, Hfull. reflexivity.
Qed.

(** Whenever [estfr] returns, the time axis has at least two points and,
    provided the counts are aligned with the axis, there is one rate for each
    point of the axis. *)
Theorem estfr_length :
  forall (np_exp : Q -> Q) (tax bspk : list Q) (sigma : Q) (rates : list Q),
    SpikeTools.estfr np_exp tax bspk sigma = Ok rates ->
    (2 <= length tax)%nat /\
    (length bspk = length tax -> length rates = length tax).
Proof.
  intros np_exp tax bspk sigma rates H.
  destruct (estfr_Ok_inv _ _ _ _ _ H) as (Htax & filt & Hf & Hb & Hlen).
  split; [exact Htax|]. intros Hbt.
  assert (0 < length filt)%nat by (destruct filt; [congruence | simpl; lia]).
  assert (length filt / 2 < length filt)%nat by (apply Nat.div_lt; lia).
  lia.
Qed.

Lemma estfr_length_witness :
  exists rates : list Q,
    SpikeTools.estfr Examples.exp_standin
      [1 # 200; 3 # 200; 5 # 200; 7 # 200] [0; 1; 0; 0] (5 # 1000) = Ok rates /\
    length rates = 4%nat.
Proof.
  destruct (SpikeTools.estfr Examples.exp_standin
              [1 # 200; 3 # 200; 5 # 200; 7 # 200] [0; 1; 0; 0] (5 # 1000))
    as [rates|e] eqn:E.
  - exists rates. split; [reflexivity|].
    apply (estfr_length _ _ _ _ _ E). reflexivity.
  - vm_compute in E. discriminate.
Defined.

(** ** Float arithmetic of the model *)

Lemma add_eq (x y : Q) : Np.add x y == x + y.
Proof. apply Qred_correct. Qed.

Lemma sub_eq (x y : Q) : Np.sub x y == x - y.
Proof. apply Qred_correct. Qed.

Lemma mul_eq (x y : Q) : Np.mul x y == x * y.
Proof. apply Qred_correct. Qed.

Lemma div_eq (x y : Q) : Np.div x y == x / y.
Proof. apply Qred_correct. Qed.

Lemma fold_add_const (l : list Q) (c acc : Q) :
  List.Forall (fun x => x == c) l ->
  fold_left Np.add l acc == acc + inject_Z (Z.of_nat (length l)) * c.
Proof.
  revert acc. induction l as [|x l IH]; intros acc HF.
  - simpl. unfold inject_Z. ring.
  - inversion HF as [|? ? Hx HF']; subst.
    change (length (x :: l)) with (S (length l)).
    cbn [fold_left]. rewrite (IH _ HF'), add_eq, Hx.
    rewrite Nat2Z.inj_succ. unfold Z.succ. rewrite inject_Z_plus.
    change (inject_Z 1) with 1. ring.
Qed.

Lemma sum_const (l : list Q) (c : Q) :
  List.Forall (fun x => x == c) l ->
  Np.sum l == inject_Z (Z.of_nat (length l)) * c.
Proof.
  intros H. unfold Np.sum. rewrite (fold_add_const l c 0 H). ring.
Qed.

Lemma diff_length (a : list Q) : length (Np.diff a) = Nat.pred (length a).
Proof. induction a as [|x [|y a] IH]; simpl in *; auto. Qed.

(** The spacing of an arithmetic progression. *)
Lemma diff_arith (f : nat -> Q) (c : Q) (s m : nat) :
  (forall i, f (S i) - f i == c) ->
  List.Forall (fun x => x == c) (Np.diff (map f (seq s m))).
Proof.
  intros Hf. revert s. induction m as [|m IH]; intros s; [constructor|].
  destruct m as [|m]; [constructor|].
  specialize (IH (S s)). simpl in IH |- *. constructor; [|exact IH].
  rewrite sub_eq. apply Hf.
Qed.

Lemma mean_Ok (a : list Q) (d : Q) :
  Np.mean a = Ok d ->
  a <> [] /\ d = Np.div (Np.sum a) (inject_Z (Z.of_nat (length a))).
Proof.
  unfold Np.mean. destruct a as [|x a]; [discriminate|].
  intros H. split; [discriminate | congruence].
Qed.

Lemma mean_arith (f : nat -> Q) (c : Q) (n : nat) (d : Q) :
  (forall i, f (S i) - f i == c) ->
  Np.mean (Np.diff (map f (seq 0 n))) = Ok d -> d == c.
Proof.
  intros Hf H. apply mean_Ok in H as [Hne ->].
  rewrite div_eq, (sum_const _ c (diff_arith f c 0 n Hf)).
  set (m := inject_Z (Z.of_nat (length (Np.diff (map f (seq 0 n)))))).
  assert (Hm : ~ m == 0).
  { unfold m. destruct (Np.diff (map f (seq 0 n))); [congruence|].
    simpl length. unfold inject_Z, Qeq. simpl. lia. }
  field. exact Hm.
Qed.

Lemma arange_Ok (start stop step : Q) (a : list Q) :
  Np.arange start stop step = Ok a ->
  ~ step == 0 /\
  a = map (fun i : nat => Np.add start (Np.mul (inject_Z (Z.of_nat i)) step))
          (seq 0 (Z.to_nat (Qceiling ((stop - start) / step)))).
Proof.
  unfold Np.arange. destruct (Qeq_bool step 0) eqn:E; [discriminate|].
  intros [= <-]. split; [|reflexivity].
  intros H. apply Qeq_bool_iff in H. congruence.
Qed.

Lemma divide_counts_length (bspk : list Z) (n : SpikeTools.pynum) (r : list Q) :
  SpikeTools.divide_counts bspk n = Ok r -> length r = length bspk.
Proof.
  destruct n as [k|q]; simpl.
  - intros [= <-]. apply length_map.
  - intros H. apply div_each_length in H. rewrite H. apply length_map.
Qed.

Lemma histogram_length {A : Type} (leb : A -> A -> bool) (a edges : list A)
    (counts : list Z) :
  Np.histogram leb a edges = Ok counts ->
  length counts = Nat.pred (length edges).
Proof.
  unfold Np.histogram. destruct (negb (Np.nondecreasing leb edges));
    [discriminate|].
  intros H.
  assert (E : counts = Np.bin_counts leb a edges).
  { destruct edges as [|e edges]; [destruct a; [|discriminate]|]; congruence. }
  rewrite E. apply bin_counts_length.
Qed.

(** ** binspikes: the counts and the bin centres *)

Lemma binspikes_axis_inv (spk : list Q) (tmax : option Q) (binsize : Q)
    (numTrials : SpikeTools.pynum) (bspk tax : list Q) :
  SpikeTools.binspikes spk tmax binsize None numTrials = Ok (bspk, tax) ->
  length bspk = length tax /\
  forall (i : nat) (t : Q),
    tax !! i = Some t -> t == (inject_Z (Z.of_nat i) + (1 # 2)) * binsize.
Proof.
  intros H.
  unfold SpikeTools.binspikes in H.
  apply bind_Ok_inv in H as (time & Htime & H).
  apply bind_Ok_inv in Htime as (T & _ & Htime).
  apply arange_Ok in Htime as [Hstep Htime].
  apply bind_Ok_inv in H as (counts & Hcounts & H).
  apply bind_Ok_inv in H as (d & Hd & H).
  apply bind_Ok_inv in H as (bspk' & Hdiv & H).
  injection H as <- <-.
  set (f := fun i : nat => Np.add 0 (Np.mul (inject_Z (Z.of_nat i)) binsize))
    in *.
  assert (Hf : forall i, f i == inject_Z (Z.of_nat i) * binsize).
  { intros i. unfold f. rewrite add_eq, mul_eq. ring. }
  assert (Hd' : d == binsize).
  { rewrite Htime in Hd. eapply (mean_arith f binsize); [|exact Hd].
    intros i. rewrite !Hf.
    rewrite Nat2Z.inj_succ. unfold Z.succ. rewrite inject_Z_plus.
    change (inject_Z 1) with 1. ring. }
  assert (Hcentre : forall (i : nat) (t : Q),
             map (fun t => Np.add t (Np.mul (1 # 2) d)) (removelast time) !! i
               = Some t ->
             t == (inject_Z (Z.of_nat i) + (1 # 2)) * binsize).
  { intros i t Ht. rewrite list_lookup_fmap in Ht.
    destruct (removelast time !! i) as [u|] eqn:Hu; [|discriminate].
    injection Ht as <-.
    assert (Hu' : time !! i = Some u).
    { destruct (exists_last (l := time)) as (time' & x & E).
      - intros ->. discriminate.
      - rewrite E in Hu |- *. rewrite removelast_last in Hu.
        rewrite lookup_app_l; [exact Hu | eapply lookup_lt_Some, Hu]. }
    rewrite Htime, list_lookup_fmap in Hu'.
    destruct (seq 0 _ !! i) as [i'|] eqn:Hi; [|discriminate].
    apply lookup_seq in Hi as [-> _]. injection Hu' as <-.
    rewrite add_eq, mul_eq, Hd'. fold (f i). rewrite Hf. ring. }
  split.
  - apply divide_counts_length in Hdiv. apply histogram_length in Hcounts.
    rewrite Hdiv, Hcounts, length_map, removelast_firstn_len, length_firstn.
    lia.
  - exact Hcentre.
Qed.

Lemma centres_increasing (binsize : Q) (tax : list Q) :
  0 < binsize ->
  (forall (i : nat) (t : Q),
      tax !! i = Some t -> t == (inject_Z (Z.of_nat i) + (1 # 2)) * binsize) ->
  forall (i j : nat) (t t' : Q),
    (i < j)%nat -> tax !! i = Some t -> tax !! j = Some t' -> t < t'.
Proof.
  intros Hpos Hcentre i j t t' Hij Ht Ht'.
  rewrite (Hcentre i t Ht), (Hcentre j t' Ht').
  apply Qmult_lt_compat_r; [exact Hpos|].
  apply Qplus_lt_l. rewrite <- Zlt_Qlt. lia.
Qed.



(** ** Counting with two disjoint predicates *)

Lemma filter_length_split {A : Type} (p q r : A -> bool) (a : list A) :
  (forall x, r x = p x || q x) ->
  (forall x, p x && q x = false) ->
  (length (List.filter p a) + length (List.filter q a))%nat
  = length (List.filter r a).
Proof.
  intros Hr Hpq. induction a as [|x a IH]; [reflexivity|].
  simpl. rewrite (Hr x). specialize (Hpq x).
  destruct (p x), (q x); simpl in *; try discriminate; lia.
Qed.

(** ** The events of detectevents *)

(** The event built for one peak, on an ascending axis with one rate per
    point. *)
Lemma make_event_spec (tax psth threshold : list Q) (th1 : Q)
    (spk : list SpikeTools.spike) (pk pv : Q) :
  StronglySorted Qle tax ->
  length psth = length tax ->
  tax <> [] ->
  threshold !! 1%nat = Some th1 ->
  exists starttime stoptime : Q,
    SpikeTools.make_event tax psth threshold spk (pk, pv) =
      Ok (SpikeTools.__init__ starttime stoptime
            (List.filter
               (fun s : SpikeTools.spike =>
                  Qle_bool starttime (fst s) && Np.Qltb (fst s) stoptime) spk))
    /\ Props.latest_low_before tax psth th1 pk starttime
    /\ Props.earliest_low_after tax psth th1 pk stoptime.
Proof.
  intros Hsorted Hlen Hne Hth.
  destruct (boundary_indices_spec Np.Qltb tax psth threshold th1 pk Hlen Hth)
    as (startIndices & Hstart & Hsi).
  destruct (boundary_indices_spec (fun t p => Np.Qltb p t) tax psth threshold
              th1 pk Hlen Hth) as (stopIndices & Hstop & Hti).
  assert (Hlb : forall t, Props.low_before tax psth th1 pk t <->
                          exists i, In i startIndices /\ tax !! i = Some t).
  { intros t. split.
    - intros (i & r & Ht & Hr & Hle & Hlt). exists i. split; [|exact Ht].
      apply Hsi. exists t, r. repeat split; auto. apply Qltb_lt, Hlt.
    - intros (i & Hi & Ht). apply Hsi in Hi as (t' & r & Ht' & Hr & Hle & Hc).
      assert (t' = t) by congruence. subst t'.
      exists i, r. repeat split; auto. apply Qltb_lt, Hc. }
  assert (Hla : forall t, Props.low_after tax psth th1 pk t <->
                          exists i, In i stopIndices /\ tax !! i = Some t).
  { intros t. split.
    - intros (i & r & Ht & Hr & Hle & Hlt). exists i. split; [|exact Ht].
      apply Hti. exists t, r. repeat split; auto. apply Qltb_lt, Hlt.
    - intros (i & Hi & Ht). apply Hti in Hi as (t' & r & Ht' & Hr & Hle & Hc).
      assert (t' = t) by congruence. subst t'.
      exists i, r. repeat split; auto. apply Qltb_lt, Hc. }
  assert (Hst : exists starttime,
             match startIndices with
             | [] => Np.getitem tax 0
             | _ => let* i := Np.maxN startIndices in Np.getitem tax i
             end = Ok starttime /\
             Props.latest_low_before tax psth th1 pk starttime).
  { destruct startIndices as [|i0 rest] eqn:E.
    - destruct tax as [|t0 tax']; [congruence|].
      exists t0. split; [reflexivity|]. right. split; [|reflexivity].
      intros t' H. apply Hlb in H as (i & [] & _).
    - destruct (maxN_spec (i0 :: rest)) as (m & Hm & Hin & Hmax);
        [discriminate|].
      pose proof Hin as Hin'. apply Hsi in Hin' as (t & r & Ht & _).
      exists t. split.
      + rewrite Hm. simpl. apply getitem_Ok, Ht.
      + left. split; [apply Hlb; eauto|].
        intros t' H. apply Hlb in H as (i & Hi & Ht').
        apply (sorted_lookup_le tax i m); auto. }
  assert (Hsp : exists stoptime,
             match stopIndices with
             | [] => Np.getitem_last tax
             | _ => let* i := Np.minN stopIndices in Np.getitem tax i
             end = Ok stoptime /\
             Props.earliest_low_after tax psth th1 pk stoptime).
  { destruct stopIndices as [|i0 rest] eqn:E.
    - destruct tax as [|t0 tax'] eqn:Etax; [congruence|].
      exists (List.last tax' t0). split; [reflexivity|]. right. split.
      + intros t' H. apply Hla in H as (i & [] & _).
      + replace (length (t0 :: tax') - 1)%nat with (length tax')
          by (simpl; lia).
        apply lookup_last_default.
    - destruct (minN_spec (i0 :: rest)) as (m & Hm & Hin & Hmin);
        [discriminate|].
      pose proof Hin as Hin'. apply Hti in Hin' as (t & r & Ht & _).
      exists t. split.
      + rewrite Hm. simpl. apply getitem_Ok, Ht.
      + left. split; [apply Hla; eauto|].
        intros t' H. apply Hla in H as (i & Hi & Ht').
        apply (sorted_lookup_le tax m i); auto. }
  destruct Hst as (starttime & Hst1 & Hst2).
  destruct Hsp as (stoptime & Hsp1 & Hsp2).
  exists starttime, stoptime. split; [|split; assumption].
  unfold SpikeTools.make_event. simpl. rewrite Hstart. simpl.
  rewrite Hstop. simpl. rewrite Hst1. simpl. rewrite Hsp1. simpl.
  reflexivity.
Qed.

(** Start and stop are points of the axis, and start does not come after
    stop. *)
Lemma bounds_on_axis (tax psth : list Q) (th1 pk t0 t1 : Q) :
  StronglySorted Qle tax ->
  Props.latest_low_before tax psth th1 pk t0 ->
  Props.earliest_low_after tax psth th1 pk t1 ->
  In t0 tax /\ In t1 tax /\ t0 <= t1.
Proof.
  intros Hsorted H0 H1.
  assert (Hin0 : exists i, tax !! i = Some t0).
  { destruct H0 as [[(i & r & Hi & _) _]|[_ Hi]]; eauto. }
  assert (Hin1 : exists j, tax !! j = Some t1).
  { destruct H1 as [[(j & r & Hj & _) _]|[_ Hj]]; eauto. }
  destruct Hin0 as (i & Hi). destruct Hin1 as (j & Hj).
  split; [|split].
  - apply list_elem_of_In. eapply list_elem_of_lookup_2, Hi.
  - apply list_elem_of_In. eapply list_elem_of_lookup_2, Hj.
  - destruct H0 as [[(i' & r & Hi' & _ & _ & Hlt) _]|[_ Hhead]].
    + destruct H1 as [[(j' & r' & Hj' & _ & _ & Hgt) _]|[_ Hlast]].
      * apply Qlt_le_weak. eapply Qlt_trans; eassumption.
      * apply (sorted_lookup_le tax i' (length tax - 1)); auto.
        apply lookup_lt_Some in Hi'. lia.
    + apply (sorted_lookup_le tax 0 j); auto. lia.
Qed.

(** What the loop adds to the sequence: the events built for some of the
    peaks of the table, in the order of the table; the first peak always gives
    an event. *)
Lemma event_loop_inv (tax psth threshold : list Q) (spk : list SpikeTools.spike)
    (maxtab : list (Q * Q)) (events events' : list SpikeTools.spikingevent) :
  SpikeTools.event_loop tax psth threshold spk maxtab events = Ok events' ->
  exists (kept : list (Q * Q)) (added : list SpikeTools.spikingevent),
    events' = events ++ added /\
    sublist kept maxtab /\
    (events = [] -> maxtab <> [] -> added <> []) /\
    List.Forall2
      (fun peak e => SpikeTools.make_event tax psth threshold spk peak = Ok e)
      kept added.
Proof.
  revert events. induction maxtab as [|peak rest IH]; intros events H.
  - injection H as <-. exists [], []. rewrite app_nil_r.
    repeat split; [constructor | congruence | constructor].
  - cbn [SpikeTools.event_loop] in H.
    apply bind_Ok_inv in H as (ev & Hev & H).
    destruct (IH _ H) as (kept & added & -> & Hsub & _ & HF).
    unfold SpikeTools.append_unique.
    destruct events as [|e0 r].
    + exists (peak :: kept), (ev :: added). simpl.
      repeat split; [constructor; exact Hsub | congruence |].
      constructor; assumption.
    + destruct (negb (SpikeTools.__eq__ (List.last r e0) ev)).
      * exists (peak :: kept), (ev :: added). rewrite <- app_assoc. simpl.
        repeat split; [constructor; exact Hsub | congruence |].
        constructor; assumption.
      * exists kept, added.
        repeat split; [constructor; exact Hsub | congruence | exact HF].
Qed.

(** What a successful call of [detectevents] went through. *)
Lemma detectevents_Ok_inv (np_exp : Q -> Q)
    (peakdet : list Q -> Q -> list Q -> result (list (Q * Q) * list (Q * Q)))
    (spk : list SpikeTools.spike) (threshold tax psth bspk : list Q)
    (events : list SpikeTools.spikingevent) :
  SpikeTools.detectevents np_exp peakdet spk threshold
    = Ok (tax, psth, bspk, events) ->
  exists (numTrials : Z) (delta : Q) (maxtab mintab : list (Q * Q)),
    Np.maxZ (map snd spk) = Ok numTrials /\
    SpikeTools.binspikes (map fst spk) None (1 # 100) None
      (SpikeTools.PyFloat (inject_Z numTrials)) = Ok (bspk, tax) /\
    SpikeTools.estfr np_exp tax bspk (5 # 1000) = Ok psth /\
    threshold !! 0%nat = Some delta /\
    peakdet psth delta tax = Ok (maxtab, mintab) /\
    SpikeTools.event_loop tax psth threshold spk maxtab [] = Ok events.
Proof.
  intros H. unfold SpikeTools.detectevents in H.
  apply bind_Ok_inv in H as (numTrials & Hn & H).
  apply bind_Ok_inv in H as ([bspk' tax'] & Hb & H).
  apply bind_Ok_inv in H as (psth' & He & H).
  apply bind_Ok_inv in H as (delta & Hd & H).
  apply bind_Ok_inv in H as ([maxtab mintab] & Hp & H).
  apply bind_Ok_inv in H as (events' & Hloop & H).
  injection H as -> -> -> ->.
  exists numTrials, delta, maxtab, mintab.
  repeat split; try assumption. apply getitem_Ok, Hd.
Qed.

Lemma lookup_sorted_Qle (tax : list Q) :
  (forall (i j : nat) (t t' : Q),
      (i < j)%nat -> tax !! i = Some t -> tax !! j = Some t' -> t < t') ->
  StronglySorted Qle tax.
Proof.
  induction tax as [|x tax IH]; intros H; constructor.
  - apply IH. intros i j t t' Hij Hi Hj. apply (H (S i) (S j)); auto. lia.
  - apply List.Forall_forall. intros y Hy.
    apply list_elem_of_In, list_elem_of_lookup in Hy as (j & Hj).
    apply Qlt_le_weak. apply (H 0%nat (S j)); auto. lia.
Qed.

(** The axis [detectevents] works on. *)
Lemma detectevents_axis (np_exp : Q -> Q)
    (peakdet : list Q -> Q -> list Q -> result (list (Q * Q) * list (Q * Q)))
    (spk : list SpikeTools.spike) (threshold tax psth bspk : list Q)
    (events : list SpikeTools.spikingevent) :
  SpikeTools.detectevents np_exp peakdet spk threshold
    = Ok (tax, psth, bspk, events) ->
  length bspk = length tax /\ length psth = length tax /\
  (2 <= length tax)%nat /\
  (forall (i : nat) (t : Q),
      tax !! i = Some t ->
      t == (inject_Z (Z.of_nat i) + (1 # 2)) * (1 # 100)) /\
  StronglySorted Qle tax.
Proof.
  intros H.
  destruct (detectevents_Ok_inv _ _ _ _ _ _ _ _ H)
    as (n & delta & maxtab & mintab & _ & Hb & He & _).
  destruct (binspikes_axis_inv _ _ _ _ _ _ Hb) as [Hlen Hcentre].
  destruct (estfr_Ok_inv _ _ _ _ _ He) as (Htax & filt & Hf & _ & Hr).
  assert (0 < length filt)%nat by (destruct filt; [congruence | simpl; lia]).
  assert (length filt / 2 < length filt)%nat by (apply Nat.div_lt; lia).
  split; [exact Hlen|]. split; [lia|]. split; [exact Htax|].
  split; [exact Hcentre|].
  apply lookup_sorted_Qle. apply (centres_increasing (1 # 100)); [reflexivity|].
  exact Hcentre.
Qed.

Lemma make_event_Ok_threshold (tax psth threshold : list Q)
    (spk : list SpikeTools.spike) (peak : Q * Q) (e : SpikeTools.spikingevent) :
  SpikeTools.make_event tax psth threshold spk peak = Ok e ->
  exists th1 : Q, threshold !! 1%nat = Some th1.
Proof.
  intros H. unfold SpikeTools.make_event, SpikeTools.boundary_indices in H.
  apply bind_Ok_inv in H as (idx & H & _).
  apply bind_Ok_inv in H as (th1 & H & _).
  exists th1. apply getitem_Ok, H.
Qed.

Lemma sublist_In {A : Type} (l1 l2 : list A) (x : A) :
  sublist l1 l2 -> In x l1 -> In x l2.
Proof.
  intros H. induction H as [|y l1 l2 H IH|y l1 l2 H IH]; simpl; intuition.
Qed.

Lemma sublist_tail {A : Type} (x : A) (l1 l2 : list A) :
  sublist (x :: l1) l2 -> sublist l1 l2.
Proof.
  induction l2 as [|y l2 IH]; intros H; inversion H; subst.
  - constructor. assumption.
  - constructor. apply IH. assumption.
Qed.

Lemma sublist_length_le {A : Type} (l1 l2 : list A) :
  sublist l1 l2 -> (length l1 <= length l2)%nat.
Proof.
  intros H. induction H; simpl; lia.
Qed.



(** Every event [detectevents] returns comes from a peak of the table the
    peak detector returned for [threshold[0]]: it starts at the latest low
    point before that peak and stops at the earliest low point after it.
    There are at most as many events as peaks, and there is no event exactly
    when there is no peak. *)
Theorem detectevents_events_from_peaks :
  forall (np_exp : Q -> Q)
         (peakdet : list Q -> Q -> list Q ->
                    result (list (Q * Q) * list (Q * Q)))
         (spk : list SpikeTools.spike) (threshold tax psth bspk : list Q)
         (events : list SpikeTools.spikingevent),
    SpikeTools.detectevents np_exp peakdet spk threshold
      = Ok (tax, psth, bspk, events) ->
    exists (delta : Q) (maxtab mintab : list (Q * Q)),
      threshold !! 0%nat = Some delta /\
      peakdet psth delta tax = Ok (maxtab, mintab) /\
      (length events <= length maxtab)%nat /\
      (events = [] <-> maxtab = []) /\
      List.Forall
        (fun e => exists (peak : Q * Q) (th1 : Q),
             In peak maxtab /\ threshold !! 1%nat = Some th1 /\
             Props.latest_low_before tax psth th1 (fst peak)
               (SpikeTools.start e) /\
             Props.earliest_low_after tax psth th1 (fst peak)
               (SpikeTools.stop e))
        events.
Proof.
  intros np_exp peakdet spk threshold tax psth bspk events H.
  destruct (detectevents_axis _ _ _ _ _ _ _ _ H)
    as (_ & Hp & Hlen & _ & Hsorted).
  destruct (detectevents_Ok_inv _ _ _ _ _ _ _ _ H)
    as (n & delta & maxtab & mintab & _ & _ & _ & Hd & Hpk & Hloop).
  destruct (event_loop_inv _ _ _ _ _ _ _ Hloop)
    as (kept & added & E & Hsub & Hfirst & HF).
  simpl in E. subst added.
  exists delta, maxtab, mintab.
  split; [exact Hd|]. split; [exact Hpk|]. split; [|split].
  - apply Forall2_length in HF. apply sublist_length_le in Hsub. lia.
  - split.
    + intros ->. destruct maxtab as [|p m]; [reflexivity|].
      exfalso. apply Hfirst; [reflexivity | discriminate | reflexivity].
    + intros ->. inversion Hsub; subst. inversion HF. reflexivity.
  - assert (Hne : tax <> []) by (destruct tax; [simpl in Hlen; lia | discriminate]).
    clear Hfirst Hloop H. induction HF as [|peak e kept events He HF IH];
      constructor.
    + destruct (make_event_Ok_threshold _ _ _ _ _ _ He) as (th1 & Hth).
      destruct peak as [pk pv].
      destruct (make_event_spec tax psth threshold th1 spk pk pv
                  Hsorted Hp Hne Hth) as (t0 & t1 & Hev & H0 & H1).
      rewrite Hev in He. injection He as <-.
      exists (pk, pv), th1. simpl. repeat split; try assumption.
      eapply sublist_In; [exact Hsub | left; reflexivity].
    + apply IH. eapply sublist_tail. exact Hsub.
Qed.

Lemma detectevents_events_from_peaks_witness :
  exists (tax psth bspk : list Q) (events : list SpikeTools.spikingevent)
         (maxtab : list (Q * Q)),
    SpikeTools.detectevents Examples.exp_standin Examples.peakdet
      Examples.two_bursts [3 # 10; 1 # 20] = Ok (tax, psth, bspk, events) /\
    (length events <= length maxtab)%nat.
Proof.
  destruct (SpikeTools.detectevents Examples.exp_standin Examples.peakdet
              Examples.two_bursts [3 # 10; 1 # 20])
    as [[[[tax psth] bspk] events]|e] eqn:E.
  - destruct (detectevents_events_from_peaks _ _ _ _ _ _ _ _ E)
      as (delta & maxtab & mintab & _ & _ & Hlen & _).
    exists tax, psth, bspk, events, maxtab. split; [reflexivity | exact Hlen].
  - vm_compute in E. discriminate.
Defined.

(** Every event [detectevents] returns has its start and its stop on the time
    axis, does not start after it stops, and holds exactly the spikes of the
    train, in their order, whose time [t] satisfies start <= t < stop. *)
Theorem detectevents_event_windows :
  forall (np_exp : Q -> Q)
         (peakdet : list Q -> Q -> list Q ->
                    result (list (Q * Q) * list (Q * Q)))
         (spk : list SpikeTools.spike) (threshold tax psth bspk : list Q)
         (events : list SpikeTools.spikingevent),
    SpikeTools.detectevents np_exp peakdet spk threshold
      = Ok (tax, psth, bspk, events) ->
    List.Forall
      (fun e =>
         In (SpikeTools.start e) tax /\ In (SpikeTools.stop e) tax /\
         SpikeTools.start e <= SpikeTools.stop e /\
         SpikeTools.spikes e =
           List.filter
             (fun s : SpikeTools.spike =>
                Qle_bool (SpikeTools.start e) (fst s) &&
                Np.Qltb (fst s) (SpikeTools.stop e)) spk /\
         (forall s : SpikeTools.spike,
             In s (SpikeTools.spikes e) <->
             In s spk /\ SpikeTools.start e <= fst s < SpikeTools.stop e))
      events.
Proof.
  intros np_exp peakdet spk threshold tax psth bspk events H.
  destruct (detectevents_axis _ _ _ _ _ _ _ _ H)
    as (_ & Hp & Hlen & _ & Hsorted).
  destruct (detectevents_Ok_inv _ _ _ _ _ _ _ _ H)
    as (n & delta & maxtab & mintab & _ & _ & _ & _ & _ & Hloop).
  destruct (event_loop_inv _ _ _ _ _ _ _ Hloop)
    as (kept & added & E & _ & _ & HF).
  simpl in E. subst added.
  assert (Hne : tax <> []) by (destruct tax; [simpl in Hlen; lia | discriminate]).
  clear Hloop H. induction HF as [|peak e kept events He HF IH];
    constructor; [|exact IH].
  destruct (make_event_Ok_threshold _ _ _ _ _ _ He) as (th1 & Hth).
  destruct peak as [pk pv].
  destruct (make_event_spec tax psth threshold th1 spk pk pv
              Hsorted Hp Hne Hth) as (t0 & t1 & Hev & H0 & H1).
  rewrite Hev in He. injection He as <-. simpl.
  destruct (bounds_on_axis tax psth th1 pk t0 t1 Hsorted H0 H1)
    as (Hi0 & Hi1 & Hle).
  split; [exact Hi0|]. split; [exact Hi1|]. split; [exact Hle|].
  split; [reflexivity|].
  intros s. rewrite filter_In, andb_true_iff, Qle_bool_iff, Qltb_lt.
  reflexivity.
Qed.

Lemma detectevents_event_windows_witness :
  exists (tax psth bspk : list Q) (events : list SpikeTools.spikingevent),
    SpikeTools.detectevents Examples.exp_standin Examples.peakdet
      Examples.two_bursts [3 # 10; 1 # 20] = Ok (tax, psth, bspk, events) /\
    List.Forall (fun e => SpikeTools.start e <= SpikeTools.stop e) events.
Proof.
  destruct (SpikeTools.detectevents Examples.exp_standin Examples.peakdet
              Examples.two_bursts [3 # 10; 1 # 20])
    as [[[[tax psth] bspk] events]|e] eqn:E.
  - exists tax, psth, bspk, events. split; [reflexivity|].
    eapply List.Forall_impl;
      [|exact (detectevents_event_windows _ _ _ _ _ _ _ _ E)].
    simpl. intros a (_ & _ & Hle & _). exact Hle.
  - vm_compute in E. discriminate.
Defined.

Lemma make_event_bounds (tax psth threshold : list Q)
    (spk : list SpikeTools.spike) (peak : Q * Q) (e : SpikeTools.spikingevent) :
  StronglySorted Qle tax -> length psth = length tax -> tax <> [] ->
  SpikeTools.make_event tax psth threshold spk peak = Ok e ->
  exists th1 : Q,
    threshold !! 1%nat = Some th1 /\
    Props.latest_low_before tax psth th1 (fst peak) (SpikeTools.start e) /\
    Props.earliest_low_after tax psth th1 (fst peak) (SpikeTools.stop e).
Proof.
  intros Hsorted Hp Hne He.
  destruct (make_event_Ok_threshold _ _ _ _ _ _ He) as (th1 & Hth).
  destruct peak as [pk pv].
  destruct (make_event_spec tax psth threshold th1 spk pk pv
              Hsorted Hp Hne Hth) as (t0 & t1 & Hev & H0 & H1).
  rewrite Hev in He. injection He as <-.
  exists th1. simpl. repeat split; assumption.
Qed.

(** A later peak does not start earlier, and does not stop earlier. *)
Lemma latest_low_before_mono (tax psth : list Q) (th1 pk pk' t t' : Q) :
  StronglySorted Qle tax -> pk <= pk' ->
  Props.latest_low_before tax psth th1 pk t ->
  Props.latest_low_before tax psth th1 pk' t' ->
  t <= t'.
Proof.
  intros Hsorted Hpk [[Hlow _]|[_ Hhead]] H'.
  - assert (Hlow' : Props.low_before tax psth th1 pk' t).
    { destruct Hlow as (i & r & Hi & Hr & Hle & Hlt).
      exists i, r. repeat split; try assumption.
      eapply Qlt_le_trans; eassumption. }
    destruct H' as [[_ Hmax]|[Hnone _]]; [apply Hmax, Hlow'|].
    exfalso. apply (Hnone t), Hlow'.
  - assert (Hin : exists j, tax !! j = Some t').
    { destruct H' as [[(j & r & Hj & _) _]|[_ Hj]]; eauto. }
    destruct Hin as (j & Hj).
    apply (sorted_lookup_le tax 0 j); auto. lia.
Qed.

Lemma earliest_low_after_mono (tax psth : list Q) (th1 pk pk' t t' : Q) :
  StronglySorted Qle tax -> pk <= pk' ->
  Props.earliest_low_after tax psth th1 pk t ->
  Props.earliest_low_after tax psth th1 pk' t' ->
  t <= t'.
Proof.
  intros Hsorted Hpk H [[Hlow' _]|[_ Hlast]].
  - assert (Hlow : Props.low_after tax psth th1 pk t').
    { destruct Hlow' as (i & r & Hi & Hr & Hle & Hlt).
      exists i, r. repeat split; try assumption.
      eapply Qle_lt_trans; eassumption. }
    destruct H as [[_ Hmin]|[Hnone _]]; [apply Hmin, Hlow|].
    exfalso. apply (Hnone t'), Hlow.
  - assert (Hin : exists i, tax !! i = Some t).
    { destruct H as [[(i & r & Hi & _) _]|[_ Hi]]; eauto. }
    destruct Hin as (i & Hi).
    apply (sorted_lookup_le tax i (length tax - 1)); auto.
    apply lookup_lt_Some in Hi. lia.
Qed.

Lemma StronglySorted_sublist {A : Type} (R : A -> A -> Prop) (l1 l2 : list A) :
  sublist l1 l2 -> StronglySorted R l2 -> StronglySorted R l1.
Proof.
  intros H. induction H as [|x l1 l2 H IH|x l1 l2 H IH]; intros Hs.
  - constructor.
  - inversion Hs as [|? ? Hs' Hx]; subst. constructor; [auto|].
    apply List.Forall_forall. intros y Hy.
    rewrite List.Forall_forall in Hx. apply Hx. eapply sublist_In; eauto.
  - inversion Hs; subst. auto.
Qed.

(** When the peak detector returns its peaks in ascending order of time, the
    events [detectevents] returns are in ascending order too: a later event
    neither starts nor stops before an earlier one. *)
Theorem detectevents_events_ordered :
  forall (np_exp : Q -> Q)
         (peakdet : list Q -> Q -> list Q ->
                    result (list (Q * Q) * list (Q * Q)))
         (spk : list SpikeTools.spike) (threshold tax psth bspk : list Q)
         (events : list SpikeTools.spikingevent)
         (delta : Q) (maxtab mintab : list (Q * Q)),
    SpikeTools.detectevents np_exp peakdet spk threshold
      = Ok (tax, psth, bspk, events) ->
    threshold !! 0%nat = Some delta ->
    peakdet psth delta tax = Ok (maxtab, mintab) ->
    StronglySorted (fun p p' : Q * Q => fst p <= fst p') maxtab ->
    StronglySorted
      (fun e e' => SpikeTools.start e <= SpikeTools.start e' /\
                   SpikeTools.stop e <= SpikeTools.stop e')
      events.
Proof.
  intros np_exp peakdet spk threshold tax psth bspk events delta maxtab mintab
         H Hd Hpk Hpeaks.
  destruct (detectevents_axis _ _ _ _ _ _ _ _ H)
    as (_ & Hp & Hlen & _ & Hsorted).
  destruct (detectevents_Ok_inv _ _ _ _ _ _ _ _ H)
    as (n & delta' & maxtab' & mintab' & _ & _ & _ & Hd' & Hpk' & Hloop).
  assert (delta' = delta) by congruence. subst delta'.
  assert (maxtab' = maxtab) by congruence. subst maxtab'.
  destruct (event_loop_inv _ _ _ _ _ _ _ Hloop)
    as (kept & added & E & Hsub & _ & HF).
  simpl in E. subst added.
  assert (Hne : tax <> []) by (destruct tax; [simpl in Hlen; lia | discriminate]).
  pose proof (StronglySorted_sublist _ _ _ Hsub Hpeaks) as Hkept.
  clear Hloop H Hsub Hpk Hpk' Hpeaks.
  induction HF as [|peak e kept events He HF IH]; [constructor|].
  inversion Hkept as [|? ? Hkept' Hpeak]; subst.
  constructor; [apply IH, Hkept'|].
  destruct (make_event_bounds _ _ _ _ _ _ Hsorted Hp Hne He)
    as (th1 & Hth & H0 & H1).
  clear IH He Hkept. induction HF as [|peak' e' kept events He' HF IH];
    [constructor|].
  inversion Hpeak as [|? ? Hle Hpeak']; subst.
  inversion Hkept' as [|? ? Hkept'' _]; subst.
  constructor; [|apply IH; assumption].
  destruct (make_event_bounds _ _ _ _ _ _ Hsorted Hp Hne He')
    as (th1' & Hth' & H0' & H1').
  assert (th1' = th1) by congruence. subst th1'.
  split.
  - eapply latest_low_before_mono; eassumption.
  - eapply earliest_low_after_mono; eassumption.
Qed.

Lemma detectevents_events_ordered_witness :
  exists (tax psth bspk : list Q) (events : list SpikeTools.spikingevent),
    SpikeTools.detectevents Examples.exp_standin Examples.peakdet
      Examples.two_bursts [3 # 10; 1 # 20] = Ok (tax, psth, bspk, events) /\
    StronglySorted
      (fun e e' => SpikeTools.start e <= SpikeTools.start e' /\
                   SpikeTools.stop e <= SpikeTools.stop e')
      events.
Proof.
  eexists _, _, _, _. split; [vm_compute; reflexivity|].
  eapply (detectevents_events_ordered Examples.exp_standin Examples.peakdet
            Examples.two_bursts [3 # 10; 1 # 20]).
  - vm_compute. reflexivity.
  - reflexivity.
  - vm_compute. reflexivity.
  - repeat constructor; unfold Qle; simpl; lia.
Defined.

(** ** Event equality is an equivalence *)

(** On events with finite start and stop times, [__eq__] is reflexive,
    symmetric and transitive, whatever the spikes are. *)
Theorem spikingevent_eq_equivalence :
  (forall a : SpikeTools.spikingevent, SpikeTools.__eq__ a a = true) /\
  (forall a b : SpikeTools.spikingevent,
      SpikeTools.__eq__ a b = SpikeTools.__eq__ b a) /\
  (forall a b c : SpikeTools.spikingevent,
      SpikeTools.__eq__ a b = true -> SpikeTools.__eq__ b c = true ->
      SpikeTools.__eq__ a c = true).
Proof.
  unfold SpikeTools.__eq__. split; [|split].
  - intros a. apply andb_true_iff. split; apply Qeq_bool_iff; reflexivity.
  - intros a b. f_equal; apply eq_true_iff_eq; rewrite !Qeq_bool_iff;
      split; intros H; symmetry; exact H.
  - intros a b c Hab Hbc.
    apply andb_true_iff in Hab as [H1 H2]. apply andb_true_iff in Hbc as [H3 H4].
    apply Qeq_bool_iff in H1, H2, H3, H4.
    apply andb_true_iff. split; apply Qeq_bool_iff.
    + rewrite H1. exact H3.
    + rewrite H2. exact H4.
Qed.

Lemma spikingevent_eq_equivalence_witness :
  SpikeTools.__eq__ (SpikeTools.__init__ (1 # 2) 1 [])
                    (SpikeTools.__init__ (3 # 6) (2 # 2) [(3 # 4, 1%Z)]) = true.
Proof.
  destruct spikingevent_eq_equivalence as (_ & _ & Htrans).
  apply (Htrans _ (SpikeTools.__init__ (2 # 4) 1 [(3 # 5, 2%Z)]) _);
    reflexivity.
Defined.

(** ** sort keeps the trials apart *)

(** What [sort] returns, in one equation. *)
Lemma sort_run (argsort : list Q -> list nat) (h : SpikeTools.heap)
    (self : SpikeTools.loc) (spikes : list SpikeTools.spike) :
  Np.argsort_spec argsort ->
  h !! self = Some spikes ->
  exists sortedtrials : list Z,
    Permutation sortedtrials (Np.unique (map snd spikes)) /\
    SpikeTools.sort argsort self h =
      Ok (fresh (dom h),
          <[fresh (dom h) :=
              map (fun s => (fst s, Props.latency_label sortedtrials (snd s)))
                  spikes]> h).
Proof.
  intros Hspec Hself.
  destruct (sort_sortedtrials argsort spikes Hspec)
    as (firsts & rows & sorted & Hfirsts & Hrows & Hsorted & Hperm & _).
  set (st := map snd sorted) in *.
  set (l' := fresh (dom h)).
  assert (Hfresh : h !! l' = None).
  { apply not_elem_of_dom. apply is_fresh. }
  assert (Hne : l' <> self) by congruence.
  assert (Hnd : List.NoDup st).
  { eapply Permutation_NoDup; [apply Permutation_sym, Hperm | apply unique_NoDup]. }
  exists st. split; [exact Hperm|].
  unfold SpikeTools.sort, SpikeTools.load. rewrite Hself. simpl.
  unfold Np.unique_index. rewrite Hfirsts. simpl. rewrite Hrows. simpl.
  rewrite Hsorted. simpl.
  unfold SpikeTools.copy, SpikeTools.load. rewrite Hself. simpl.
  fold l' st.
  rewrite <- (relabel_upto_0 st spikes) at 1.
  rewrite (sort_loop_relabels (length st) 0 h self l' spikes st)
    by (try assumption; simpl; lia).
  simpl. rewrite relabel_upto_all; [reflexivity|].
  intros s Hs. eapply Permutation_in; [apply Permutation_sym, Hperm|].
  apply unique_In, in_map, Hs.
Qed.

(** [sort] relabels whole trials: the array it returns has as many rows as
    the event's, and two of its rows carry the same label exactly when the
    two spikes belonged to the same trial. *)
Theorem sort_keeps_trials_apart :
  forall (argsort : list Q -> list nat) (h : SpikeTools.heap)
         (self : SpikeTools.loc) (spikes : list SpikeTools.spike),
    Np.argsort_spec argsort ->
    h !! self = Some spikes ->
    exists (sortedspikes : SpikeTools.loc) (h' : SpikeTools.heap)
           (out : list SpikeTools.spike),
      SpikeTools.sort argsort self h = Ok (sortedspikes, h') /\
      h' !! sortedspikes = Some out /\
      length out = length spikes /\
      forall (i j : nat) (s s' o o' : SpikeTools.spike),
        spikes !! i = Some s -> spikes !! j = Some s' ->
        out !! i = Some o -> out !! j = Some o' ->
        (snd o = snd o' <-> snd s = snd s').
Proof.
  intros argsort h self spikes Hspec Hself.
  destruct (sort_run argsort h self spikes Hspec Hself) as (st & Hperm & Hrun).
  eexists _, _, _. split; [exact Hrun|]. split; [apply lookup_insert_eq|].
  split; [apply length_map|].
  intros i j s s' o o' Hs Hs' Ho Ho'.
  rewrite list_lookup_fmap, Hs in Ho. rewrite list_lookup_fmap, Hs' in Ho'.
  simpl in Ho, Ho'. injection Ho as <-. injection Ho' as <-. simpl.
  split; [|intros ->; reflexivity].
  assert (Hin : forall x : SpikeTools.spike, In x spikes -> In (snd x) st).
  { intros x Hx. eapply Permutation_in; [apply Permutation_sym, Hperm|].
    apply unique_In, in_map, Hx. }
  assert (His : In s spikes)
    by (apply list_elem_of_In; eapply list_elem_of_lookup_2, Hs).
  assert (His' : In s' spikes)
    by (apply list_elem_of_In; eapply list_elem_of_lookup_2, Hs').
  pose proof (first_index_In st _ (Hin s His)) as H1.
  pose proof (first_index_In st _ (Hin s' His')) as H2.
  unfold Props.latency_label. intros E.
  assert (E' : Np.first_index (snd s) st = Np.first_index (snd s') st) by lia.
  rewrite E' in H1. congruence.
Qed.

Lemma sort_keeps_trials_apart_witness :
  exists (sortedspikes : SpikeTools.loc) (h' : SpikeTools.heap)
         (out : list SpikeTools.spike),
    SpikeTools.sort Np.argsort_stable 1%positive
      (<[1%positive := [(1 # 2, 7%Z); (1 # 5, 3%Z); (3 # 5, 7%Z)]]> ∅)
      = Ok (sortedspikes, h') /\
    h' !! sortedspikes = Some out /\
    length out = 3%nat.
Proof.
  destruct (sort_keeps_trials_apart Np.argsort_stable
              (<[1%positive := [(1 # 2, 7%Z); (1 # 5, 3%Z); (3 # 5, 7%Z)]]> ∅)
              1%positive [(1 # 2, 7%Z); (1 # 5, 3%Z); (3 # 5, 7%Z)]
              argsort_stable_spec)
    as (l & h' & out & H1 & H2 & H3 & _).
  - reflexivity.
  - exists l, h', out. repeat split; assumption.
Defined.

(** ** Upsampling repeats, downsampling strides *)

Lemma expand_lookup_offset (k : nat) (l : list Q) (j o : nat) :
  (o < k)%nat ->
  flat_map (fun y => repeat y k) l !! (j * k + o)%nat = l !! j.
Proof.
  intros Ho. revert j. induction l as [|x l IH]; intros j.
  - simpl. rewrite !lookup_nil. reflexivity.
  - rewrite expand_cons. destruct j as [|j].
    + simpl. rewrite lookup_app_l by (rewrite repeat_length; lia).
      rewrite <- (repeat_length x k) in Ho.
      destruct (lookup_lt_is_Some_2 _ _ Ho) as (y & Hy). rewrite Hy.
      f_equal. apply list_elem_of_lookup_2, list_elem_of_In, repeat_spec in Hy.
      exact Hy.
    + rewrite lookup_app_r by (rewrite repeat_length; simpl; lia).
      rewrite repeat_length.
      replace (S j * k + o - k)%nat with (j * k + o)%nat by (simpl; lia).
      simpl. apply IH.
Qed.

(** [upsamplestim] without a time axis repeats every element [upfact] times
    along the last axis: the last dimension is multiplied by [upfact], and
    the element at position [i] of the (flattened) input is found at the
    positions [i * upfact, ..., i * upfact + upfact - 1] of the output.  A
    negative factor is refused with [ValueError]. *)
Theorem upsamplestim_repeats :
  forall (stim : StimulusTools.ndarray) (init : list nat) (n : nat) (k : Z),
    StimulusTools.wf stim ->
    StimulusTools.shape stim = init ++ [n] ->
    ((k < 0)%Z ->
     StimulusTools.upsamplestim stim k None =
       Raise (ValueError "negative dimensions are not allowed")) /\
    ((0 <= k)%Z ->
     exists stim_us : StimulusTools.ndarray,
       StimulusTools.upsamplestim stim k None = Ok (stim_us, None) /\
       StimulusTools.shape stim_us = init ++ [(Z.to_nat k * n)%nat] /\
       length (StimulusTools.data stim_us)
         = (length (StimulusTools.data stim) * Z.to_nat k)%nat /\
       forall (i o : nat),
         (o < Z.to_nat k)%nat ->
         StimulusTools.data stim_us !! (i * Z.to_nat k + o)%nat
           = StimulusTools.data stim !! i).
Proof.
  intros [sh dat] init n k [Hlen Hcan] Hsh. simpl in *. subst sh.
  rewrite prod_snoc in Hlen. split.
  - intros Hk. unfold StimulusTools.upsamplestim. simpl.
    rewrite getitem_last_snoc. simpl. unfold StimulusTools.ones_row.
    destruct (Z.ltb_spec k 0); [reflexivity | lia].
  - intros Hk. set (K := Z.to_nat k).
    assert (Hdat : flat_map (fun x => map (Np.mul x) (repeat 1 K)) dat =
                   flat_map (fun y => repeat y K) dat).
    { clear Hlen. induction dat as [|x dat IH]; [reflexivity|].
      inversion Hcan as [|? ? Hx Hcan']; subst. simpl. rewrite (IH Hcan').
      f_equal. clear -Hx. induction K as [|K IH]; [reflexivity|].
      simpl. rewrite mul_one_float by exact Hx. f_equal. exact IH. }
    exists {| StimulusTools.shape := init ++ [(K * n)%nat];
              StimulusTools.data := flat_map (fun y => repeat y K) dat |}.
    simpl. split; [|split; [reflexivity|split]].
    + unfold StimulusTools.upsamplestim. simpl.
      rewrite getitem_last_snoc. simpl.
      unfold StimulusTools.ones_row. destruct (Z.ltb_spec k 0); [lia|]. simpl.
      unfold StimulusTools.reshape, StimulusTools.mul_column_row. simpl.
      fold K. rewrite removelast_last, Hdat.
      replace (Z.to_nat (k * Z.of_nat n)) with (K * n)%nat by (unfold K; lia).
      rewrite prod_snoc, expand_length, Hlen.
      replace (StimulusTools.prod init * (K * n))%nat
        with (StimulusTools.prod init * n * K)%nat by lia.
      rewrite Nat.eqb_refl. reflexivity.
    + apply expand_length.
    + intros i o Ho. apply expand_lookup_offset, Ho.
Qed.

Lemma upsamplestim_repeats_witness :
  exists stim_us : StimulusTools.ndarray,
    StimulusTools.upsamplestim
      {| StimulusTools.shape := [2; 2]%nat;
         StimulusTools.data := [1; 1 # 2; 3; 4] |} 3 None
      = Ok (stim_us, None) /\
    StimulusTools.shape stim_us = [2; 6]%nat.
Proof.
  destruct (upsamplestim_repeats
              {| StimulusTools.shape := [2; 2]%nat;
                 StimulusTools.data := [1; 1 # 2; 3; 4] |} [2%nat] 2 3)
    as [_ H].
  - split; [reflexivity|]. repeat constructor.
  - reflexivity.
  - destruct H as (us & H1 & H2 & _); [lia|].
    exists us. split; [exact H1 | exact H2].
Defined.

Lemma take_nth {A : Type} (a : list A) (idx : list nat) (d : A) :
  List.Forall (fun p => (p < length a)%nat) idx ->
  Np.take a idx = Ok (map (fun p => nth p a d) idx).
Proof.
  intros HF. apply mapM_Ok_map. intros p Hp.
  rewrite List.Forall_forall in HF. specialize (HF p Hp).
  apply getitem_Ok. destruct (lookup_lt_is_Some_2 a p HF) as (x & Hx).
  rewrite Hx. f_equal. symmetry. apply nth_lookup_Some with (d := d) in Hx.
  exact Hx.
Qed.

Lemma stride_bound (n K j : nat) :
  (0 < K)%nat -> (j < (n + K - 1) / K)%nat -> (j * K < n)%nat.
Proof.
  intros HK Hj.
  pose proof (Nat.Div0.mul_div_le (n + K - 1) K) as H.
  nia.
Qed.

(** The array [downsamplestim] returns, in closed form. *)
Lemma downsample_closed_form (init : list nat) (n : nat) (dat : list Q) (k : Z) :
  length dat = (StimulusTools.prod init * n)%nat ->
  (0 < k)%Z ->
  StimulusTools.downsamplestim
    {| StimulusTools.shape := init ++ [n]; StimulusTools.data := dat |} k None
  = Ok ({| StimulusTools.shape := init ++ [((n + Z.to_nat k - 1) / Z.to_nat k)%nat];
           StimulusTools.data :=
             concat (map (fun r =>
                       map (fun j => nth (r * n + j * Z.to_nat k) dat 0)
                           (seq 0 ((n + Z.to_nat k - 1) / Z.to_nat k)))
                     (seq 0 (StimulusTools.prod init))) |}, None).
Proof.
  intros Hlen Hk. set (K := Z.to_nat k). set (m := ((n + K - 1) / K)%nat).
  assert (HK : (0 < K)%nat) by (unfold K; lia).
  unfold StimulusTools.downsamplestim. simpl.
  rewrite getitem_last_snoc. simpl.
  unfold Np.arangeN. destruct (Z.eqb_spec k 0); [lia|].
  destruct (Z.ltb_spec k 0); [lia|]. fold K m. simpl.
  unfold StimulusTools.take_last_axis. simpl.
  rewrite getitem_last_snoc. simpl. rewrite removelast_last.
  rewrite (mapM_Ok_map _
             (fun r => map (fun j => nth (r * n + j * K) dat 0) (seq 0 m))).
  - simpl. rewrite length_map, length_seq. reflexivity.
  - intros r Hr. apply in_seq in Hr.
    assert (Hc : length (firstn n (skipn (r * n) dat)) = n).
    { rewrite length_firstn, length_skipn. nia. }
    rewrite (take_nth _ _ 0).
    + rewrite map_map. f_equal. apply map_ext_in. intros j Hj.
      apply in_seq in Hj.
      rewrite nth_firstn, nth_skipn.
      destruct (Nat.ltb_spec (j * K) n) as [|Hge]; [reflexivity|].
      exfalso. pose proof (stride_bound n K j HK). fold m in H. lia.
    + apply List.Forall_forall. intros p Hp. apply in_map_iff in Hp as (j & <- & Hj).
      apply in_seq in Hj. rewrite Hc. apply stride_bound; [exact HK|].
      fold m. lia.
Qed.

Lemma concat_uniform_lookup {A : Type} (g : nat -> list A) (m rows r j : nat) :
  (forall r, length (g r) = m) ->
  (r < rows)%nat -> (j < m)%nat ->
  concat (map g (seq 0 rows)) !! (r * m + j)%nat = g r !! j.
Proof.
  intros Hg Hr Hj. induction rows as [|rows IH]; [lia|].
  assert (Hl : length (concat (map g (seq 0 rows))) = (rows * m)%nat).
  { clear IH Hr. induction rows as [|rows IH]; [reflexivity|].
    rewrite seq_S, map_app, concat_app, length_app, IH. simpl.
    rewrite app_nil_r, Hg. lia. }
  rewrite seq_S, map_app, concat_app. simpl. rewrite app_nil_r.
  destruct (Nat.eq_dec r rows) as [->|Hne].
  - rewrite lookup_app_r by lia. rewrite Hl. f_equal. lia.
  - rewrite lookup_app_l by nia. apply IH. lia.
Qed.

Lemma concat_uniform_length {A : Type} (g : nat -> list A) (m rows : nat) :
  (forall r, length (g r) = m) ->
  length (concat (map g (seq 0 rows))) = (rows * m)%nat.
Proof.
  intros Hg. induction rows as [|rows IH]; [reflexivity|].
  rewrite seq_S, map_app, concat_app, length_app, IH. simpl.
  rewrite app_nil_r, Hg. lia.
Qed.

(** [downsamplestim] without a time axis keeps, in every row along the last
    axis, the elements at positions 0, [downfact], 2 [downfact], ...: the last
    dimension [n] becomes [ceil(n / downfact)], and element [j] of row [r] of
    the result is element [j * downfact] of row [r] of the input. *)
Theorem downsamplestim_strides :
  forall (stim : StimulusTools.ndarray) (init : list nat) (n : nat) (k : Z),
    StimulusTools.wf stim ->
    StimulusTools.shape stim = init ++ [n] ->
    (0 < k)%Z ->
    exists stim_ds : StimulusTools.ndarray,
      StimulusTools.downsamplestim stim k None = Ok (stim_ds, None) /\
      StimulusTools.shape stim_ds
        = init ++ [((n + Z.to_nat k - 1) / Z.to_nat k)%nat] /\
      length (StimulusTools.data stim_ds)
        = (StimulusTools.prod init * ((n + Z.to_nat k - 1) / Z.to_nat k))%nat /\
      forall (r j : nat),
        (r < StimulusTools.prod init)%nat ->
        (j < (n + Z.to_nat k - 1) / Z.to_nat k)%nat ->
        StimulusTools.data stim_ds
          !! (r * ((n + Z.to_nat k - 1) / Z.to_nat k) + j)%nat
        = StimulusTools.data stim !! (r * n + j * Z.to_nat k)%nat.
Proof.
  intros [sh dat] init n k [Hlen _] Hsh Hk. simpl in *. subst sh.
  rewrite prod_snoc in Hlen.
  eexists. split; [apply downsample_closed_form; assumption|].
  simpl. split; [reflexivity|].
  set (K := Z.to_nat k). set (m := ((n + K - 1) / K)%nat).
  assert (HK : (0 < K)%nat) by (unfold K; lia).
  split.
  - apply concat_uniform_length. intros r. rewrite length_map, length_seq.
    reflexivity.
  - intros r j Hr Hj.
    rewrite (concat_uniform_lookup _ m) by
      (try assumption; intros r'; rewrite length_map, length_seq; reflexivity).
    rewrite list_lookup_fmap, lookup_seq_lt by exact Hj. simpl.
    pose proof (stride_bound n K j HK Hj) as Hb.
    assert (Hlt : (r * n + j * K < length dat)%nat) by nia.
    destruct (lookup_lt_is_Some_2 dat _ Hlt) as (x & Hx). rewrite Hx.
    f_equal. apply nth_lookup_Some with (d := 0) in Hx. exact Hx.
Qed.

Lemma downsamplestim_strides_witness :
  exists stim_ds : StimulusTools.ndarray,
    StimulusTools.downsamplestim
      {| StimulusTools.shape := [2; 3]%nat;
         StimulusTools.data := [1; 2; 3; 4; 5; 6] |} 2 None
      = Ok (stim_ds, None) /\
    StimulusTools.shape stim_ds = [2; 2]%nat.
Proof.
  destruct (downsamplestim_strides
              {| StimulusTools.shape := [2; 3]%nat;
                 StimulusTools.data := [1; 2; 3; 4; 5; 6] |} [2%nat] 3 2)
    as (ds & H1 & H2 & _).
  - split; [reflexivity|]. repeat constructor.
  - reflexivity.
  - lia.
  - exists ds. split; [exact H1 | exact H2].
Defined.

Lemma ceil_div_div (n a b : nat) :
  (0 < a)%nat -> (0 < b)%nat ->
  (((n + a - 1) / a + b - 1) / b = (n + a * b - 1) / (a * b))%nat.
Proof.
  intros Ha Hb. destruct n as [|n].
  - simpl. rewrite (Nat.div_small (a - 1) a) by lia. simpl.
    rewrite !Nat.div_small by nia. reflexivity.
  - replace (S n + a - 1)%nat with (n + 1 * a)%nat by lia.
    rewrite Nat.div_add by lia.
    replace (S n + a * b - 1)%nat with (n + b * a)%nat by lia.
    rewrite <- Nat.Div0.div_div, Nat.div_add by lia.
    f_equal. lia.
Qed.

(** Downsampling twice is downsampling once by the product of the factors. *)
Theorem downsamplestim_compose :
  forall (stim : StimulusTools.ndarray) (k1 k2 : Z),
    StimulusTools.wf stim ->
    StimulusTools.shape stim <> [] ->
    (0 < k1)%Z -> (0 < k2)%Z ->
    exists stim1 stim2 : StimulusTools.ndarray,
      StimulusTools.downsamplestim stim k1 None = Ok (stim1, None) /\
      StimulusTools.downsamplestim stim1 k2 None = Ok (stim2, None) /\
      StimulusTools.downsamplestim stim (k1 * k2) None = Ok (stim2, None).
Proof.
  intros [sh dat] k1 k2 [Hlen _] Hsh Hk1 Hk2. simpl in *.
  destruct (exists_last Hsh) as (init & n & ->).
  rewrite prod_snoc in Hlen.
  set (K1 := Z.to_nat k1). set (K2 := Z.to_nat k2).
  assert (HK1 : (0 < K1)%nat) by (unfold K1; lia).
  assert (HK2 : (0 < K2)%nat) by (unfold K2; lia).
  set (m1 := ((n + K1 - 1) / K1)%nat).
  set (d1 := concat (map (fun r =>
                 map (fun j => nth (r * n + j * K1) dat 0) (seq 0 m1))
               (seq 0 (StimulusTools.prod init)))).
  assert (Hrow : forall r,
             length (map (fun j => nth (r * n + j * K1) dat 0) (seq 0 m1)) = m1).
  { intros r. rewrite length_map, length_seq. reflexivity. }
  assert (Hd1 : length d1 = (StimulusTools.prod init * m1)%nat).
  { apply concat_uniform_length. exact Hrow. }
  eexists _, _. split; [apply downsample_closed_form; assumption|].
  fold K1 m1 d1. split; [apply downsample_closed_form; assumption|].
  rewrite (downsample_closed_form init n dat (k1 * k2)) by (try assumption; lia).
  fold K2.
  replace (Z.to_nat (k1 * k2)) with (K1 * K2)%nat by (unfold K1, K2; lia).
  unfold m1. rewrite (ceil_div_div n K1 K2 HK1 HK2). fold m1.
  set (m := ((n + K1 * K2 - 1) / (K1 * K2))%nat).
  do 4 f_equal. apply map_ext_in. intros r Hr. apply in_seq in Hr.
  apply map_ext_in. intros j Hj. apply in_seq in Hj.
  assert (Hj2 : (j * K2 < m1)%nat).
  { apply stride_bound; [exact HK2|]. unfold m1.
    rewrite (ceil_div_div n K1 K2 HK1 HK2). fold m. lia. }
  rewrite (nth_lookup d1). unfold d1.
  rewrite (concat_uniform_lookup _ m1) by (try assumption; lia).
  rewrite list_lookup_fmap, lookup_seq_lt by exact Hj2. simpl.
  f_equal. lia.
Qed.

Lemma downsamplestim_compose_witness :
  exists stim1 stim2 : StimulusTools.ndarray,
    StimulusTools.downsamplestim
      {| StimulusTools.shape := [7%nat];
         StimulusTools.data := [1; 2; 3; 4; 5; 6; 7] |} 2 None
      = Ok (stim1, None) /\
    StimulusTools.downsamplestim stim1 3 None = Ok (stim2, None) /\
    StimulusTools.downsamplestim
      {| StimulusTools.shape := [7%nat];
         StimulusTools.data := [1; 2; 3; 4; 5; 6; 7] |} (2 * 3) None
      = Ok (stim2, None).
Proof.
  apply (downsamplestim_compose
           {| StimulusTools.shape := [7%nat];
              StimulusTools.data := [1; 2; 3; 4; 5; 6; 7] |} 2 3).
  - split; [reflexivity|]. repeat constructor.
  - discriminate.
  - lia.
  - lia.
Defined.

(** ** slicestim *)

Lemma row_length (t nrows r : nat) (stim : StimulusTools.ndarray) :
  length (StimulusTools.data stim) = (nrows * t)%nat ->
  (r < nrows)%nat ->
  length (StimulusTools.row t stim r) = t.
Proof.
  intros Hlen Hr. unfold StimulusTools.row.
  rewrite length_firstn, length_skipn. nia.
Qed.

Lemma concat_bounded_length {A : Type} (g : nat -> list A) (m rows : nat) :
  (forall r, (r < rows)%nat -> length (g r) = m) ->
  length (concat (map g (seq 0 rows))) = (rows * m)%nat.
Proof.
  intros Hg. induction rows as [|rows IH]; [reflexivity|].
  rewrite seq_S, map_app, concat_app, length_app, IH by (intros; apply Hg; lia).
  simpl. rewrite app_nil_r, Hg by lia. lia.
Qed.

Lemma frames_length (t nrows h j : nat) (stim : StimulusTools.ndarray) :
  length (StimulusTools.data stim) = (nrows * t)%nat ->
  (j + h <= t)%nat ->
  length (Props.frames t nrows h stim j) = (nrows * h)%nat.
Proof.
  intros Hlen Hj. unfold Props.frames. apply concat_bounded_length.
  intros r Hr. rewrite length_firstn, length_skipn.
  rewrite (row_length t nrows r stim Hlen Hr). lia.
Qed.

Lemma step_block (t nrows : nat) (h : Z) (idx : nat)
    (stim : StimulusTools.ndarray) :
  length (StimulusTools.data stim) = (nrows * t)%nat ->
  (0 <= h)%Z -> (Z.to_nat h <= idx)%nat -> (idx <= t)%nat ->
  concat (map (fun r => StimulusTools.py_slice (StimulusTools.row t stim r)
                          (Z.of_nat idx - h) (Z.of_nat idx))
              (seq 0 nrows))
  = Props.frames t nrows (Z.to_nat h) stim (idx - Z.to_nat h).
Proof.
  intros Hlen Hh Hlo Hhi. unfold Props.frames. f_equal.
  apply map_ext_in. intros r Hr. apply in_seq in Hr.
  unfold StimulusTools.py_slice.
  rewrite (row_length t nrows r stim Hlen) by lia.
  unfold StimulusTools.slice_bound.
  destruct (Z.ltb_spec (Z.of_nat idx - h) 0); [lia|].
  destruct (Z.ltb_spec (Z.of_nat idx) 0); [lia|].
  replace (Nat.min (Z.to_nat (Z.of_nat idx)) t) with idx by lia.
  replace (Nat.min (Z.to_nat (Z.of_nat idx - h)) t) with (idx - Z.to_nat h)%nat
    by lia.
  f_equal. lia.
Qed.

Lemma set_column_inside (nrows : nat) (slices : list (option (list Q)))
    (c : nat) (v : list Q) :
  (c < length slices)%nat -> length v = nrows ->
  StimulusTools.set_column nrows slices (Z.of_nat c) v
  = Ok (<[c := Some v]> slices).
Proof.
  intros Hc Hv. unfold StimulusTools.set_column.
  assert (E1 : (Z.of_nat c <? 0)%Z = false) by (apply Z.ltb_ge; lia).
  assert (E2 : (Z.of_nat (length slices) <=? Z.of_nat c)%Z = false)
    by (apply Z.leb_gt; lia).
  rewrite !E1, E2. simpl. rewrite Hv, Nat.eqb_refl, Nat2Z.id. reflexivity.
Qed.

Lemma set_column_outside (nrows : nat) (slices : list (option (list Q)))
    (c : nat) (v : list Q) :
  (length slices <= c)%nat ->
  StimulusTools.set_column nrows slices (Z.of_nat c) v
  = Raise (IndexError "index out of bounds").
Proof.
  intros Hc. unfold StimulusTools.set_column.
  assert (E1 : (Z.of_nat c <? 0)%Z = false) by (apply Z.ltb_ge; lia).
  assert (E2 : (Z.of_nat (length slices) <=? Z.of_nat c)%Z = true)
    by (apply Z.leb_le; lia).
  rewrite !E1, E2. reflexivity.
Qed.

(** The loop over a mask without gaps fills the columns one after the
    other. *)
Lemma slicestim_loop_contiguous (t nrows : nat) (h : Z)
    (stim cstim : StimulusTools.ndarray) (m k : nat) :
  StimulusTools.data cstim = StimulusTools.data stim ->
  length (StimulusTools.data stim) = (nrows * t)%nat ->
  (0 <= h)%Z -> (Z.to_nat h + k + m <= t)%nat ->
  StimulusTools.slicestim_loop cstim t nrows h None (Z.to_nat h * nrows)
    (map (fun j => Some (Props.frames t nrows (Z.to_nat h) stim j)) (seq 0 k)
       ++ repeat None m)
    (seq (Z.to_nat h + k) m)
  = Ok (map (fun j => Some (Props.frames t nrows (Z.to_nat h) stim j))
            (seq 0 (k + m))).
Proof.
  intros Hdata Hlen Hh. revert k. induction m as [|m IH]; intros k Hk.
  - simpl. rewrite app_nil_r, Nat.add_0_r. reflexivity.
  - cbn [seq StimulusTools.slicestim_loop].
    unfold StimulusTools.slicestim_step. cbn [bind].
    assert (Hrows : forall r, StimulusTools.row t cstim r
                              = StimulusTools.row t stim r).
    { intros r. unfold StimulusTools.row. rewrite Hdata. reflexivity. }
    rewrite (map_ext _ (fun r => StimulusTools.py_slice
                                   (StimulusTools.row t stim r)
                                   (Z.of_nat (Z.to_nat h + k) - h)
                                   (Z.of_nat (Z.to_nat h + k))))
      by (intros r; rewrite Hrows; reflexivity).
    rewrite (step_block t nrows h (Z.to_nat h + k) stim Hlen Hh) by lia.
    replace (Z.of_nat (Z.to_nat h + k) - h)%Z with (Z.of_nat k) by lia.
    replace (Z.to_nat h + k - Z.to_nat h)%nat with k by lia.
    rewrite set_column_inside.
    + cbn [bind].
      assert (Hk' : length (map (fun j => Some (Props.frames t nrows (Z.to_nat h) stim j))
                               (seq 0 k)) = k)
        by (rewrite length_map, length_seq; reflexivity).
      rewrite insert_app_r_alt by lia. rewrite Hk', Nat.sub_diag.
      cbn [repeat]. simpl (<[0%nat:=_]> (_ :: _)).
      replace (Z.to_nat h + S k)%nat with (Z.to_nat h + S k)%nat by lia.
      specialize (IH (S k) ltac:(lia)).
      rewrite seq_S, map_app in IH. simpl in IH.
      rewrite <- app_assoc in IH. simpl in IH.
      replace (Z.to_nat h + S k)%nat with (S (Z.to_nat h + k)) in IH by lia.
      rewrite IH. replace (k + S m)%nat with (S k + m)%nat by lia.
      reflexivity.
    + rewrite length_app, length_map, length_seq, repeat_length. lia.
    + rewrite (frames_length t nrows (Z.to_nat h) k stim Hlen) by lia. lia.
Qed.

Lemma skipn_repeat {A : Type} (x : A) (a n : nat) :
  skipn a (repeat x n) = repeat x (n - a).
Proof.
  revert a. induction n as [|n IH]; intros [|a]; simpl; auto.
Qed.

Lemma filter_repeat_true (n : nat) :
  List.filter (fun b : bool => b) (repeat true n) = repeat true n.
Proof. induction n as [|n IH]; simpl; [reflexivity | f_equal; exact IH]. Qed.

Lemma where_from_false_true (k a b : nat) :
  Np.where_from k (repeat false a ++ repeat true b) = seq (k + a) b.
Proof.
  revert k. induction a as [|a IH]; intros k.
  - simpl. rewrite Nat.add_0_r. revert k.
    induction b as [|b IHb]; intros k; simpl; [reflexivity|].
    f_equal. apply IHb.
  - simpl. rewrite IH. f_equal. lia.
Qed.

Lemma py_int_inject (h : Z) : StimulusTools.py_int (inject_Z h) = h.
Proof. unfold StimulusTools.py_int. simpl. apply Z.quot_1_r. Qed.

(** For an integer [history] between 0 and the number of time points, and a
    mask that selects every time point from [history] on (the default mask
    among them), [slicestim] without a temporal basis writes every column:
    column [j] holds, row after row of the collapsed stimulus, the [history]
    elements from time [j] on.  A mask given by the caller is changed in
    place: its first [history] entries are cleared. *)
Theorem slicestim_all_frames :
  forall (stim : StimulusTools.ndarray) (init : list nat) (t : nat) (h : Z)
         (locations : option (list bool)),
    StimulusTools.wf stim ->
    StimulusTools.shape stim = init ++ [t] ->
    (0 < t)%nat ->
    (0 <= h <= Z.of_nat t)%Z ->
    match locations with
    | Some l => length l = t /\
                skipn (Z.to_nat h) l = repeat true (t - Z.to_nat h)
    | None => True
    end ->
    StimulusTools.slicestim stim (inject_Z h) locations None =
      Ok (map (fun j => Some (Props.frames t (StimulusTools.prod init)
                                (Z.to_nat h) stim j))
              (seq 0 (t - Z.to_nat h)),
          match locations with
          | Some l => Some (repeat false (Z.to_nat h) ++ skipn (Z.to_nat h) l)
          | None => None
          end).
Proof.
  intros [sh dat] init t h locations [Hlen _] Hsh Ht Hh Hloc.
  simpl in *. subst sh. rewrite prod_snoc in Hlen.
  set (R := StimulusTools.prod init) in *. set (H := Z.to_nat h).
  set (l0 := match locations with Some l => l | None => repeat true t end).
  assert (Hl0 : length l0 = t /\ skipn H l0 = repeat true (t - H)).
  { unfold l0. destruct locations as [l|]; [exact Hloc|].
    split; [apply repeat_length | apply skipn_repeat]. }
  destruct Hl0 as [Hl0 Hskip].
  unfold StimulusTools.slicestim. simpl StimulusTools.shape.
  rewrite getitem_last_snoc. cbn [bind].
  destruct (Nat.eqb_spec t 0) as [|_]; [lia|].
  rewrite py_int_inject.
  assert (E : Qeq_bool (inject_Z h) (inject_Z h) = true)
    by (apply Qeq_bool_iff; reflexivity).
  rewrite E. cbn [negb]. fold l0.
  simpl StimulusTools.data. rewrite Hlen, Nat.div_mul by lia.
  assert (Ep : StimulusTools.slice_bound (length l0) h = H).
  { unfold StimulusTools.slice_bound. destruct (Z.ltb_spec h 0); [lia|].
    rewrite Hl0. unfold H. lia. }
  rewrite Ep, Hl0, Hskip. replace (Nat.min H t) with H by (unfold H; lia).
  rewrite skipn_app, repeat_length, Nat.sub_diag.
  rewrite (skipn_all2 (repeat false H)) by (rewrite repeat_length; lia).
  rewrite skipn_O, app_nil_l, filter_repeat_true, repeat_length.
  cbn [bind].
  destruct (Z.ltb_spec (h * Z.of_nat R) 0) as [Hneg|_]; [nia|].
  unfold Np.where_. rewrite where_from_false_true. simpl (0 + H)%nat.
  unfold StimulusTools.empty_columns.
  replace (Z.to_nat (h * Z.of_nat R)) with (H * R)%nat by (unfold H; nia).
  pose proof (slicestim_loop_contiguous t R h
                {| StimulusTools.shape := init ++ [t];
                   StimulusTools.data := dat |}
                {| StimulusTools.shape := [R; t];
                   StimulusTools.data := dat |}
                (t - H) 0 eq_refl) as Hloop.
  simpl in Hloop. fold H in Hloop.
  rewrite Nat.add_0_r in Hloop. rewrite Hloop by (try assumption; unfold H; lia).
  cbn [bind]. destruct locations as [l|]; [|reflexivity].
  unfold l0 in Hskip. rewrite Hskip. reflexivity.
Qed.

Lemma slicestim_all_frames_witness :
  StimulusTools.slicestim
    {| StimulusTools.shape := [2; 4]%nat;
       StimulusTools.data := [1; 2; 3; 4; 10; 20; 30; 40] |}
    (inject_Z 2) (Some [true; false; true; true]) None
  = Ok ([Some [1; 2; 10; 20]; Some [2; 3; 20; 30]],
        Some [false; false; true; true]).
Proof.
  apply (slicestim_all_frames
           {| StimulusTools.shape := [2; 4]%nat;
              StimulusTools.data := [1; 2; 3; 4; 10; 20; 30; 40] |}
           [2%nat] 4 2 (Some [true; false; true; true])).
  - split; [reflexivity|]. repeat constructor.
  - reflexivity.
  - lia.
  - lia.
  - split; reflexivity.
Defined.

Lemma count_true_le (m : list bool) :
  (length (List.filter (fun b : bool => b) m) <= length m)%nat.
Proof. induction m as [|[|] m IH]; simpl; lia. Qed.

Lemma count_true_lt (m : list bool) (a : nat) :
  m !! a = Some false ->
  (length (List.filter (fun b : bool => b) m) < length m)%nat.
Proof.
  revert a. induction m as [|x m IH]; intros a Ha; [discriminate|].
  destruct a as [|a]; simpl in Ha.
  - injection Ha as ->. simpl. pose proof (count_true_le m). lia.
  - specialize (IH a Ha). destruct x; simpl; lia.
Qed.

(** In a mask with a cleared entry before a set one, some set entry lies at
    or beyond the number of set entries. *)
Lemma gap_overflow (m : list bool) (a b : nat) :
  (a < b)%nat -> m !! a = Some false -> m !! b = Some true ->
  exists i, m !! i = Some true /\
            (length (List.filter (fun b : bool => b) m) <= i)%nat.
Proof.
  induction m as [|x m IH] using rev_ind; intros Hab Ha Hb; [discriminate|].
  assert (Hblt : (b < length (m ++ [x]))%nat) by (eapply lookup_lt_Some, Hb).
  rewrite length_app in Hblt. simpl in Hblt.
  assert (Ha' : m !! a = Some false).
  { rewrite lookup_app_l in Ha by lia. exact Ha. }
  rewrite List.filter_app, length_app.
  destruct x.
  - exists (length m). split.
    + rewrite lookup_app_r by lia. rewrite Nat.sub_diag. reflexivity.
    + simpl. pose proof (count_true_lt m a Ha'). lia.
  - assert (Hb' : m !! b = Some true).
    { destruct (Nat.eq_dec b (length m)) as [->|Hne].
      - rewrite lookup_app_r in Hb by lia. rewrite Nat.sub_diag in Hb.
        discriminate.
      - rewrite lookup_app_l in Hb by lia. exact Hb. }
    destruct (IH Hab Ha' Hb') as (i & Hi & Hle).
    exists i. split.
    + rewrite lookup_app_l; [exact Hi | eapply lookup_lt_Some, Hi].
    + simpl. lia.
Qed.

Lemma set_column_length (nrows : nat) (slices slices' : list (option (list Q)))
    (c : Z) (v : list Q) :
  StimulusTools.set_column nrows slices c v = Ok slices' ->
  length slices' = length slices.
Proof.
  unfold StimulusTools.set_column.
  destruct (_ || _)%bool; [discriminate|].
  destruct (length v =? nrows)%nat.
  - intros [= <-]. apply length_insert.
  - destruct v as [|x [|y v]]; try discriminate.
    intros [= <-]. apply length_insert.
Qed.

(** The loop fails as soon as a time point asks for a column beyond the
    allocated ones. *)
Lemma slicestim_loop_overflow (t nrows : nat) (h : Z)
    (stim cstim : StimulusTools.ndarray) (idxs : list nat)
    (slices : list (option (list Q))) :
  StimulusTools.data cstim = StimulusTools.data stim ->
  length (StimulusTools.data stim) = (nrows * t)%nat ->
  (0 <= h)%Z ->
  (forall idx, In idx idxs -> (Z.to_nat h <= idx <= t)%nat) ->
  (exists idx, In idx idxs /\ (length slices <= idx - Z.to_nat h)%nat) ->
  StimulusTools.slicestim_loop cstim t nrows h None (Z.to_nat h * nrows)
    slices idxs
  = Raise (IndexError "index out of bounds").
Proof.
  intros Hdata Hlen Hh. revert slices.
  induction idxs as [|idx idxs IH]; intros slices Hall (bad & Hbad & Hover).
  - destruct Hbad.
  - cbn [StimulusTools.slicestim_loop]. unfold StimulusTools.slicestim_step.
    cbn [bind].
    assert (Hrange : (Z.to_nat h <= idx <= t)%nat)
      by (apply Hall; left; reflexivity).
    rewrite (map_ext _ (fun r => StimulusTools.py_slice
                                   (StimulusTools.row t stim r)
                                   (Z.of_nat idx - h) (Z.of_nat idx)))
      by (intros r; unfold StimulusTools.row; rewrite Hdata; reflexivity).
    rewrite (step_block t nrows h idx stim Hlen Hh) by lia.
    replace (Z.of_nat idx - h)%Z with (Z.of_nat (idx - Z.to_nat h)) by lia.
    destruct (Nat.lt_ge_cases (idx - Z.to_nat h) (length slices)) as [Hin|Hout].
    + rewrite set_column_inside;
        [|exact Hin
         |rewrite (frames_length t nrows (Z.to_nat h) _ stim Hlen) by lia; lia].
      cbn [bind]. apply IH.
      * intros i Hi. apply Hall. right. exact Hi.
      * exists bad. rewrite length_insert. split; [|exact Hover].
        destruct Hbad as [<-|Hbad]; [lia | exact Hbad].
    + rewrite set_column_outside by exact Hout. reflexivity.
Qed.

(** With a mask that has a cleared entry, at or after [history], before a
    set one, [slicestim] fails: it allocates one column for each set entry but
    writes the slice of time point [idx] to column [idx - history]. *)
Theorem slicestim_gap_raises :
  forall (stim : StimulusTools.ndarray) (init : list nat) (t : nat) (h : Z)
         (l : list bool) (i j : nat),
    StimulusTools.wf stim ->
    StimulusTools.shape stim = init ++ [t] ->
    (0 < t)%nat ->
    (0 <= h <= Z.of_nat t)%Z ->
    length l = t ->
    (Z.to_nat h <= i < j)%nat ->
    l !! i = Some false ->
    l !! j = Some true ->
    StimulusTools.slicestim stim (inject_Z h) (Some l) None =
      Raise (IndexError "index out of bounds").
Proof.
  intros [sh dat] init t h l i j [Hlen _] Hsh Ht Hh Hl Hij Hi Hj.
  simpl in *. subst sh. rewrite prod_snoc in Hlen.
  set (R := StimulusTools.prod init) in *. set (H := Z.to_nat h) in *.
  unfold StimulusTools.slicestim. simpl StimulusTools.shape.
  rewrite getitem_last_snoc. cbn [bind].
  destruct (Nat.eqb_spec t 0) as [|_]; [lia|].
  rewrite py_int_inject.
  assert (E : Qeq_bool (inject_Z h) (inject_Z h) = true)
    by (apply Qeq_bool_iff; reflexivity).
  rewrite E. cbn [negb].
  simpl StimulusTools.data. rewrite Hlen, Nat.div_mul by lia.
  assert (Ep : StimulusTools.slice_bound (length l) h = H).
  { unfold StimulusTools.slice_bound. destruct (Z.ltb_spec h 0); [lia|].
    rewrite Hl. unfold H. lia. }
  rewrite Ep, Hl. replace (Nat.min H t) with H by (unfold H; lia).
  rewrite skipn_app, repeat_length, Nat.sub_diag.
  rewrite (skipn_all2 (repeat false H)) by (rewrite repeat_length; lia).
  rewrite skipn_O, app_nil_l. cbn [bind].
  destruct (Z.ltb_spec (h * Z.of_nat R) 0) as [Hneg|_]; [nia|].
  replace (Z.to_nat (h * Z.of_nat R)) with (H * R)%nat by (unfold H; nia).
  assert (Hwhere : forall idx,
             In idx (Np.where_ (repeat false H ++ skipn H l)) <->
             (H <= idx)%nat /\ skipn H l !! (idx - H)%nat = Some true).
  { intros idx. rewrite where_In.
    destruct (Nat.lt_ge_cases idx H) as [Hlt|Hge].
    - rewrite lookup_app_l by (rewrite repeat_length; exact Hlt).
      split; [|lia]. intros Hx.
      apply list_elem_of_lookup_2, list_elem_of_In, repeat_spec in Hx.
      discriminate.
    - rewrite lookup_app_r by (rewrite repeat_length; exact Hge).
      rewrite repeat_length. tauto. }
  rewrite (slicestim_loop_overflow t R h
             {| StimulusTools.shape := init ++ [t]; StimulusTools.data := dat |}).
  - reflexivity.
  - reflexivity.
  - exact Hlen.
  - lia.
  - intros idx Hidx. apply Hwhere in Hidx as [Hge Hx].
    apply lookup_lt_Some in Hx. rewrite length_skipn in Hx. fold H. lia.
  - destruct (gap_overflow (skipn H l) (i - H) (j - H)) as (i' & Hi' & Hle).
    + lia.
    + rewrite lookup_drop. replace (H + (i - H))%nat with i by lia. exact Hi.
    + rewrite lookup_drop. replace (H + (j - H))%nat with j by lia. exact Hj.
    + exists (H + i')%nat. split.
      * apply Hwhere. split; [lia|].
        replace (H + i' - H)%nat with i' by lia. exact Hi'.
      * unfold StimulusTools.empty_columns. rewrite repeat_length. fold H. lia.
Qed.

Lemma slicestim_gap_raises_witness :
  StimulusTools.slicestim
    {| StimulusTools.shape := [2; 4]%nat;
       StimulusTools.data := [1; 2; 3; 4; 10; 20; 30; 40] |}
    (inject_Z 1) (Some [true; true; false; true]) None
  = Raise (IndexError "index out of bounds").
Proof.
  apply (slicestim_gap_raises
           {| StimulusTools.shape := [2; 4]%nat;
              StimulusTools.data := [1; 2; 3; 4; 10; 20; 30; 40] |}
           [2%nat] 4 1 [true; true; false; true] 2 3).
  - split; [reflexivity|]. repeat constructor.
  - reflexivity.
  - lia.
  - lia.
  - reflexivity.
  - lia.
  - reflexivity.
  - reflexivity.
Defined.

(** ** The time axis of a downsampled stimulus *)

Lemma every_lookup (k : nat) (l : list Q) (i j : nat) :
  (0 < k)%nat ->
  StimulusTools.every k i l !! j = l !! (i + j * k)%nat.
Proof.
  intros Hk. revert i j. induction l as [|x l IH]; intros i j.
  - simpl. rewrite !lookup_nil. reflexivity.
  - destruct i as [|i].
    + destruct j as [|j]; [reflexivity|].
      replace (0 + S j * k)%nat with (S (k - 1 + j * k)) by lia.
      cbn [StimulusTools.every]. simpl. apply IH.
    + cbn [StimulusTools.every]. simpl. apply IH.
Qed.

(** With a time axis and a positive factor, [downsamplestim] returns the
    time stamps at positions 0, [downfact], 2 [downfact], ... of the axis,
    next to the downsampled stimulus. *)
Theorem downsamplestim_time_axis :
  forall (stim : StimulusTools.ndarray) (k : Z) (time : list Q),
    StimulusTools.wf stim ->
    StimulusTools.shape stim <> [] ->
    (0 < k)%Z ->
    exists (stim_ds : StimulusTools.ndarray) (time_ds : list Q),
      StimulusTools.downsamplestim stim k (Some time)
        = Ok (stim_ds, Some time_ds) /\
      StimulusTools.downsamplestim stim k None = Ok (stim_ds, None) /\
      forall j : nat, time_ds !! j = time !! (j * Z.to_nat k)%nat.
Proof.
  intros [sh dat] k time [Hlen _] Hsh Hk. simpl in *.
  destruct (exists_last Hsh) as (init & n & ->).
  rewrite prod_snoc in Hlen.
  pose proof (downsample_closed_form init n dat k Hlen Hk) as Hds.
  unfold StimulusTools.downsamplestim in Hds |- *.
  destruct (Np.getitem_last _) as [last|]; [|discriminate].
  cbn [bind] in Hds |- *.
  destruct (Np.arangeN last k) as [idx|]; [|discriminate].
  cbn [bind] in Hds |- *.
  destruct (StimulusTools.take_last_axis _ idx) as [ds|]; [|discriminate].
  cbn [bind] in Hds |- *.
  unfold StimulusTools.slice_step.
  destruct (Z.eqb_spec k 0); [lia|]. destruct (Z.ltb_spec 0 k); [|lia].
  cbn [bind]. eexists _, _. split; [reflexivity|]. split; [reflexivity|].
  intros j. rewrite every_lookup by lia. reflexivity.
Qed.

Lemma downsamplestim_time_axis_witness :
  exists (stim_ds : StimulusTools.ndarray) (time_ds : list Q),
    StimulusTools.downsamplestim
      {| StimulusTools.shape := [5%nat];
         StimulusTools.data := [1; 2; 3; 4; 5] |} 2
      (Some [0; 1 # 10; 2 # 10; 3 # 10; 4 # 10])
      = Ok (stim_ds, Some time_ds) /\
    time_ds !! 1%nat = Some (2 # 10).
Proof.
  destruct (downsamplestim_time_axis
              {| StimulusTools.shape := [5%nat];
                 StimulusTools.data := [1; 2; 3; 4; 5] |} 2
              [0; 1 # 10; 2 # 10; 3 # 10; 4 # 10])
    as (ds & tds & H1 & _ & H2).
  - split; [reflexivity|]. repeat constructor.
  - discriminate.
  - lia.
  - exists ds, tds. split; [exact H1|]. rewrite H2. reflexivity.
Defined.

(** ** The time axis of an upsampled stimulus *)

Lemma Qle_bool_false (x y : Q) : Qle_bool x y = false <-> y < x.
Proof.
  rewrite <- Qltb_lt. unfold Np.Qltb. destruct (Qle_bool x y); simpl;
    split; congruence.
Qed.

(** Linear interpolation returns the sample value at a sample point. *)
Lemma interp_at_sample (xp fp : list Q) (i : nat) (xi fi v : Q) :
  StronglySorted Qlt xp ->
  length xp = length fp ->
  xp !! i = Some xi -> fp !! i = Some fi -> v == xi ->
  StimulusTools.interp_at xp fp v == fi.
Proof.
  intros Hs. revert fp i. induction Hs as [|x0 xr Hs IH Hx0]; intros fp i Hlen Hx Hf Hv.
  - discriminate.
  - destruct fp as [|f0 fr]; [discriminate|].
    destruct xr as [|x1 xr'].
    + destruct i as [|i]; [|destruct i; discriminate].
      simpl in Hf. injection Hf as <-. simpl. destruct fr; reflexivity.
    + destruct fr as [|f1 fr']; [discriminate|].
      cbn [StimulusTools.interp_at].
      assert (H01 : x0 < x1).
      { rewrite List.Forall_forall in Hx0. apply Hx0. left. reflexivity. }
      destruct (Np.Qltb v x1) eqn:E.
      * apply Qltb_lt in E.
        destruct i as [|i].
        -- simpl in Hx, Hf. injection Hx as <-. injection Hf as <-.
           set (slope := Np.div (Np.sub f1 f0) (Np.sub x1 x0)).
           rewrite add_eq, mul_eq, (sub_eq v x0), Hv. ring.
        -- exfalso. simpl in Hx.
           assert (Hge : x1 <= xi).
           { destruct i as [|i]; simpl in Hx.
             - injection Hx as <-. apply Qle_refl.
             - inversion Hs as [|? ? _ Hx1]; subst.
               rewrite List.Forall_forall in Hx1. apply Qlt_le_weak, Hx1.
               apply list_elem_of_In. eapply list_elem_of_lookup_2, Hx. }
           rewrite Hv in E. apply (Qlt_not_le _ _ E Hge).
      * unfold Np.Qltb in E. apply negb_false_iff, Qle_bool_iff in E.
        destruct i as [|i].
        -- exfalso. simpl in Hx. injection Hx as <-.
           rewrite Hv in E. apply (Qlt_not_le _ _ H01 E).
        -- apply (IH (f1 :: fr') i); auto.
Qed.

Lemma interp_sample (x xp fp r : list Q) (p i : nat) (v xi fi : Q) :
  StimulusTools.interp x xp fp = Ok r ->
  StronglySorted Qlt xp ->
  x !! p = Some v -> xp !! i = Some xi -> fp !! i = Some fi -> v == xi ->
  exists u, r !! p = Some u /\ u == fi.
Proof.
  intros H Hs Hp Hx Hf Hv. unfold StimulusTools.interp in H.
  destruct xp as [|x0 xr]; [discriminate|].
  destruct fp as [|f0 fr]; [discriminate|].
  destruct (Nat.eqb_spec (length (x0 :: xr)) (length (f0 :: fr))) as [Hlen|];
    [|discriminate].
  injection H as <-. rewrite list_lookup_fmap, Hp. simpl.
  eexists. split; [reflexivity|].
  destruct (Qle_bool v x0) eqn:E.
  - apply Qle_bool_iff in E. destruct i as [|i].
    + simpl in Hf. injection Hf as <-. reflexivity.
    + exfalso. simpl in Hx. inversion Hs as [|? ? _ Hx0]; subst.
      rewrite List.Forall_forall in Hx0.
      assert (x0 < xi).
      { apply Hx0. apply list_elem_of_In. eapply list_elem_of_lookup_2, Hx. }
      rewrite Hv in E. eapply Qlt_not_le; eassumption.
  - apply (interp_at_sample (x0 :: xr) (f0 :: fr) i xi fi v); auto.
Qed.

Lemma interp_length (x xp fp r : list Q) :
  StimulusTools.interp x xp fp = Ok r -> length r = length x.
Proof.
  unfold StimulusTools.interp. destruct xp; [discriminate|].
  destruct fp; [discriminate|]. destruct (_ =? _)%nat; [|discriminate].
  intros [= <-]. apply length_map.
Qed.

Lemma arange_integers (s m : Z) :
  (0 < s)%Z -> (0 <= m)%Z ->
  Np.arange 0 (inject_Z (s * m)) (inject_Z s) =
    Ok (map (fun i : nat => Np.add 0 (Np.mul (inject_Z (Z.of_nat i)) (inject_Z s)))
            (seq 0 (Z.to_nat m))).
Proof.
  intros Hs Hm. unfold Np.arange.
  assert (Hne : ~ inject_Z s == 0).
  { unfold Qeq, inject_Z. simpl. lia. }
  destruct (Qeq_bool (inject_Z s) 0) eqn:E.
  { apply Qeq_bool_iff in E. contradiction. }
  do 3 f_equal.
  assert (Hq : (inject_Z (s * m) - 0) / inject_Z s == inject_Z m).
  { rewrite inject_Z_mult. field. exact Hne. }
  rewrite (Qceiling_comp _ _ Hq), Qceiling_Z. reflexivity.
Qed.

Lemma arange_unit (m : Z) :
  (0 <= m)%Z ->
  Np.arange 0 (inject_Z m) 1 =
    Ok (map (fun i : nat => Np.add 0 (Np.mul (inject_Z (Z.of_nat i)) (inject_Z 1)))
            (seq 0 (Z.to_nat m))).
Proof.
  intros Hm. pose proof (arange_integers 1 m) as H.
  rewrite Z.mul_1_l in H. apply H; lia.
Qed.

Lemma arange_integers_value (s : Z) (i : nat) :
  Np.add 0 (Np.mul (inject_Z (Z.of_nat i)) (inject_Z s))
  == inject_Z (Z.of_nat i * s).
Proof. rewrite add_eq, mul_eq, inject_Z_mult. ring. Qed.

Lemma lookup_sorted_Qlt (l : list Q) :
  (forall (i j : nat) (t t' : Q),
      (i < j)%nat -> l !! i = Some t -> l !! j = Some t' -> t < t') ->
  StronglySorted Qlt l.
Proof.
  induction l as [|x l IH]; intros H; constructor.
  - apply IH. intros i j t t' Hij Hi Hj. apply (H (S i) (S j)); auto. lia.
  - apply List.Forall_forall. intros y Hy.
    apply list_elem_of_In, list_elem_of_lookup in Hy as (j & Hj).
    apply (H 0%nat (S j)); auto. lia.
Qed.

Lemma arange_integers_sorted (s : Z) (n : nat) :
  (0 < s)%Z ->
  StronglySorted Qlt
    (map (fun i : nat => Np.add 0 (Np.mul (inject_Z (Z.of_nat i)) (inject_Z s)))
         (seq 0 n)).
Proof.
  intros Hs. apply lookup_sorted_Qlt. intros i j t t' Hij Hi Hj.
  rewrite list_lookup_fmap in Hi, Hj.
  destruct (seq 0 n !! i) as [i'|] eqn:Ei; [|discriminate].
  destruct (seq 0 n !! j) as [j'|] eqn:Ej; [|discriminate].
  apply lookup_seq in Ei as [-> _]. apply lookup_seq in Ej as [-> _].
  simpl in Hi, Hj. injection Hi as <-. injection Hj as <-.
  rewrite !arange_integers_value. rewrite <- Zlt_Qlt. nia.
Qed.

Lemma downsample_with_time (stim stim_ds : StimulusTools.ndarray) (k : Z)
    (time : list Q) :
  (0 < k)%Z ->
  StimulusTools.downsamplestim stim k None = Ok (stim_ds, None) ->
  StimulusTools.downsamplestim stim k (Some time) =
    Ok (stim_ds, Some (StimulusTools.every (Z.to_nat k) 0 time)).
Proof.
  intros Hk Hds. unfold StimulusTools.downsamplestim in Hds |- *.
  destruct (Np.getitem_last _) as [last|]; [|discriminate].
  cbn [bind] in Hds |- *.
  destruct (Np.arangeN last k) as [idx|]; [|discriminate].
  cbn [bind] in Hds |- *.
  destruct (StimulusTools.take_last_axis _ idx) as [ds|]; [|discriminate].
  cbn [bind] in Hds |- *. injection Hds as <-.
  unfold StimulusTools.slice_step.
  destruct (Z.eqb_spec k 0); [lia|]. destruct (Z.ltb_spec 0 k); [|lia].
  reflexivity.
Qed.

(** The time axis [upsamplestim] computes, before and after the correction
    of its last point. *)
Lemma upsampled_time (k : Z) (time : list Q) :
  (2 <= k)%Z -> time <> [] ->
  exists time_us0 time_us : list Q,
    (let n := inject_Z (k * Z.of_nat (length time)) in
     let* x := Np.arange 0 n 1 in
     let* xp := Np.arange 0 n (inject_Z k) in
     let* time_us := StimulusTools.interp x xp time in
     let* a := Np.getitem_last2 time_us in
     let* b := Np.getitem_last time_us in
     if Qeq_bool a b
     then (let* m := Np.mean (Np.diff time_us) in
           Ok (Some (removelast time_us ++ [Np.add b m])))
     else Ok (Some time_us)) = Ok (Some time_us) /\
    length time_us = (Z.to_nat k * length time)%nat /\
    forall (i : nat) (t : Q),
      time !! i = Some t ->
      exists u, time_us !! (i * Z.to_nat k)%nat = Some u /\ u == t.
Proof.
  intros Hk Hne. set (len := length time). set (K := Z.to_nat k).
  assert (Hlen : (0 < len)%nat) by (unfold len; destruct time; [congruence|simpl; lia]).
  cbv zeta.
  rewrite (arange_unit (k * Z.of_nat len)) by lia. cbn [bind].
  rewrite (arange_integers k (Z.of_nat len)) by lia. cbn [bind].
  rewrite Nat2Z.id.
  replace (Z.to_nat (k * Z.of_nat len)) with (K * len)%nat by (unfold K; lia).
  set (x := map _ (seq 0 (K * len))).
  set (xp := map _ (seq 0 len)).
  assert (Hxp : length xp = len) by (unfold xp; rewrite length_map, length_seq; reflexivity).
  assert (Hx : length x = (K * len)%nat)
    by (unfold x; rewrite length_map, length_seq; reflexivity).
  destruct (StimulusTools.interp x xp time) as [tu0|e] eqn:Hint.
  2:{ exfalso. unfold StimulusTools.interp in Hint.
      destruct xp as [|x0 xr] eqn:Exp; [simpl in Hxp; lia|].
      destruct time as [|f0 fr]; [congruence|].
      rewrite Hxp in Hint. unfold len in Hint. rewrite Nat.eqb_refl in Hint.
      discriminate. }
  cbn [bind].
  pose proof (interp_length _ _ _ _ Hint) as Hl0. rewrite Hx in Hl0.
  assert (Hsample : forall (i : nat) (t : Q),
             time !! i = Some t ->
             exists u, tu0 !! (i * K)%nat = Some u /\ u == t).
  { intros i t Hi.
    assert (Hilt : (i < len)%nat) by (eapply lookup_lt_Some, Hi).
    eapply (interp_sample x xp time tu0 (i * K) i); try eassumption.
    - apply arange_integers_sorted. lia.
    - unfold x. rewrite list_lookup_fmap, lookup_seq_lt by nia. reflexivity.
    - unfold xp. rewrite list_lookup_fmap, lookup_seq_lt by lia. reflexivity.
    - rewrite !arange_integers_value. apply inject_Z_injective. unfold K. nia. }
  assert (HN : (2 <= K * len)%nat) by (unfold K; nia).
  destruct (exists_last (l := tu0)) as (body & b & Etu).
  { intros ->. simpl in Hl0. lia. }
  destruct (exists_last (l := body)) as (body' & a & Ebody).
  { intros ->. rewrite Etu in Hl0. simpl in Hl0. lia. }
  assert (Hga : Np.getitem_last2 tu0 = Ok a).
  { unfold Np.getitem_last2. rewrite Etu, removelast_last, Ebody.
    apply getitem_last_snoc. }
  assert (Hgb : Np.getitem_last tu0 = Ok b)
    by (rewrite Etu; apply getitem_last_snoc).
  rewrite Hga, Hgb. cbn [bind].
  assert (Hbody : length body = (K * len - 1)%nat).
  { rewrite Etu, length_app in Hl0. simpl in Hl0. lia. }
  destruct (Qeq_bool a b).
  - destruct (Np.mean (Np.diff tu0)) as [m|e] eqn:Hm.
    2:{ exfalso. unfold Np.mean in Hm.
        destruct (Np.diff tu0) eqn:Ed; [|discriminate].
        pose proof (diff_length tu0) as Hd. rewrite Ed, Hl0 in Hd.
        simpl in Hd. lia. }
    cbn [bind]. exists tu0, (removelast tu0 ++ [Np.add b m]).
    split; [reflexivity|]. rewrite Etu, removelast_last. split.
    + rewrite length_app. simpl. lia.
    + intros i t Hi. destruct (Hsample i t Hi) as (u & Hu & Hut).
      exists u. split; [|exact Hut].
      assert (Hilt : (i < len)%nat) by (eapply lookup_lt_Some, Hi).
      rewrite Etu in Hu. rewrite lookup_app_l in Hu |- * by (unfold K; nia).
      exact Hu.
  - exists tu0, tu0. split; [reflexivity|]. split; [exact Hl0|]. exact Hsample.
Qed.

Lemma every_length_exact (k len : nat) (l : list Q) :
  (0 < k)%nat -> length l = (k * len)%nat ->
  length (StimulusTools.every k 0 l) = len.
Proof.
  intros Hk Hl. apply Nat.le_antisymm.
  - apply lookup_ge_None. rewrite every_lookup by exact Hk.
    apply lookup_ge_None. lia.
  - destruct len as [|len]; [lia|].
    assert (Hs : is_Some (StimulusTools.every k 0 l !! len)).
    { rewrite every_lookup by exact Hk. apply lookup_lt_is_Some. nia. }
    apply lookup_lt_is_Some in Hs. lia.
Qed.

(** With a time axis of at least two time stamps and a factor of at least
    2, [upsamplestim] returns an axis [upfact] times as long that passes
    through the original time stamps (time stamp [i] at position
    [i * upfact]), and downsampling the upsampled stimulus with that axis by
    the same factor returns the original time stamps.  (An axis of one time
    stamp is squeezed to a 0-d array, which [np.interp] refuses.) *)
Theorem upsample_downsample_time_axis :
  forall (stim : StimulusTools.ndarray) (k : Z) (time : list Q),
    StimulusTools.wf stim ->
    StimulusTools.shape stim <> [] ->
    (2 <= k)%Z ->
    (2 <= length time)%nat ->
    exists (stim_us : StimulusTools.ndarray) (time_us : list Q)
           (stim_ds : StimulusTools.ndarray) (time_ds : list Q),
      StimulusTools.upsamplestim stim k (Some time)
        = Ok (stim_us, Some time_us) /\
      length time_us = (Z.to_nat k * length time)%nat /\
      (forall (i : nat) (t : Q),
          time !! i = Some t ->
          exists u, time_us !! (i * Z.to_nat k)%nat = Some u /\ u == t) /\
      StimulusTools.downsamplestim stim_us k (Some time_us)
        = Ok (stim_ds, Some time_ds) /\
      List.Forall2 Qeq time_ds time.
Proof.
  intros [sh dat] k time [Hlen Hcan] Hsh Hk Htwo. simpl in *.
  assert (Hne : time <> []) by (destruct time; [simpl in Htwo; lia | discriminate]).
  assert (Hsq : StimulusTools.squeeze time = StimulusTools.OneDim time).
  { destruct time as [|a [|b time']]; simpl in Htwo; try lia; reflexivity. }
  destruct (exists_last Hsh) as (init & n & ->).
  rewrite prod_snoc in Hlen.
  set (K := Z.to_nat k).
  assert (HK : (0 < K)%nat) by (unfold K; lia).
  destruct (upsampled_time k time Hk Hne) as (tu0 & tus & Heq & Hl & Hsample).
  cbv zeta in Heq. fold K in Hl, Hsample.
  assert (Hdat : flat_map (fun x => map (Np.mul x) (repeat 1 K)) dat =
                 flat_map (fun y => repeat y K) dat).
  { clear Hlen. induction dat as [|x dat IH]; [reflexivity|].
    inversion Hcan as [|? ? Hx Hcan']; subst. simpl. rewrite (IH Hcan').
    f_equal. clear -Hx. induction K as [|K IH]; [reflexivity|].
    simpl. rewrite mul_one_float by exact Hx. f_equal. exact IH. }
  set (us := {| StimulusTools.shape := init ++ [(K * n)%nat];
                StimulusTools.data := flat_map (fun y => repeat y K) dat |}).
  assert (Hus : length (StimulusTools.data us)
                = (StimulusTools.prod init * (K * n))%nat).
  { unfold us. simpl. rewrite expand_length, Hlen. lia. }
  assert (Hup : StimulusTools.upsamplestim
                  {| StimulusTools.shape := init ++ [n];
                     StimulusTools.data := dat |} k (Some time)
                = Ok (us, Some tus)).
  { unfold StimulusTools.upsamplestim. cbv beta iota zeta.
    rewrite Hsq. unfold StimulusTools.interp_squeezed. rewrite Heq. simpl.
    rewrite getitem_last_snoc. simpl.
    unfold StimulusTools.ones_row. destruct (Z.ltb_spec k 0); [lia|]. simpl.
    unfold StimulusTools.reshape, StimulusTools.mul_column_row. simpl.
    fold K. rewrite removelast_last, Hdat.
    replace (Z.to_nat (k * Z.of_nat n)) with (K * n)%nat by (unfold K; lia).
    rewrite prod_snoc, expand_length, Hlen.
    replace (StimulusTools.prod init * (K * n))%nat
      with (StimulusTools.prod init * n * K)%nat by lia.
    rewrite Nat.eqb_refl. reflexivity. }
  assert (Hk0 : (0 < k)%Z) by lia.
  pose proof (downsample_closed_form init (K * n) (StimulusTools.data us) k
                Hus Hk0) as Hds.
  eexists us, tus, _, _.
  split; [exact Hup|]. split; [exact Hl|]. split; [exact Hsample|].
  split; [apply (downsample_with_time _ _ _ _ Hk0 Hds)|].
  fold K. apply Forall2_same_length_lookup_2.
  - apply every_length_exact; assumption.
  - intros i u t Hu Ht. rewrite every_lookup in Hu by exact HK.
    destruct (Hsample i t Ht) as (u' & Hu' & Hut). simpl in Hu.
    assert (u' = u) by congruence. subst u'. exact Hut.
Qed.

Lemma upsample_downsample_time_axis_witness :
  exists (stim_us : StimulusTools.ndarray) (time_us : list Q)
         (stim_ds : StimulusTools.ndarray) (time_ds : list Q),
    StimulusTools.upsamplestim
      {| StimulusTools.shape := [3%nat]; StimulusTools.data := [1; 2; 3] |}
      2 (Some [0; 1 # 10; 2 # 10]) = Ok (stim_us, Some time_us) /\
    StimulusTools.downsamplestim stim_us 2 (Some time_us)
      = Ok (stim_ds, Some time_ds) /\
    List.Forall2 Qeq time_ds [0; 1 # 10; 2 # 10].
Proof.
  destruct (upsample_downsample_time_axis
              {| StimulusTools.shape := [3%nat];
                 StimulusTools.data := [1; 2; 3] |} 2 [0; 1 # 10; 2 # 10])
    as (us & tus & ds & tds & H1 & _ & _ & H2 & H3).
  - split; [reflexivity|]. repeat constructor.
  - discriminate.
  - lia.
  - simpl. lia.
  - exists us, tus, ds, tds. repeat split; assumption.
Defined.

(** A time axis of one time stamp cannot be upsampled: [np.squeeze] turns it
    into a 0-d array and [np.interp] raises [ValueError], whatever the
    stimulus and the (positive) factor. *)
Theorem upsamplestim_single_stamp_raises :
  forall (stim : StimulusTools.ndarray) (k : Z) (t : Q),
    StimulusTools.wf stim ->
    StimulusTools.shape stim <> [] ->
    (0 < k)%Z ->
    StimulusTools.upsamplestim stim k (Some [t])
      = Raise (ValueError "object of too small depth for desired array").
Proof.
  intros [sh dat] k t [Hlen Hcan] Hsh Hk. simpl in *.
  destruct (exists_last Hsh) as (init & n & ->).
  rewrite prod_snoc in Hlen.
  set (K := Z.to_nat k).
  unfold StimulusTools.upsamplestim. cbv beta iota zeta.
  cbn [StimulusTools.shape]. rewrite getitem_last_snoc. cbn [bind].
  unfold StimulusTools.ones_row. destruct (Z.ltb_spec k 0); [lia|].
  cbn [bind]. unfold StimulusTools.reshape, StimulusTools.mul_column_row.
  cbn [StimulusTools.data StimulusTools.reshape_column]. fold K.
  rewrite removelast_last.
  replace (Z.to_nat (k * Z.of_nat n)) with (K * n)%nat by (unfold K; lia).
  assert (Hl : length (flat_map (fun x => map (Np.mul x) (repeat 1 K)) dat)
               = (StimulusTools.prod init * n * K)%nat).
  { rewrite <- Hlen. clear. induction dat as [|x dat IH]; [reflexivity|].
    simpl. rewrite length_app, length_map, repeat_length, IH. lia. }
  rewrite prod_snoc, Hl.
  replace (StimulusTools.prod init * (K * n))%nat
    with (StimulusTools.prod init * n * K)%nat by lia.
  rewrite Nat.eqb_refl. cbn [bind].
  unfold Np.arange.
  assert (E1 : Qeq_bool 1 0 = false) by reflexivity.
  assert (Ek : Qeq_bool (inject_Z k) 0 = false).
  { apply not_true_iff_false. intros H0. apply Qeq_bool_iff in H0.
    unfold Qeq, inject_Z in H0. simpl in H0. lia. }
  rewrite E1, Ek. reflexivity.
Qed.

Lemma upsamplestim_single_stamp_raises_witness :
  StimulusTools.upsamplestim
    {| StimulusTools.shape := [2%nat]; StimulusTools.data := [1; 2] |}
    3 (Some [7 # 10])
  = Raise (ValueError "object of too small depth for desired array").
Proof.
  apply upsamplestim_single_stamp_raises.
  - split; [reflexivity|]. repeat constructor.
  - discriminate.
  - lia.
Defined.

(** ** The total of trialCounts *)

Lemma nondecreasing_last_Z (e : Z) (edges : list Z) :
  Np.nondecreasing Z.leb (e :: edges) = true -> (e <= List.last edges e)%Z.
Proof.
  revert e. induction edges as [|e' edges IH]; intros e H.
  - simpl. lia.
  - simpl in H. apply andb_true_iff in H as [H1 H2].
    apply Z.leb_le in H1. rewrite last_cons_default.
    specialize (IH e' H2). lia.
Qed.

Lemma bin_counts_total_Z (a : list Z) (e0 e1 : Z) (rest : list Z) :
  Np.nondecreasing Z.leb (e0 :: e1 :: rest) = true ->
  fold_right Z.add 0%Z (Np.bin_counts Z.leb a (e0 :: e1 :: rest)) =
  Z.of_nat (length (List.filter
    (fun x => (e0 <=? x)%Z && (x <=? List.last rest e1)%Z) a)).
Proof.
  revert e0 e1. induction rest as [|e2 rest IH]; intros e0 e1 H.
  - simpl. rewrite Z.add_0_r. reflexivity.
  - pose proof H as H'. simpl in H'. apply andb_true_iff in H' as [H01 Htl].
    apply Z.leb_le in H01.
    change (Np.bin_counts Z.leb a (e0 :: e1 :: e2 :: rest))
      with (Z.of_nat (length (List.filter (Np.in_bin Z.leb e0 e1 false) a))
            :: Np.bin_counts Z.leb a (e1 :: e2 :: rest)).
    cbn [fold_right]. rewrite (IH e1 e2 Htl), <- Nat2Z.inj_add.
    f_equal. rewrite last_cons_default.
    pose proof (nondecreasing_last_Z e1 (e2 :: rest) Htl) as Hlast.
    rewrite last_cons_default in Hlast.
    apply filter_length_split; intros x; unfold Np.in_bin.
    + destruct (Z.leb_spec e0 x), (Z.leb_spec e1 x),
        (Z.leb_spec x (List.last rest e2)); simpl; try reflexivity; lia.
    + destruct (Z.leb_spec e0 x), (Z.leb_spec e1 x); reflexivity.
Qed.

Lemma fold_min_le (l : list Z) (x : Z) :
  (fold_left Z.min l x <= x)%Z /\
  forall y, In y l -> (fold_left Z.min l x <= y)%Z.
Proof.
  revert x. induction l as [|z l IH]; intros x; simpl.
  - split; [lia | tauto].
  - destruct (IH (Z.min x z)) as [H1 H2]. split; [lia|].
    intros y [<- | Hy]; [lia | apply H2, Hy].
Qed.

Lemma fold_max_ge (l : list Z) (x : Z) :
  (x <= fold_left Z.max l x)%Z /\
  forall y, In y l -> (y <= fold_left Z.max l x)%Z.
Proof.
  revert x. induction l as [|z l IH]; intros x; simpl.
  - split; [lia | tauto].
  - destruct (IH (Z.max x z)) as [H1 H2]. split; [lia|].
    intros y [<- | Hy]; [lia | apply H2, Hy].
Qed.

Lemma minZ_maxZ_bounds (a : list Z) (lo hi : Z) :
  Np.minZ a = Ok lo -> Np.maxZ a = Ok hi ->
  forall y, In y a -> (lo <= y <= hi)%Z.
Proof.
  unfold Np.minZ, Np.maxZ, Np.reduce. destruct a as [|x a]; [discriminate|].
  intros Hlo Hhi y Hy.
  assert (Elo : lo = fold_left Z.min a x) by congruence.
  assert (Ehi : hi = fold_left Z.max a x) by congruence.
  destruct (fold_min_le a x) as [L1 L2], (fold_max_ge a x) as [M1 M2].
  destruct Hy as [<- | Hy]; [lia|].
  specialize (L2 y Hy). specialize (M2 y Hy). lia.
Qed.

Lemma arangeZ_last (lo hi d : Z) :
  (lo < hi)%Z -> List.last (Np.arangeZ lo hi) d = (hi - 1)%Z.
Proof.
  intros H. unfold Np.arangeZ.
  replace (Z.to_nat (hi - lo)) with (Z.to_nat (hi - lo - 1) + 1)%nat by lia.
  rewrite seq_app, map_app. simpl. rewrite last_last. lia.
Qed.

(** Whenever [trialCounts] returns at least one bin, its counts add up to
    the number of spikes of the event outside the trial of maximum index:
    every such spike is counted in exactly one bin. *)
Theorem trialCounts_total :
  forall (self : SpikeTools.spikingevent) (counts : list Z) (hi : Z),
    SpikeTools.trialCounts self = Ok counts ->
    Np.maxZ (map snd (SpikeTools.spikes self)) = Ok hi ->
    counts <> [] ->
    fold_right Z.add 0%Z counts =
    Z.of_nat (length (List.filter (fun s => negb (snd s =? hi)%Z)
                                  (SpikeTools.spikes self))).
Proof.
  intros [t0 t1 spikes] counts hi H Hhi Hne. simpl in *.
  unfold SpikeTools.trialCounts in H. simpl in H.
  destruct (Np.minZ (map snd spikes)) as [lo|] eqn:Hlo; [|discriminate].
  rewrite Hhi in H. cbn [bind] in H.
  assert (Hc : counts = Np.bin_counts Z.leb (map snd spikes) (Np.arangeZ lo hi)).
  { unfold Np.histogram in H. rewrite arangeZ_nondecreasing in H. simpl in H.
    destruct (Np.arangeZ lo hi), (map snd spikes); try discriminate;
      congruence. }
  assert (Hlt : (lo + 2 <= hi)%Z).
  { destruct (Z_lt_le_dec hi (lo + 2)) as [Hs|]; [|lia]. exfalso. apply Hne.
    apply length_zero_iff_nil.
    rewrite Hc, bin_counts_length, arangeZ_length. lia. }
  pose proof (arangeZ_nondecreasing lo hi) as Hnd.
  pose proof (arangeZ_last lo hi (lo + 1)%Z ltac:(lia)) as Hlast.
  rewrite arangeZ_step in Hc, Hnd, Hlast by lia.
  rewrite (arangeZ_step (lo + 1)) in Hc, Hnd, Hlast by lia.
  rewrite Hc, (bin_counts_total_Z _ _ _ _ Hnd). f_equal.
  assert (Hl : List.last (Np.arangeZ (lo + 1 + 1) hi) (lo + 1)%Z = (hi - 1)%Z).
  { rewrite <- Hlast. destruct (Np.arangeZ (lo + 1 + 1) hi); reflexivity. }
  rewrite Hl.
  pose proof (minZ_maxZ_bounds _ _ _ Hlo Hhi) as Hb.
  clear -Hb. induction spikes as [|[tm t] spikes IH]; [reflexivity|].
  simpl in *. pose proof (Hb t (or_introl eq_refl)) as Ht.
  specialize (IH (fun y Hy => Hb y (or_intror Hy))).
  destruct (Z.leb_spec lo t), (Z.leb_spec t (hi - 1)), (Z.eqb_spec t hi);
    simpl; rewrite ?IH; try reflexivity; lia.
Qed.

Lemma trialCounts_total_witness :
  exists counts : list Z,
    SpikeTools.trialCounts
      (SpikeTools.__init__ 0 1
         [(1 # 10, 1%Z); (2 # 10, 3%Z); (3 # 10, 2%Z); (4 # 10, 1%Z);
          (5 # 10, 3%Z)]) = Ok counts /\
    fold_right Z.add 0%Z counts = 3%Z.
Proof.
  destruct (SpikeTools.trialCounts
              (SpikeTools.__init__ 0 1
                 [(1 # 10, 1%Z); (2 # 10, 3%Z); (3 # 10, 2%Z); (4 # 10, 1%Z);
                  (5 # 10, 3%Z)])) as [counts|e] eqn:E.
  - exists counts. split; [reflexivity|].
    apply (trialCounts_total _ counts 3%Z E).
    + reflexivity.
    + vm_compute in E. intros ->. discriminate.
  - vm_compute in E. discriminate.
Defined.

(** ** spikingevent.jitter *)

Lemma Qred_zero (q : Q) : q == 0 -> Qred q = 0.
Proof. intros H. apply (Qred_complete q 0 H). Qed.

(** The distinct values of an array that holds one value only. *)
Lemma unique_single (t : Z) (ar : list Z) :
  ar <> [] -> List.Forall (fun x => x = t) ar -> Np.unique ar = [t].
Proof.
  intros Hne HF. rewrite List.Forall_forall in HF.
  pose proof (unique_sorted ar) as Hs.
  assert (Hin : In t (Np.unique ar)).
  { apply unique_In. destruct ar as [|x ar]; [congruence|].
    rewrite <- (HF x (or_introl eq_refl)). left; reflexivity. }
  assert (Hall : forall x, In x (Np.unique ar) -> x = t).
  { intros x Hx. apply HF, unique_In, Hx. }
  destruct (Np.unique ar) as [|a [|b u]].
  - destruct Hin.
  - rewrite (Hall a (or_introl eq_refl)). reflexivity.
  - exfalso. inversion Hs as [|? ? _ Hlt]; subst.
    inversion Hlt as [|? ? Hab _]; subst.
    rewrite (Hall a (or_introl eq_refl)) in Hab.
    rewrite (Hall b (or_intror (or_introl eq_refl))) in Hab. lia.
Qed.

Section Jitter.
Variable np_sqrt : Q -> Q.

(** The standard deviation of an array of one element. *)
Lemma np_std_single (x : Q) :
  SpikeTools.np_std np_sqrt [x] = Ok (np_sqrt 0).
Proof.
  unfold SpikeTools.np_std, Np.mean. cbn [bind map length].
  set (mu := Np.div (Np.sum [x]) (inject_Z (Z.of_nat 1))).
  assert (Hmu : mu == x).
  { unfold mu. rewrite div_eq. unfold Np.sum. cbn [fold_left].
    rewrite add_eq. change (inject_Z (Z.of_nat 1)) with 1. field. }
  assert (E : Np.sub x mu = 0).
  { unfold Np.sub. apply Qred_zero. rewrite Hmu. ring. }
  rewrite E. reflexivity.
Qed.

(** On an event whose spikes all belong to one trial, [ttfs] returns the
    time of the first listed spike alone, and [jitter], the standard
    deviation of that one value, is [np.sqrt(0)]: the mean of one value is
    the value itself, so the deviation is exactly zero. *)
Theorem jitter_single_trial :
  forall (self : SpikeTools.spikingevent) (tm : Q) (t : Z)
         (rest : list SpikeTools.spike),
    SpikeTools.spikes self = (tm, t) :: rest ->
    List.Forall (fun s : SpikeTools.spike => snd s = t) rest ->
    SpikeTools.ttfs self = Ok [tm] /\
    SpikeTools.jitter np_sqrt self = Ok (np_sqrt 0).
Proof.
  intros [t0 t1 spikes] tm t rest Hsp HF. simpl in Hsp. subst spikes.
  assert (Hu : Np.unique (map snd ((tm, t) :: rest)) = [t]).
  { apply unique_single; [discriminate|].
    simpl. constructor; [reflexivity|].
    apply List.Forall_forall. intros x Hx.
    apply in_map_iff in Hx as (s & <- & Hs).
    rewrite List.Forall_forall in HF. apply HF, Hs. }
  assert (Ht : SpikeTools.ttfs
                 {| SpikeTools.start := t0; SpikeTools.stop := t1;
                    SpikeTools.spikes := (tm, t) :: rest |} = Ok [tm]).
  { unfold SpikeTools.ttfs, Np.unique_index. cbn [SpikeTools.spikes].
    rewrite Hu. simpl. rewrite Z.eqb_refl. reflexivity. }
  split; [exact Ht|].
  unfold SpikeTools.jitter. rewrite Ht. cbn [bind]. apply np_std_single.
Qed.
End Jitter.

Lemma jitter_single_trial_witness :
  SpikeTools.jitter (fun x => x)
    (SpikeTools.__init__ 0 1 [(3 # 10, 4%Z); (1 # 10, 4%Z); (5 # 10, 4%Z)])
  = Ok 0.
Proof.
  refine (proj2 (jitter_single_trial (fun x => x)
                   (SpikeTools.__init__ 0 1
                      [(3 # 10, 4%Z); (1 # 10, 4%Z); (5 # 10, 4%Z)])
                   (3 # 10) 4%Z [(1 # 10, 4%Z); (5 # 10, 4%Z)] _ _)).
  - reflexivity.
  - repeat constructor.
Defined.
